(** * DermDetect AI: session state, persistence and inference workflows

    A shallow embedding of [App.tsx] (persistence helpers, upload and
    comparison workflows, patient and user handlers, the sign-in form, the
    form for a new patient, navigation and the confidence badge),
    [types.ts], [services/geminiService.ts] and the confidence classes of
    [components/ResultCard.tsx], together with the platform operations they
    rely on ([JSON.stringify], [JSON.parse], [Date], [localStorage]). *)

From Stdlib Require Import ZArith NArith List String Ascii Bool Lia.
From stdpp Require Import base option list gmap.
Import ListNotations.

Set Warnings "-register-all".

Local Open Scope N_scope.

(** ** JavaScript strings

    A JavaScript string is a sequence of 16-bit code units. *)

Abbreviation jsstring := (list N).

Definition js (s : string) : jsstring :=
  List.map N_of_ascii (list_ascii_of_string s).

(** The same, with every apostrophe standing for a double quote. *)
Definition jsq (s : string) : jsstring :=
  List.map (fun c => if c =? 39 then 34 else c) (js s).

(** [a === b] on strings. *)
Fixpoint jseqb (a b : jsstring) : bool :=
  match a, b with
  | [], [] => true
  | x :: a', y :: b' => (x =? y) && jseqb a' b'
  | _, _ => false
  end.

(** [String.prototype.trim]: strips WhiteSpace and LineTerminator code units
    from both ends. *)
Definition is_js_space (c : N) : bool :=
  (c =? 9) || (c =? 10) || (c =? 11) || (c =? 12) || (c =? 13) || (c =? 32)
  || (c =? 160) || (c =? 5760) || ((8192 <=? c) && (c <=? 8202))
  || (c =? 8232) || (c =? 8233) || (c =? 8239) || (c =? 8287)
  || (c =? 12288) || (c =? 65279).

Fixpoint trimStart (s : jsstring) : jsstring :=
  match s with
  | c :: t => if is_js_space c then trimStart t else s
  | [] => []
  end.

Definition trim (s : jsstring) : jsstring :=
  rev (trimStart (rev (trimStart s))).

(** Decimal rendering of a non-negative integer, as template literals and
    [Number.prototype.toString] produce it. *)
Fixpoint digits_fuel (fuel : nat) (n : N) (acc : jsstring) : jsstring :=
  match fuel with
  | O => acc
  | S f =>
      let acc' := (48 + n mod 10) :: acc in
      if n / 10 =? 0 then acc' else digits_fuel f (n / 10) acc'
  end.

Definition decimal (n : N) : jsstring :=
  digits_fuel (S (N.to_nat (N.log2 n))) n [].

(** Rendering of an integral Number: the time values handled here are
    integers far below 10^21, so no exponent form arises. *)
Definition Number_toString (z : Z) : jsstring :=
  match z with
  | Zneg p => 45 :: decimal (Npos p)
  | _ => decimal (Z.to_N z)
  end.

(** ** Dates and files *)

(** A [Date] holds a time value: an integral number of milliseconds since
    the epoch, or NaN (an invalid date). *)
Inductive Date : Type :=
| Instant (t : Z)
| InvalidDate.

Record File : Type := mkFile {
  file_name : jsstring;
  file_type : jsstring;
  file_bytes : list N
}.

(** ** Runtime values

    The values that flow through [JSON.stringify], [JSON.parse] and the
    persisted state: JSON data plus [Date] and [File] objects.  Numbers are
    kept as their source lexeme; IEEE doubles are outside this embedding. *)
Inductive jsval : Type :=
| VNull
| VBool (b : bool)
| VNum (lexeme : jsstring)
| VStr (s : jsstring)
| VArr (items : list jsval)
| VObj (props : list (jsstring * jsval))
| VDate (d : Date)
| VFile (f : File).

(** ** [JSON.stringify]: quoting strings *)

Definition hex_digit (n : N) : N :=
  if n <? 10 then 48 + n else 87 + n.

(** [UnicodeEscape]: backslash, u and four lowercase hexadecimal digits. *)
Definition unicode_escape (c : N) : jsstring :=
  [92; 117; hex_digit (c / 4096 mod 16); hex_digit (c / 256 mod 16);
   hex_digit (c / 16 mod 16); hex_digit (c mod 16)].

Definition is_high_surrogate (c : N) : bool := (55296 <=? c) && (c <=? 56319).
Definition is_low_surrogate (c : N) : bool := (56320 <=? c) && (c <=? 57343).

Definition escape_unit (c : N) : jsstring :=
  if c =? 8 then [92; 98]
  else if c =? 9 then [92; 116]
  else if c =? 10 then [92; 110]
  else if c =? 12 then [92; 102]
  else if c =? 13 then [92; 114]
  else if c =? 34 then [92; 34]
  else if c =? 92 then [92; 92]
  else if (c <? 32) || is_high_surrogate c || is_low_surrogate c
       then unicode_escape c
  else [c].

(** The body of [QuoteJSONString]: a well-formed surrogate pair is copied,
    a lone surrogate is escaped. *)
Fixpoint quote_units (s : jsstring) : jsstring :=
  match s with
  | [] => []
  | c :: t =>
      if is_high_surrogate c then
        match t with
        | d :: t' =>
            if is_low_surrogate d then c :: d :: quote_units t'
            else unicode_escape c ++ quote_units t
        | [] => unicode_escape c
        end
      else escape_unit c ++ quote_units t
  end.

Definition QuoteJSONString (s : jsstring) : jsstring :=
  34 :: quote_units s ++ [34].

(** ** [Date]: the ISO 8601 rendering and its parser *)

Module DateTime.
Local Open Scope Z_scope.

Definition msPerDay : Z := 86400000.

(** Time values are confined to 100,000,000 days either side of the epoch
    ([TimeClip]). *)
Definition maxTime : Z := 8640000000000000.

Definition in_range (t : Z) : bool := (- maxTime <=? t) && (t <=? maxTime).

Record civil : Type := mkCivil { c_year : Z; c_month : Z; c_day : Z }.

(** Month (1-12) and day of month of a day of the year, for a year that
    starts on 1 March. *)
Definition month_day_of_year_day (doy : Z) : Z * Z :=
  let mp := (5 * doy + 2) / 153 in
  let d := doy - (153 * mp + 2) / 5 + 1 in
  let m := if mp <? 10 then mp + 3 else mp - 9 in
  (m, d).

(** Year, month and day of a day of the 400-year cycle of 146097 days that
    starts on 1 March of year 0: three centuries of 36524 days and one of
    36525, each made of four-year groups of 1461 days (the last one short
    of a day but in the fourth century), each made of three years of 365
    days and a last one that takes the rest. *)
Definition civil_of_cycle_day (doe : Z) : Z * Z * Z :=
  let c := Z.min (doe / 36524) 3 in
  let r := doe - c * 36524 in
  let q := Z.min (r / 1461) 24 in
  let r2 := r - q * 1461 in
  let y1 := Z.min (r2 / 365) 3 in
  let doy := r2 - y1 * 365 in
  let '(m, d) := month_day_of_year_day doy in
  (c * 100 + q * 4 + y1, m, d).

(** Year, month (1-12) and day of month of a day number counted from the
    epoch, in the proleptic Gregorian calendar. *)
Definition civil_of_day (day : Z) : civil :=
  let z := day + 719468 in
  let era := z / 146097 in
  let doe := z mod 146097 in
  let '(yoe, m, d) := civil_of_cycle_day doe in
  mkCivil (yoe + era * 400 + (if m <=? 2 then 1 else 0)) m d.

Definition year_day_of_month_day (m d : Z) : Z :=
  let mp := if 2 <? m then m - 3 else m + 9 in
  (153 * mp + 2) / 5 + d - 1.

Definition cycle_day_of_civil (yoe m d : Z) : Z :=
  yoe * 365 + yoe / 4 - yoe / 100 + year_day_of_month_day m d.

Definition day_of_civil (y m d : Z) : Z :=
  let y' := y - (if m <=? 2 then 1 else 0) in
  let era := y' / 400 in
  let yoe := y' mod 400 in
  era * 146097 + cycle_day_of_civil yoe m d - 719468.

Definition is_leap (y : Z) : bool :=
  (y mod 4 =? 0) && (negb (y mod 100 =? 0) || (y mod 400 =? 0)).

Definition days_in_month (y m : Z) : Z :=
  if m =? 2 then (if is_leap y then 29 else 28)
  else if (m =? 4) || (m =? 6) || (m =? 9) || (m =? 11) then 30
  else 31.

Definition digit_unit (z : Z) : N := Z.to_N (48 + z mod 10).

Definition pad2 (z : Z) : jsstring := [digit_unit (z / 10); digit_unit z].
Definition pad3 (z : Z) : jsstring :=
  [digit_unit (z / 100); digit_unit (z / 10); digit_unit z].
Definition pad4 (z : Z) : jsstring :=
  [digit_unit (z / 1000); digit_unit (z / 100); digit_unit (z / 10);
   digit_unit z].
Definition pad6 (z : Z) : jsstring :=
  (pad3 (z / 1000) ++ pad3 (z mod 1000))%list.

(** Years 0 to 9999 take four digits, any other year a sign and six. *)
Definition year_text (y : Z) : jsstring :=
  if (0 <=? y) && (y <=? 9999) then pad4 y
  else if y <? 0 then 45%N :: pad6 (- y)
  else 43%N :: pad6 y.

(** [Date.prototype.toISOString] of a valid time value:
    YYYY-MM-DDTHH:mm:ss.sssZ. *)
Definition toISOString (t : Z) : jsstring :=
  let day := t / msPerDay in
  let ms := t mod msPerDay in
  let seconds := ms / 1000 in
  let minutes := seconds / 60 in
  let hours := minutes / 60 in
  let c := civil_of_day day in
  (year_text (c_year c) ++ [45%N] ++ pad2 (c_month c) ++ [45%N]
   ++ pad2 (c_day c) ++ [84%N] ++ pad2 hours ++ [58%N]
   ++ pad2 (minutes mod 60) ++ [58%N] ++ pad2 (seconds mod 60)
   ++ [46%N] ++ pad3 (ms mod 1000) ++ [90%N])%list.

Definition digit_value (c : N) : option Z :=
  if ((48 <=? c) && (c <=? 57))%N then Some (Z.of_N c - 48) else None.

Fixpoint number_of_digits (acc : Z) (s : jsstring) : option Z :=
  match s with
  | [] => Some acc
  | c :: t =>
      match digit_value c with
      | Some d => number_of_digits (10 * acc + d) t
      | None => None
      end
  end.

Definition year_of_text (s : jsstring) : option (Z * jsstring) :=
  match s with
  | sg :: y1 :: y2 :: y3 :: y4 :: y5 :: y6 :: rest =>
      if (sg =? 43)%N then
        y ← number_of_digits 0 [y1; y2; y3; y4; y5; y6]; Some (y, rest)
      else if (sg =? 45)%N then
        y ← number_of_digits 0 [y1; y2; y3; y4; y5; y6];
        if y =? 0 then None else Some (- y, rest)
      else
        y ← number_of_digits 0 [sg; y1; y2; y3]; Some (y, y4 :: y5 :: y6 :: rest)
  | y1 :: y2 :: y3 :: y4 :: rest =>
      y ← number_of_digits 0 [y1; y2; y3; y4]; Some (y, rest)
  | _ => None
  end.

(** The complete date-time form with a UTC designator.  Every field must be
    legal and the instant within range; anything else is left to the
    implementation-defined part of [Date.parse]. *)
Definition parse_iso (s : jsstring) : option Z :=
  '(y, rest) ← year_of_text s;
  match rest with
  | [dash1; m1; m2; dash2; dd1; dd2; sep; h1; h2; c1; mi1; mi2; c2; s1; s2;
     dot; f1; f2; f3; zz] =>
      if ((dash1 =? 45) && (dash2 =? 45) && (sep =? 84) && (c1 =? 58)
          && (c2 =? 58) && (dot =? 46) && (zz =? 90))%N then
        mo ← number_of_digits 0 [m1; m2];
        dy ← number_of_digits 0 [dd1; dd2];
        h ← number_of_digits 0 [h1; h2];
        mi ← number_of_digits 0 [mi1; mi2];
        sc ← number_of_digits 0 [s1; s2];
        ms ← number_of_digits 0 [f1; f2; f3];
        if (1 <=? mo) && (mo <=? 12) && (1 <=? dy)
           && (dy <=? days_in_month y mo) && (h <=? 23) && (mi <=? 59)
           && (sc <=? 59) then
          let t := day_of_civil y mo dy * msPerDay
                   + h * 3600000 + mi * 60000 + sc * 1000 + ms in
          if in_range t then Some t else None
        else None
      else None
  | _ => None
  end.

End DateTime.

(** ** [JSON.stringify]: values *)

Fixpoint join_comma (parts : list jsstring) : jsstring :=
  match parts with
  | [] => []
  | [a] => a
  | a :: rest => a ++ 44 :: join_comma rest
  end.

(** [JSON.stringify] without indentation.  A [Date] is rendered through
    [toJSON]: its ISO string, or [null] when invalid.  A [File] has no
    enumerable own property and is rendered as an empty object. *)
Fixpoint JSON_stringify (v : jsval) : jsstring :=
  match v with
  | VNull => js "null"
  | VBool true => js "true"
  | VBool false => js "false"
  | VNum x => x
  | VStr s => QuoteJSONString s
  | VArr l => 91 :: join_comma (List.map JSON_stringify l) ++ [93]
  | VObj ps =>
      123 :: join_comma
               (List.map (fun kv => QuoteJSONString (fst kv)
                                      ++ 58 :: JSON_stringify (snd kv)) ps)
          ++ [125]
  | VDate (Instant t) => QuoteJSONString (DateTime.toISOString t)
  | VDate InvalidDate => js "null"
  | VFile _ => js "{}"
  end.

(** The value [JSON.stringify] actually writes down: a [Date] replaced by
    what [toJSON] returns, a [File] by an empty object. *)
Fixpoint toJSON_pass (v : jsval) : jsval :=
  match v with
  | VArr l => VArr (List.map toJSON_pass l)
  | VObj ps => VObj (List.map (fun kv => (fst kv, toJSON_pass (snd kv))) ps)
  | VDate (Instant t) => VStr (DateTime.toISOString t)
  | VDate InvalidDate => VNull
  | VFile _ => VObj []
  | _ => v
  end.

(** ** Property access on runtime values

    [VObj] lists an object's properties in creation order.  (The engine's
    rule that integer-like keys come first is not modelled.) *)

Fixpoint get_prop (k : jsstring) (ps : list (jsstring * jsval))
  : option jsval :=
  match ps with
  | [] => None
  | (k', v) :: rest => if jseqb k' k then Some v else get_prop k rest
  end.

(** Assigning a property: an existing key keeps its place, a new key goes
    last. *)
Fixpoint set_prop (k : jsstring) (v : jsval) (ps : list (jsstring * jsval))
  : list (jsstring * jsval) :=
  match ps with
  | [] => [(k, v)]
  | (k', v') :: rest =>
      if jseqb k' k then (k', v) :: rest else (k', v') :: set_prop k v rest
  end.

Fixpoint remove_prop (k : jsstring) (ps : list (jsstring * jsval))
  : list (jsstring * jsval) :=
  match ps with
  | [] => []
  | (k', v') :: rest =>
      if jseqb k' k then remove_prop k rest else (k', v') :: remove_prop k rest
  end.

(** The object made of the member [k : v] followed by the members [ps]:
    when the key is repeated further on, the property stays in first
    place and takes the later value. *)
Definition first_member (k : jsstring) (v : jsval)
  (ps : list (jsstring * jsval)) : list (jsstring * jsval) :=
  match get_prop k ps with
  | Some v' => (k, v') :: remove_prop k ps
  | None => (k, v) :: ps
  end.

(** ** [JSON.parse] *)

Definition is_json_ws (c : N) : bool :=
  (c =? 32) || (c =? 9) || (c =? 10) || (c =? 13).

Fixpoint skip_ws (s : jsstring) : jsstring :=
  match s with
  | c :: t => if is_json_ws c then skip_ws t else s
  | [] => []
  end.

Definition hex_value (c : N) : option N :=
  if (48 <=? c) && (c <=? 57) then Some (c - 48)
  else if (97 <=? c) && (c <=? 102) then Some (c - 87)
  else if (65 <=? c) && (c <=? 70) then Some (c - 55)
  else None.

Definition hex4 (a b c d : N) : option N :=
  x ← hex_value a; y ← hex_value b; z ← hex_value c; w ← hex_value d;
  Some (4096 * x + 256 * y + 16 * z + w).

Definition simple_escape (e : N) : option N :=
  if e =? 34 then Some 34
  else if e =? 92 then Some 92
  else if e =? 47 then Some 47
  else if e =? 98 then Some 8
  else if e =? 102 then Some 12
  else if e =? 110 then Some 10
  else if e =? 114 then Some 13
  else if e =? 116 then Some 9
  else None.

Definition push_unit (c : N) (r : option (jsstring * jsstring))
  : option (jsstring * jsstring) :=
  '(s, rest) ← r; Some (c :: s, rest).

(** The characters of a string literal after its opening quote, up to and
    including the closing quote. *)
Fixpoint parse_string_body (s : jsstring) : option (jsstring * jsstring) :=
  match s with
  | [] => None
  | c :: t =>
      if c =? 34 then Some ([], t)
      else if c =? 92 then
        match t with
        | e :: t' =>
            if e =? 117 then
              match t' with
              | h1 :: h2 :: h3 :: h4 :: t'' =>
                  match hex4 h1 h2 h3 h4 with
                  | Some u => push_unit u (parse_string_body t'')
                  | None => None
                  end
              | _ => None
              end
            else
              match simple_escape e with
              | Some u => push_unit u (parse_string_body t')
              | None => None
              end
        | [] => None
        end
      else if c <? 32 then None
      else push_unit c (parse_string_body t)
  end.

Definition is_digit (c : N) : bool := (48 <=? c) && (c <=? 57).

Fixpoint take_digits (s : jsstring) : jsstring * jsstring :=
  match s with
  | c :: t =>
      if is_digit c then let '(ds, r) := take_digits t in (c :: ds, r)
      else ([], s)
  | [] => ([], [])
  end.

Definition parse_exponent (pre s : jsstring) : option (jsstring * jsstring) :=
  match s with
  | e :: t =>
      if (e =? 101) || (e =? 69) then
        let '(sg, t1) :=
          match t with
          | c :: t' => if (c =? 43) || (c =? 45) then ([c], t') else ([], t)
          | [] => ([], t)
          end in
        let '(ds, r) := take_digits t1 in
        match ds with
        | [] => None
        | _ => Some (pre ++ e :: sg ++ ds, r)
        end
      else Some (pre, s)
  | [] => Some (pre, s)
  end.

Definition parse_fraction (pre s : jsstring) : option (jsstring * jsstring) :=
  match s with
  | c :: t =>
      if c =? 46 then
        let '(ds, r) := take_digits t in
        match ds with
        | [] => None
        | _ => parse_exponent (pre ++ c :: ds) r
        end
      else parse_exponent pre s
  | [] => parse_exponent pre s
  end.

(** A number token; the value kept is the lexeme itself. *)
Definition parse_number (s : jsstring) : option (jsstring * jsstring) :=
  let '(sg, s1) :=
    match s with
    | c :: t => if c =? 45 then ([c], t) else ([], s)
    | [] => ([], s)
    end in
  match s1 with
  | c :: t =>
      if c =? 48 then parse_fraction (sg ++ [c]) t
      else if is_digit c then
        let '(ds, r) := take_digits s1 in parse_fraction (sg ++ ds) r
      else None
  | [] => None
  end.

Fixpoint strip_prefix (p s : jsstring) : option jsstring :=
  match p, s with
  | [], _ => Some s
  | a :: p', b :: s' => if a =? b then strip_prefix p' s' else None
  | _ :: _, [] => None
  end.

Fixpoint parse_value (fuel : nat) (s : jsstring) : option (jsval * jsstring) :=
  match fuel with
  | O => None
  | S n =>
      match skip_ws s with
      | [] => None
      | c :: t =>
          if c =? 123 then
            match skip_ws t with
            | c' :: r =>
                if c' =? 125 then Some (VObj [], r)
                else '(ps, r) ← parse_members n t; Some (VObj ps, r)
            | [] => None
            end
          else if c =? 91 then
            match skip_ws t with
            | c' :: r =>
                if c' =? 93 then Some (VArr [], r)
                else '(vs, r) ← parse_elements n t; Some (VArr vs, r)
            | [] => None
            end
          else if c =? 34 then
            '(str, r) ← parse_string_body t; Some (VStr str, r)
          else if c =? 110 then
            r ← strip_prefix (js "null") (c :: t); Some (VNull, r)
          else if c =? 116 then
            r ← strip_prefix (js "true") (c :: t); Some (VBool true, r)
          else if c =? 102 then
            r ← strip_prefix (js "false") (c :: t); Some (VBool false, r)
          else
            '(x, r) ← parse_number (c :: t); Some (VNum x, r)
      end
  end
with parse_elements (fuel : nat) (s : jsstring)
  : option (list jsval * jsstring) :=
  match fuel with
  | O => None
  | S n =>
      '(v, r) ← parse_value n s;
      match skip_ws r with
      | c :: r' =>
          if c =? 44 then
            '(vs, r'') ← parse_elements n r'; Some (v :: vs, r'')
          else if c =? 93 then Some ([v], r')
          else None
      | [] => None
      end
  end
with parse_members (fuel : nat) (s : jsstring)
  : option (list (jsstring * jsval) * jsstring) :=
  match fuel with
  | O => None
  | S n =>
      match skip_ws s with
      | c :: t =>
          if c =? 34 then
            '(k, r) ← parse_string_body t;
            match skip_ws r with
            | c1 :: r1 =>
                if c1 =? 58 then
                  '(v, r2) ← parse_value n r1;
                  match skip_ws r2 with
                  | c3 :: r3 =>
                      if c3 =? 44 then
                        '(ps, r4) ← parse_members n r3;
                        Some (first_member k v ps, r4)
                      else if c3 =? 125 then Some ([(k, v)], r3)
                      else None
                  | [] => None
                  end
                else None
            | [] => None
            end
          else None
      | [] => None
      end
  end.

(** [JSON.parse]: one value, optionally surrounded by white space, and
    nothing else.  [None] stands for the [SyntaxError] it throws.  The fuel
    is spent at most twice per code unit read. *)
Definition JSON_parse (text : jsstring) : option jsval :=
  '(v, r) ← parse_value (2 * length text + 1) text;
  match skip_ws r with
  | [] => Some v
  | _ => None
  end.

Arguments JSON_parse : simpl never.
Arguments JSON_stringify : simpl never.

Definition isArray (v : jsval) : bool :=
  match v with VArr _ => true | _ => false end.

(** ** [localStorage] *)

(** The store maps keys to strings and holds a bounded number of code
    units; [setItem] throws once the bound would be exceeded. *)
Record Storage : Type := mkStorage {
  items : gmap jsstring jsstring;
  quota : N
}.

Definition storage_size (m : gmap jsstring jsstring) : N :=
  map_fold (fun k v acc => N.of_nat (length k + length v) + acc) 0 m.

Definition getItem (key : jsstring) (st : Storage) : option jsstring :=
  items st !! key.

(** [None] stands for the [QuotaExceededError] thrown. *)
Definition setItem (key value : jsstring) (st : Storage) : option Storage :=
  let items' := <[key := value]> (items st) in
  if storage_size items' <=? quota st
  then Some (mkStorage items' (quota st))
  else None.

Definition removeItem (key : jsstring) (st : Storage) : Storage :=
  mkStorage (delete key (items st)) (quota st).

(** ** Persistence helpers ([App.tsx], lines 11-42) *)

(** [saveState]: serialise and store; a failure is only reported on the
    console and the store is left as it was. *)
Definition saveState (key : jsstring) (state : jsval) (st : Storage)
  : Storage :=
  let serializedState := JSON_stringify state in
  match setItem key serializedState st with
  | Some st' => st'
  | None => st
  end.

Section Rehydration.

(** What [new Date(v)] yields where the language leaves it to the
    implementation or to floating point: a string outside the strict ISO
    form, a number, an array or another object. *)
Variable Date_other : jsval -> Date.

(** [new Date(v)] for the value read from a property ([None] is
    [undefined]). *)
Definition new_Date (v : option jsval) : Date :=
  match v with
  | None => InvalidDate
  | Some VNull => Instant 0
  | Some (VBool b) => Instant (if b then 1 else 0)
  | Some (VDate d) => d
  | Some (VStr s) =>
      match DateTime.parse_iso s with
      | Some t => Instant t
      | None => Date_other (VStr s)
      end
  | Some other => Date_other other
  end.

(** [img.timestamp = new Date(img.timestamp)].  Reading a property of
    [null] throws, and so does assigning one to a primitive in module
    (strict) code; [None] stands for that [TypeError].  An array or a
    [Date] or [File] object accepts the new property, which is not among
    the data this type records. *)
Definition rehydrate_image (img : jsval) : option jsval :=
  match img with
  | VNull => None
  | VBool _ | VNum _ | VStr _ => None
  | VObj ps =>
      Some (VObj (set_prop (js "timestamp")
                    (VDate (new_Date (get_prop (js "timestamp") ps))) ps))
  | VArr _ | VDate _ | VFile _ => Some img
  end.

Fixpoint forEach (f : jsval -> option jsval) (l : list jsval)
  : option (list jsval) :=
  match l with
  | [] => Some []
  | x :: rest =>
      x' ← f x; rest' ← forEach f rest; Some (x' :: rest')
  end.

(** The body run on each patient [p]: if [p.lesionImages] is an array,
    rehydrate each of its images. *)
Definition rehydrate_patient (p : jsval) : option jsval :=
  match p with
  | VNull => None
  | VObj ps =>
      match get_prop (js "lesionImages") ps with
      | Some (VArr imgs) =>
          imgs' ← forEach rehydrate_image imgs;
          Some (VObj (set_prop (js "lesionImages") (VArr imgs') ps))
      | _ => Some p
      end
  | _ => Some p
  end.

(** [loadState]: the default when the key is absent, when the text does
    not parse, or when rehydration throws. *)
Definition loadState (key : jsstring) (defaultState : jsval) (st : Storage)
  : jsval :=
  match getItem key st with
  | None => defaultState
  | Some serializedState =>
      match JSON_parse serializedState with
      | None => defaultState
      | Some state =>
          if jseqb key (js "patients") && isArray state then
            match state with
            | VArr ps =>
                match forEach rehydrate_patient ps with
                | Some ps' => VArr ps'
                | None => defaultState
                end
            | _ => state
            end
          else state
      end
  end.

End Rehydration.

(** ** The entity model ([types.ts]) *)

Inductive Gender : Type := Male | Female | Other | PreferNotToSay.

(** [analysisResult] is declared [AnalysisResult | null], but it is filled
    by an unchecked cast of whatever the inference service's text parsed
    to, so it is carried as a runtime value ([VNull] for [null]). *)
Record LesionImage : Type := mkLesionImage {
  img_id : jsstring;
  img_imageDataUrl : jsstring;
  img_file : option File;
  img_analysisResult : jsval;
  img_timestamp : Date
}.

Record Patient : Type := mkPatient {
  p_id : jsstring;
  p_patientId : option jsstring;
  p_name : jsstring;
  p_dob : jsstring;
  p_gender : option Gender;
  p_bloodType : option jsstring;
  p_existingConditions : option jsstring;
  p_lesionImages : list LesionImage
}.

Record User : Type := mkUser {
  u_id : jsstring;
  u_name : jsstring;
  u_email : jsstring;
  u_password : jsstring
}.

(** [Omit<Patient, 'id' | 'lesionImages'>] *)
Record PatientData : Type := mkPatientData {
  d_patientId : option jsstring;
  d_name : jsstring;
  d_dob : jsstring;
  d_gender : option Gender;
  d_bloodType : option jsstring;
  d_existingConditions : option jsstring
}.

Definition with_lesionImages (p : Patient) (imgs : list LesionImage)
  : Patient :=
  mkPatient (p_id p) (p_patientId p) (p_name p) (p_dob p) (p_gender p)
    (p_bloodType p) (p_existingConditions p) imgs.

(** ** Typed records as runtime objects

    The order of the properties of an object depends on the expression that
    built it, which the records do not track: patients are laid out in the
    order of the interface declaration, images in the order of the literal
    in [handleImageUpload].  An optional field that is absent contributes
    no property. *)

Definition Gender_text (g : Gender) : jsstring :=
  match g with
  | Male => js "Male"
  | Female => js "Female"
  | Other => js "Other"
  | PreferNotToSay => js "Prefer not to say"
  end.

Definition optional_prop (k : string) (v : option jsval)
  : list (jsstring * jsval) :=
  match v with
  | Some x => [(js k, x)]
  | None => []
  end.

Definition val_of_image (img : LesionImage) : jsval :=
  VObj ([(js "id", VStr (img_id img))]
        ++ optional_prop "file" (VFile <$> img_file img)
        ++ [(js "imageDataUrl", VStr (img_imageDataUrl img));
            (js "timestamp", VDate (img_timestamp img));
            (js "analysisResult", img_analysisResult img)]).

Definition val_of_patient (p : Patient) : jsval :=
  VObj ([(js "id", VStr (p_id p))]
        ++ optional_prop "patientId" (VStr <$> p_patientId p)
        ++ [(js "name", VStr (p_name p)); (js "dob", VStr (p_dob p))]
        ++ optional_prop "gender" (VStr ∘ Gender_text <$> p_gender p)
        ++ optional_prop "bloodType" (VStr <$> p_bloodType p)
        ++ optional_prop "existingConditions" (VStr <$> p_existingConditions p)
        ++ [(js "lesionImages", VArr (List.map val_of_image (p_lesionImages p)))]).

Definition val_of_patients (ps : list Patient) : jsval :=
  VArr (List.map val_of_patient ps).

Definition val_of_user (u : User) : jsval :=
  VObj [(js "id", VStr (u_id u)); (js "name", VStr (u_name u));
        (js "email", VStr (u_email u)); (js "password", VStr (u_password u))].

(** ** Persistence effects ([App.tsx], lines 546-557) *)

(** [({ file, ...rest }) => rest] *)
Definition without_file (img : LesionImage) : LesionImage :=
  mkLesionImage (img_id img) (img_imageDataUrl img) None
    (img_analysisResult img) (img_timestamp img).

Definition stored_patient (p : Patient) : Patient :=
  with_lesionImages p (List.map without_file (p_lesionImages p)).

Definition serializablePatients (patients : list Patient) : list Patient :=
  List.map stored_patient patients.

Definition persist_users (users : list User) (st : Storage) : Storage :=
  saveState (js "users") (VArr (List.map val_of_user users)) st.

Definition persist_patients (patients : list Patient) (st : Storage)
  : Storage :=
  saveState (js "patients") (val_of_patients (serializablePatients patients)) st.

(** ** Effects

    Handlers run against a world holding the React state of [App] and of
    [PatientDetailView], a record of the calls made, and a counter of the
    interactions with the outside (clock reads, file reads, requests).

    The state of [PatientDetailView] exists while that view is mounted
    only: a handler leaves it as it is, and the rendering that takes the
    view off the screen discards it ([App_render] below), so that the next
    mount starts from the initial state again. *)

(** What a [throw] or a rejected promise carries: an [Error] with its
    message, or a value that is not an [Error]. *)
Inductive thrown : Type :=
| Error (message : jsstring)
| NonError.

(** How an awaited computation ends: it returns, it throws, or its promise
    never settles. *)
Inductive outcome (A : Type) : Type :=
| Returned (a : A)
| Threw (e : thrown)
| Pending.
Arguments Returned {A} a.
Arguments Threw {A} e.
Arguments Pending {A}.

Inductive View : Type := dashboard | patientDetail.

Record AppState : Type := mkApp {
  isLoggedIn : bool;
  users : list User;
  view : View;
  patients : list Patient;
  selectedPatientId : option jsstring;
  viewingImage : option LesionImage
}.

Record DetailState : Type := mkDetail {
  isUploading : bool;
  error : option jsstring;
  compareId1 : option jsstring;
  compareId2 : option jsstring;
  isComparing : bool;
  comparisonResult : option jsval
}.

(** Calls of interest: the two operations of the inference client and the
    [onUpdatePatient] callback. *)
Inductive Call : Type :=
| CallAnalyze (imageFile : File)
| CallCompare (imageFile1 imageFile2 : File)
| CallUpdatePatient (updatedPatient : Patient).

Record World : Type := mkWorld {
  app : AppState;
  detail : DetailState;
  calls : list Call;
  ticks : nat
}.

Definition M (A : Type) : Type := World -> outcome A * World.

#[export] Instance M_ret : MRet M := fun A a w => (Returned a, w).

#[export] Instance M_bind : MBind M := fun A B f m w =>
  match m w with
  | (Returned a, w') => f a w'
  | (Threw e, w') => (Threw e, w')
  | (Pending, w') => (Pending, w')
  end.

Definition throw {A} (e : thrown) : M A := fun w => (Threw e, w).

Definition never {A} : M A := fun w => (Pending, w).

Definition try_catch {A} (body : M A) (handler : thrown -> M A) : M A :=
  fun w =>
    match body w with
    | (Threw e, w') => handler e w'
    | r => r
    end.

(** [finally]: the block runs whenever the body settles. *)
Definition finally {A} (body : M A) (block : M unit) : M A :=
  fun w =>
    match body w with
    | (Pending, w') => (Pending, w')
    | (r, w') =>
        match block w' with
        | (Returned _, w'') => (r, w'')
        | (Threw e, w'') => (Threw e, w'')
        | (Pending, w'') => (Pending, w'')
        end
    end.

Definition get_world : M World := fun w => (Returned w, w).

Definition record_call (c : Call) : M unit := fun w =>
  (Returned tt, mkWorld (app w) (detail w) (calls w ++ [c]) (ticks w)).

(** One interaction with the outside; the result is its index. *)
Definition tick : M nat := fun w =>
  (Returned (ticks w), mkWorld (app w) (detail w) (calls w) (S (ticks w))).

Definition update_app (f : AppState -> AppState) : M unit := fun w =>
  (Returned tt, mkWorld (f (app w)) (detail w) (calls w) (ticks w)).

Definition update_detail (f : DetailState -> DetailState) : M unit := fun w =>
  (Returned tt, mkWorld (app w) (f (detail w)) (calls w) (ticks w)).

(** State setters *)

Definition setIsLoggedIn (b : bool) : M unit :=
  update_app (fun a => mkApp b (users a) (view a) (patients a)
                         (selectedPatientId a) (viewingImage a)).

Definition setUsers (f : list User -> list User) : M unit :=
  update_app (fun a => mkApp (isLoggedIn a) (f (users a)) (view a) (patients a)
                         (selectedPatientId a) (viewingImage a)).

Definition setPatients (f : list Patient -> list Patient) : M unit :=
  update_app (fun a => mkApp (isLoggedIn a) (users a) (view a) (f (patients a))
                         (selectedPatientId a) (viewingImage a)).

Definition setView (v : View) : M unit :=
  update_app (fun a => mkApp (isLoggedIn a) (users a) v (patients a)
                         (selectedPatientId a) (viewingImage a)).

Definition setSelectedPatientId (i : option jsstring) : M unit :=
  update_app (fun a => mkApp (isLoggedIn a) (users a) (view a) (patients a)
                         i (viewingImage a)).

Definition setIsUploading (b : bool) : M unit :=
  update_detail (fun d => mkDetail b (error d) (compareId1 d) (compareId2 d)
                            (isComparing d) (comparisonResult d)).

Definition setError (e : option jsstring) : M unit :=
  update_detail (fun d => mkDetail (isUploading d) e (compareId1 d)
                            (compareId2 d) (isComparing d) (comparisonResult d)).

Definition setCompareId1 (i : option jsstring) : M unit :=
  update_detail (fun d => mkDetail (isUploading d) (error d) i (compareId2 d)
                            (isComparing d) (comparisonResult d)).

Definition setCompareId2 (i : option jsstring) : M unit :=
  update_detail (fun d => mkDetail (isUploading d) (error d) (compareId1 d) i
                            (isComparing d) (comparisonResult d)).

Definition setIsComparing (b : bool) : M unit :=
  update_detail (fun d => mkDetail (isUploading d) (error d) (compareId1 d)
                            (compareId2 d) b (comparisonResult d)).

Definition setComparisonResult (r : option jsval) : M unit :=
  update_detail (fun d => mkDetail (isUploading d) (error d) (compareId1 d)
                            (compareId2 d) (isComparing d) r).

(** ** The outside *)

Record Blob : Type := mkBlob { blob_type : jsstring; blob_bytes : list N }.

Inductive Part : Type :=
| InlineData (data : option jsstring) (mimeType : jsstring)
| TextPart (text : jsstring).

(** The two fixed prompts; their wording plays no part in what follows. *)
Inductive Instruction : Type :=
| SYSTEM_INSTRUCTION
| COMPARISON_SYSTEM_INSTRUCTION.

Inductive SchemaType : Type :=
| STRING
| ARRAY (items : SchemaType).

Record Schema : Type := mkSchema {
  properties : list (jsstring * SchemaType);
  required : list jsstring
}.

Record Request : Type := mkRequest {
  model : jsstring;
  parts : list Part;
  systemInstruction : Instruction;
  responseMimeType : jsstring;
  responseSchema : Schema
}.

(** The [text] accessor of a response is a string or [undefined]. *)
Record Response : Type := mkResponse { response_text : option jsstring }.

(** The environment: the configured credential, the clock, the file
    reader, [fetch] on a data URL and the inference service.  Each oracle is
    indexed by the interaction count, so that repeated calls may differ. *)
Record Env : Type := mkEnv {
  API_KEY : option jsstring;
  clock : nat -> Z;
  readAsDataURL : nat -> File -> option jsstring;
  fetch_blob : nat -> jsstring -> outcome Blob;
  generateContent : nat -> Request -> outcome Response
}.

(** [!x] for a string that may be [null] or [undefined]: absent or empty. *)
Definition falsy (x : option jsstring) : bool :=
  match x with
  | None => true
  | Some [] => true
  | Some _ => false
  end.

(** [s.split(',')] *)
Fixpoint split_comma (s : jsstring) : list jsstring :=
  match s with
  | [] => [[]]
  | c :: t =>
      if c =? 44 then [] :: split_comma t
      else match split_comma t with
           | h :: r => (c :: h) :: r
           | [] => [[c]]
           end
  end.

(** [err instanceof Error ? err.message : fallback] *)
Definition message_or (fallback : jsstring) (err : thrown) : jsstring :=
  match err with
  | Error message => message
  | NonError => fallback
  end.

Definition lift_outcome {A} (o : outcome A) : M A := fun w => (o, w).

(** A value stored in a state of type [T | null], where [None] stands for
    [null]: a [null] stored is that same [null]. *)
Definition nullable (v : jsval) : option jsval :=
  match v with
  | VNull => None
  | _ => Some v
  end.

Section Program.

Variable env : Env.

Definition Date_now : M Z := i ← tick; mret (clock env i).

(** *** The inference client ([services/geminiService.ts]) *)

Definition analysisSchema : Schema :=
  mkSchema
    [(js "conditionName", STRING); (js "confidence", STRING);
     (js "description", STRING); (js "recommendations", ARRAY STRING)]
    [js "conditionName"; js "confidence"; js "description";
     js "recommendations"].

Definition comparisonSchema : Schema :=
  mkSchema
    [(js "changeSummary", STRING); (js "keyObservations", ARRAY STRING);
     (js "recommendation", STRING);
     (js "updatedConditionAssessment", STRING);
     (js "postComparisonCondition", STRING)]
    [js "changeSummary"; js "keyObservations"; js "recommendation";
     js "updatedConditionAssessment"; js "postComparisonCondition"].

Definition analysis_request (imagePart : Part) : Request :=
  mkRequest (js "gemini-2.5-flash")
    [imagePart; TextPart (js "Please analyze this skin condition.")]
    SYSTEM_INSTRUCTION (js "application/json") analysisSchema.

Definition comparison_request (imagePart1 imagePart2 : Part) : Request :=
  mkRequest (js "gemini-2.5-flash")
    [TextPart (js "This is the first image (before):"); imagePart1;
     TextPart (js "This is the second image (after):"); imagePart2;
     TextPart (js "Please compare these two images of the same skin lesion and analyze the changes over time.")]
    COMPARISON_SYSTEM_INSTRUCTION (js "application/json") comparisonSchema.

(** The promise resolves only when the reader's result is a string; after
    a failed read it never settles. *)
Definition fileToGenerativePart (file : File) : M Part :=
  i ← tick;
  match readAsDataURL env i file with
  | Some result =>
      mret (InlineData (nth_error (split_comma result) 1) (file_type file))
  | None => never
  end.

Definition ai_generateContent (req : Request) : M Response :=
  i ← tick; lift_outcome (generateContent env i req).

(** The [try] block shared by both operations: [response.text.trim()]
    throws when the text is [undefined], [JSON.parse] throws on a syntax
    error, and the parsed value is returned under a type assertion, with
    no inspection.  Anything thrown is replaced by [message]. *)
Definition parse_response (message : jsstring) (response : Response)
  : M jsval :=
  try_catch
    (match response_text response with
     | None => throw (Error (js "Cannot read properties of undefined"))
     | Some text =>
         let jsonText := trim text in
         match JSON_parse jsonText with
         | Some result => mret result
         | None => throw (Error (js "Unexpected token in JSON"))
         end
     end)
    (fun _ => throw (Error message)).

Definition analyzeSkinCondition (imageFile : File) : M jsval :=
  record_call (CallAnalyze imageFile);;
  if falsy (API_KEY env) then
    throw (Error (js "API_KEY environment variable is not set."))
  else
    imagePart ← fileToGenerativePart imageFile;
    response ← ai_generateContent (analysis_request imagePart);
    parse_response
      (js "The AI returned an unexpected response format. Please try again.")
      response.

Definition compareLesions (imageFile1 imageFile2 : File) : M jsval :=
  record_call (CallCompare imageFile1 imageFile2);;
  if falsy (API_KEY env) then
    throw (Error (js "API_KEY environment variable is not set."))
  else
    imagePart1 ← fileToGenerativePart imageFile1;
    imagePart2 ← fileToGenerativePart imageFile2;
    response ← ai_generateContent (comparison_request imagePart1 imagePart2);
    parse_response
      (js "The AI returned an unexpected response format for the comparison. Please try again.")
      response.

(** *** Utility functions ([App.tsx], lines 65-78) *)

(** Resolves with the reader's result, rejects with the error event. *)
Definition fileToDataUrl (file : File) : M jsstring :=
  i ← tick;
  match readAsDataURL env i file with
  | Some result => mret result
  | None => throw NonError
  end.

Definition dataUrlToFile (dataUrl filename : jsstring) : M File :=
  i ← tick;
  blob ← lift_outcome (fetch_blob env i dataUrl);
  mret (mkFile filename (blob_type blob) (blob_bytes blob)).

(** *** [PatientDetailView] ([App.tsx], lines 362-412 and 487-491) *)

Section PatientDetailView.

Variable patient : Patient.
Variable onUpdatePatient : Patient -> M unit.

(** The merge step of the upload (lines 383-384): the new image goes in
    front of the images of the [patient] this view was rendered with. *)
Definition appendImage (newLesionImage : LesionImage) : M unit :=
  let updatedPatient :=
    with_lesionImages patient (newLesionImage :: p_lesionImages patient) in
  onUpdatePatient updatedPatient.

Definition handleImageUpload (file : File) : M unit :=
  setIsUploading true;;
  setError None;;
  finally
    (try_catch
       (analysisResult ← analyzeSkinCondition file;
        imageDataUrl ← fileToDataUrl file;
        now ← Date_now;
        stamp ← Date_now;
        let newLesionImage :=
          mkLesionImage (js "img_" ++ Number_toString now) imageDataUrl
            (Some file) analysisResult (Instant stamp) in
        appendImage newLesionImage)
       (fun err =>
          setError (Some (message_or (js "An unknown error occurred.") err))))
    (setIsUploading false).

Definition find_image (i : option jsstring) : option LesionImage :=
  List.find (fun img => bool_decide (Some (img_id img) = i))
    (p_lesionImages patient).

(** [image.file || (await dataUrlToFile(image.imageDataUrl, name))] *)
Definition file_of_image (prefix : string) (image : LesionImage) : M File :=
  match img_file image with
  | Some f => mret f
  | None => dataUrlToFile (img_imageDataUrl image) (js prefix ++ img_id image)
  end.

Definition handleCompare : M unit :=
  w ← get_world;
  let d := detail w in
  if falsy (compareId1 d) || falsy (compareId2 d) then mret tt
  else
    match find_image (compareId1 d), find_image (compareId2 d) with
    | Some image1, Some image2 =>
        setIsComparing true;;
        setComparisonResult None;;
        setError None;;
        finally
          (try_catch
             (file1 ← file_of_image "img1_" image1;
              file2 ← file_of_image "img2_" image2;
              result ← compareLesions file1 file2;
              setComparisonResult (nullable result))
             (fun err =>
                setError
                  (Some (message_or
                           (js "An unknown error occurred during comparison.")
                           err))))
          (setIsComparing false)
    | _, _ => mret tt
    end.

(** The [disabled] attribute of the Compare button. *)
Definition compare_disabled (d : DetailState) : bool :=
  falsy (compareId1 d) || falsy (compareId2 d) || isComparing d
  || bool_decide (compareId1 d = compareId2 d).

(** Whether the notice asking for two different images is rendered. *)
Definition same_image_notice (d : DetailState) : bool :=
  negb (falsy (compareId1 d)) && negb (falsy (compareId2 d))
  && bool_decide (compareId1 d = compareId2 d).

(** A click on the Compare button: a disabled button dispatches
    nothing. *)
Definition click_Compare : M unit :=
  w ← get_world;
  if compare_disabled (detail w) then mret tt else handleCompare.

End PatientDetailView.

(** *** [AddPatientModal] ([App.tsx], lines 192-196) *)

Definition handleSave (onSave : PatientData -> M unit) (formData : PatientData)
  : M unit :=
  if negb (falsy (Some (d_name formData))) && negb (falsy (Some (d_dob formData)))
  then onSave formData
  else mret tt.

(** *** [App] ([App.tsx], lines 568-633) *)

Definition handleLogin (email password : jsstring) : M (option jsstring) :=
  w ← get_world;
  match List.find (fun u => bool_decide (u_email u = email)
                            && bool_decide (u_password u = password))
          (users (app w)) with
  | Some _ => setIsLoggedIn true;; mret None
  | None => mret (Some (js "Invalid credentials. Please try again."))
  end.

Definition handleSignUp (name email password : jsstring)
  : M (option jsstring) :=
  w ← get_world;
  match List.find (fun u => bool_decide (u_email u = email)) (users (app w)) with
  | Some _ => mret (Some (js "An account with this email already exists."))
  | None =>
      now ← Date_now;
      let newUser := mkUser (js "u" ++ Number_toString now) name email password in
      setUsers (fun prev => prev ++ [newUser]);;
      setIsLoggedIn true;;
      mret None
  end.

Definition handleLogout : M unit :=
  setIsLoggedIn false;; setView dashboard;; setSelectedPatientId None.

Definition handleAddPatient (patientData : PatientData) : M unit :=
  now ← Date_now;
  let newPatient :=
    mkPatient (js "p" ++ Number_toString now) (d_patientId patientData)
      (d_name patientData) (d_dob patientData) (d_gender patientData)
      (d_bloodType patientData) (d_existingConditions patientData) [] in
  setPatients (fun prev => newPatient :: prev).

Definition handleSelectPatient (i : jsstring) : M unit :=
  setSelectedPatientId (Some i);; setView patientDetail.

(** The updater passed to [setPatients]. *)
Definition replace_patient (updatedPatient : Patient) (prev : list Patient)
  : list Patient :=
  List.map (fun p => if bool_decide (p_id p = p_id updatedPatient)
                     then updatedPatient else p) prev.

Definition handleUpdatePatient (updatedPatient : Patient) : M unit :=
  record_call (CallUpdatePatient updatedPatient);;
  setPatients (replace_patient updatedPatient).

Definition selectedPatient (a : AppState) : option Patient :=
  List.find (fun p => bool_decide (Some (p_id p) = selectedPatientId a))
    (patients a).

(** The patient whose detail view [renderContent] mounts, if any. *)
Definition mounted_patient (a : AppState) : option Patient :=
  if isLoggedIn a then
    match view a with
    | patientDetail => selectedPatient a
    | dashboard => None
    end
  else None.

(** An upload made through the mounted detail view, whose [patient] prop
    is the selected patient and whose [onUpdatePatient] is
    [handleUpdatePatient]. *)
Definition upload (file : File) : M unit :=
  w ← get_world;
  match mounted_patient (app w) with
  | Some patient => handleImageUpload patient handleUpdatePatient file
  | None => mret tt
  end.

(** The merge step alone, made by the handler of the render the world
    is in: its closure holds the patient mounted now. *)
Definition append (image : LesionImage) : M unit :=
  w ← get_world;
  match mounted_patient (app w) with
  | Some patient => appendImage patient handleUpdatePatient image
  | None => mret tt
  end.

Definition compare_click : M unit :=
  w ← get_world;
  match mounted_patient (app w) with
  | Some patient => click_Compare patient
  | None => mret tt
  end.

End Program.

(** The world in which the body of [handleImageUpload] starts: the upload
    flag raised, the error cleared. *)
Definition start_upload (w : World) : World :=
  let d := detail w in
  mkWorld (app w)
    (mkDetail true None (compareId1 d) (compareId2 d) (isComparing d)
       (comparisonResult d))
    (calls w) (ticks w).

(** The binary handle of an image as the comparison workflow is meant to
    obtain it: the live file when there is one, otherwise the file decoded
    from the encoded payload (by the [fetch] made at interaction [i]) and
    named [prefix] followed by the image id. *)
Definition binary_handle (env : Env) (i : nat) (prefix : string)
  (image : LesionImage) : outcome File :=
  match img_file image with
  | Some f => Returned f
  | None =>
      match fetch_blob env i (img_imageDataUrl image) with
      | Returned blob =>
          Returned (mkFile (js prefix ++ img_id image) (blob_type blob)
                      (blob_bytes blob))
      | Threw e => Threw e
      | Pending => Pending
      end
  end.

(** The number of outside interactions obtaining that handle takes. *)
Definition decode_steps (image : LesionImage) : nat :=
  match img_file image with
  | Some _ => 0
  | None => 1
  end.

(** A run of uploads, each made through the view as rendered after the
    previous one. *)
Fixpoint upload_all (env : Env) (files : list File) : M unit :=
  match files with
  | [] => mret tt
  | file :: rest => upload env file;; upload_all env rest
  end.



(** What a response parses to, if it carries a text and the trimmed text
    is JSON. *)
Definition payload_of (response : Response) : option jsval :=
  text ← response_text response; JSON_parse (trim text).

(** Whether a value has every field a schema requires. *)
Definition has_required_fields (schema : Schema) (v : jsval) : bool :=
  match v with
  | VObj ps => forallb (fun k => bool_decide (is_Some (get_prop k ps)))
                 (required schema)
  | _ => false
  end.

Definition analysis_format_error : thrown :=
  Error (js "The AI returned an unexpected response format. Please try again.").

Definition comparison_format_error : thrown :=
  Error (js "The AI returned an unexpected response format for the comparison. Please try again.").

(** ** Expected values

    The values the statements below compare the program's results with.
    They are written from what the properties say and are used by no
    definition of the program. *)

(** The patient [p] holding [images] and otherwise unchanged. *)
Definition patient_holding (p : Patient) (images : list LesionImage)
  : Patient :=
  mkPatient (p_id p) (p_patientId p) (p_name p) (p_dob p) (p_gender p)
    (p_bloodType p) (p_existingConditions p) images.

(** A collection as it is expected back from the store: every image
    without its file, everything else as it was. *)
Definition image_as_reloaded (img : LesionImage) : LesionImage :=
  mkLesionImage (img_id img) (img_imageDataUrl img) None
    (img_analysisResult img) (img_timestamp img).

Definition patients_as_reloaded (patients : list Patient) : list Patient :=
  List.map
    (fun p => patient_holding p (List.map image_as_reloaded (p_lesionImages p)))
    patients.

(** What it means for a runtime value to read as a given image or
    patient, property by property. *)
Definition reads_as_image (v : jsval) (img : LesionImage) : Prop :=
  exists ps,
    v = VObj ps
    /\ get_prop (js "id") ps = Some (VStr (img_id img))
    /\ get_prop (js "imageDataUrl") ps = Some (VStr (img_imageDataUrl img))
    /\ get_prop (js "analysisResult") ps = Some (img_analysisResult img)
    /\ get_prop (js "timestamp") ps = Some (VDate (img_timestamp img))
    /\ get_prop (js "file") ps = None.

Definition reads_as_patient (v : jsval) (p : Patient) : Prop :=
  exists ps images,
    v = VObj ps
    /\ get_prop (js "id") ps = Some (VStr (p_id p))
    /\ get_prop (js "patientId") ps = VStr <$> p_patientId p
    /\ get_prop (js "name") ps = Some (VStr (p_name p))
    /\ get_prop (js "dob") ps = Some (VStr (p_dob p))
    /\ get_prop (js "gender") ps
       = (fun g => VStr (match g with
                         | Male => js "Male"
                         | Female => js "Female"
                         | Other => js "Other"
                         | PreferNotToSay => js "Prefer not to say"
                         end)) <$> p_gender p
    /\ get_prop (js "bloodType") ps = VStr <$> p_bloodType p
    /\ get_prop (js "existingConditions") ps = VStr <$> p_existingConditions p
    /\ get_prop (js "lesionImages") ps = Some (VArr images)
    /\ Forall2 reads_as_image images (p_lesionImages p).

(** ** What can be stored and read back

    A value is [storable] when it holds no number and no object of it
    repeats a key; it is [plain] when, besides, it holds no [Date] and no
    [File]: strings, booleans, [null], and arrays and objects of these. *)

Fixpoint distinct_keys (ks : list jsstring) : bool :=
  match ks with
  | [] => true
  | k :: rest => negb (existsb (jseqb k) rest) && distinct_keys rest
  end.

Fixpoint storable (v : jsval) : bool :=
  match v with
  | VNum _ => false
  | VArr l => forallb storable l
  | VObj ps =>
      distinct_keys (List.map fst ps)
      && forallb (fun kv => storable (snd kv)) ps
  | _ => true
  end.

Fixpoint plain (v : jsval) : bool :=
  match v with
  | VNum _ | VDate _ | VFile _ => false
  | VArr l => forallb plain l
  | VObj ps =>
      distinct_keys (List.map fst ps)
      && forallb (fun kv => plain (snd kv)) ps
  | _ => true
  end.

(** A bound on the fuel [parse_value] needs to read a value back. *)
Fixpoint fsize (v : jsval) : nat :=
  match v with
  | VArr l => S (list_sum (List.map (fun x => S (fsize x)) l))
  | VObj ps => S (list_sum (List.map (fun kv => S (fsize (snd kv))) ps))
  | _ => 1
  end.

(** A valid [Date]: an instant within the range of time values. *)
Definition valid_Date (d : Date) : Prop :=
  match d with
  | Instant t => DateTime.in_range t = true
  | InvalidDate => False
  end.

(** ** Checks made by evaluation

    Boolean tests run over a whole range of numbers, for the facts about
    single code units, digits and days of the year used further on. *)

(** Checking a property of every number below [n] by evaluation. *)
Fixpoint all_from (count : nat) (c : N) (f : N -> bool) : bool :=
  match count with
  | O => true
  | S k => f c && all_from k (N.succ c) f
  end.

Definition all_below (n : N) (f : N -> bool) : bool :=
  all_from (N.to_nat n) 0 f.

(** Whether the digits written for [z] read back as [z]. *)
Definition digits_read_back (text : jsstring) (z : Z) : bool :=
  match DateTime.number_of_digits 0 text with
  | Some z' => (z' =? z)%Z
  | None => false
  end.

Definition starts_with_digit (text : jsstring) : bool :=
  match text with
  | c :: _ => (48 <=? c) && (c <=? 57)
  | [] => false
  end.

(** Whether day [doy] of a year starting in March converts to a legal
    month and day and back; day 365 is 29 February. *)
Definition year_day_ok (doy : Z) : bool :=
  let '(m, d) := DateTime.month_day_of_year_day doy in
  ((1 <=? m) && (m <=? 12) && (1 <=? d)
   && (if doy =? 365 then (m =? 2) && (d =? 29)
       else d <=? DateTime.days_in_month 1 m)
   && (DateTime.year_day_of_month_day m d =? doy))%Z.

(** The first unit of a serialised value: neither white space nor a
    closing bracket. *)
Definition opens_value (c : N) : bool :=
  (c =? 110) || (c =? 116) || (c =? 102) || (c =? 34) || (c =? 91)
  || (c =? 123).

(** The text of one member of an object. *)
Definition member_text (kv : jsstring * jsval) : jsstring :=
  QuoteJSONString (fst kv) ++ 58 :: JSON_stringify (snd kv).

(** Whether the units [u], met inside a string literal, read as the single
    unit [c]. *)
Definition unit_parses (u : jsstring) (c : N) : bool :=
  match u with
  | [x] => (x =? c) && negb (x =? 34) && negb (x =? 92) && negb (x <? 32)
  | [b; e] =>
      (b =? 92) && negb (e =? 117)
      && match simple_escape e with Some c' => c' =? c | None => false end
  | [b; u'; h1; h2; h3; h4] =>
      (b =? 92) && (u' =? 117)
      && match hex4 h1 h2 h3 h4 with Some c' => c' =? c | None => false end
  | _ => false
  end.

(** What it is for a value to be read back from its own text: with
    enough fuel, whatever follows. *)
Definition parses_back (v : jsval) : Prop :=
  storable v = true ->
  forall f rest, (fsize v <= f)%nat ->
  parse_value f (JSON_stringify v ++ rest) = Some (toJSON_pass v, rest).

(** An image is fit to be stored when its timestamp is a valid date and
    its analysis result is plain data. *)
Definition image_storable (img : LesionImage) : Prop :=
  valid_Date (img_timestamp img) /\ plain (img_analysisResult img) = true.

Definition patient_storable (p : Patient) : Prop :=
  Forall image_storable (p_lesionImages p).

(** The properties of a patient object that precede [lesionImages]. *)
Definition patient_front (p : Patient) : list (jsstring * jsval) :=
  [(js "id", VStr (p_id p))]
  ++ optional_prop "patientId" (VStr <$> p_patientId p)
  ++ [(js "name", VStr (p_name p)); (js "dob", VStr (p_dob p))]
  ++ optional_prop "gender" (VStr ∘ Gender_text <$> p_gender p)
  ++ optional_prop "bloodType" (VStr <$> p_bloodType p)
  ++ optional_prop "existingConditions" (VStr <$> p_existingConditions p).

(** Induction on runtime values, with the elements of arrays and the
    properties of objects covered. *)
Section jsval_induction.
Variable P : jsval -> Prop.
Hypothesis HNull : P VNull.
Hypothesis HBool : forall b, P (VBool b).
Hypothesis HNum : forall x, P (VNum x).
Hypothesis HStr : forall s, P (VStr s).
Hypothesis HArr : forall l, Forall P l -> P (VArr l).
Hypothesis HObj : forall ps, Forall (fun kv => P (snd kv)) ps -> P (VObj ps).
Hypothesis HDate : forall d, P (VDate d).
Hypothesis HFile : forall f, P (VFile f).

Fixpoint jsval_nested_ind (v : jsval) : P v :=
  match v with
  | VNull => HNull
  | VBool b => HBool b
  | VNum x => HNum x
  | VStr s => HStr s
  | VArr l =>
      HArr l ((fix go (l : list jsval) : Forall P l :=
                 match l with
                 | [] => List.Forall_nil _
                 | x :: r => List.Forall_cons _ x r (jsval_nested_ind x) (go r)
                 end) l)
  | VObj ps =>
      HObj ps ((fix go (ps : list (jsstring * jsval))
                  : Forall (fun kv => P (snd kv)) ps :=
                  match ps with
                  | [] => List.Forall_nil _
                  | kv :: r =>
                      List.Forall_cons _ kv r (jsval_nested_ind (snd kv)) (go r)
                  end) ps)
  | VDate d => HDate d
  | VFile f => HFile f
  end.
End jsval_induction.

(** What a successful run of a parsing function shows: input was consumed,
    and any fuel of at least twice the units consumed, plus [extra], gives
    the same result. *)
Definition settled {A} (run : nat -> jsstring -> option (A * jsstring))
  (extra : nat) (f : nat) : Prop :=
  forall s a r,
    run f s = Some (a, r) ->
    (length r < length s)%nat
    /\ forall f', (2 * (length s - length r) + extra <= f')%nat ->
                  run f' s = Some (a, r).

(** ** Seed data and sample worlds *)

(** [initialPatients] ([App.tsx], lines 45-62) *)
Definition initialPatients : list Patient :=
  [ mkPatient (js "p1") (Some (js "JD-001")) (js "John Doe") (js "1985-05-23")
      (Some Male) (Some (js "O+")) (Some (js "None reported")) [];
    mkPatient (js "p2") None (js "Jane Smith") (js "1992-11-14")
      None None None [] ].

Definition sample_file : File :=
  mkFile (js "lesion.png") (js "image/png") [137; 80; 78; 71].

Definition sample_dataUrl : jsstring := js "data:image/png;base64,iVBORw==".

(** An environment with a credential, a clock stuck on one millisecond, a
    reader that succeeds, and a service answering with [text]. *)
Definition env_answering (text : jsstring) : Env :=
  mkEnv (Some (js "key")) (fun _ => 1700000000000%Z)
    (fun _ _ => Some sample_dataUrl)
    (fun _ _ => Returned (mkBlob (js "image/png") [137; 80; 78; 71]))
    (fun _ _ => Returned (mkResponse (Some text))).

(** The same with a clock that advances by a millisecond at every
    interaction. *)
Definition env_ticking (text : jsstring) : Env :=
  mkEnv (Some (js "key")) (fun i => 1700000000000 + Z.of_nat i)%Z
    (fun _ _ => Some sample_dataUrl)
    (fun _ _ => Returned (mkBlob (js "image/png") [137; 80; 78; 71]))
    (fun _ _ => Returned (mkResponse (Some text))).

Definition idle_detail : DetailState :=
  mkDetail false None None None false None.

(** Logged in, with the detail view of patient [p1] mounted. *)
Definition world_viewing (ps : list Patient) (d : DetailState) : World :=
  mkWorld (mkApp true [] patientDetail ps (Some (js "p1")) None) d [] 0.

(** A patient with a session-uploaded image taken at t = 200 in front of
    a reloaded one taken at t = 100. *)
Definition image_200 : LesionImage :=
  mkLesionImage (js "img_200") sample_dataUrl (Some sample_file) VNull
    (Instant 200).

Definition image_100 : LesionImage :=
  mkLesionImage (js "img_100") sample_dataUrl None VNull (Instant 100).

Definition patient_P : Patient :=
  mkPatient (js "p1") None (js "P") (js "2000-01-01") None None None
    [image_200; image_100].

Definition selecting (i1 i2 : string) : DetailState :=
  mkDetail false None (Some (js i1)) (Some (js i2)) false None.

Definition decoded_100 : File :=
  mkFile (js "img1_img_100") (js "image/png") [137; 80; 78; 71].

Definition data_A : PatientData :=
  mkPatientData (Some []) (js "Ada") (js "1990-01-01") (Some PreferNotToSay)
    (Some []) (Some []).

Definition data_B : PatientData :=
  mkPatientData (Some []) (js "Bob") (js "1991-02-02") (Some PreferNotToSay)
    (Some []) (Some []).

(** An analysed image, a patient holding it in front of a reloaded one,
    and stores of two sizes. *)
Definition sample_analysis : jsval :=
  VObj [(js "conditionName", VStr (js "Eczema"));
        (js "confidence", VStr (js "High"));
        (js "description", VStr (js "Dry, itchy patches of skin."));
        (js "recommendations",
         VArr [VStr (js "Keep the area clean and dry.");
               VStr (js "This is not a medical diagnosis.")])].

Definition image_300 : LesionImage :=
  mkLesionImage (js "img_1700000000300") sample_dataUrl (Some sample_file)
    sample_analysis (Instant 1700000000300).

Definition patient_Q : Patient :=
  mkPatient (js "p1") (Some (js "JD-001")) (js "John Doe") (js "1985-05-23")
    (Some Male) (Some (js "O+")) (Some (js "None reported"))
    [image_300; image_100].


Definition roomy_store : Storage := mkStorage ∅ 5000000.


(** * The rest of the application

    The other handlers, effects and views of [App.tsx]: the default user,
    navigation and rendering, the sign-in form, the form for a new
    patient, and the session as it is persisted and read at start-up. *)

(** ** [App]: the default user, navigation and what is rendered
    ([App.tsx], lines 526-543 and 611-633) *)

Definition defaultUserEmail : jsstring := js "doctor@clinic.com".

Definition defaultUser : User :=
  mkUser (js "user_default_doctor") (js "Dr. Clinic") defaultUserEmail
    (js "12345").

(** The updater of the effect run once on mount. *)
Definition seed_default_user (prevUsers : list User) : list User :=
  let userExists :=
    existsb (fun user => bool_decide (u_email user = defaultUserEmail))
      prevUsers in
  if negb userExists then prevUsers ++ [defaultUser] else prevUsers.

Definition ensure_default_user : M unit := setUsers seed_default_user.

Definition handleBackToDashboard : M unit :=
  setSelectedPatientId None;; setView dashboard.

(** What [App] puts on the screen below the header: the sign-in form, the
    dashboard over the patients, the detail view of a patient, or nothing
    ([null]). *)
Inductive Screen : Type :=
| AuthScreen
| DashboardScreen (patients : list Patient)
| DetailScreen (patient : Patient)
| NoScreen.

(** [renderContent], behind the early return of [App] when nobody is
    logged in.  With the detail view asked for and no patient selected it
    goes back to the dashboard and renders nothing this time. *)
Definition renderContent : M Screen :=
  w ← get_world;
  let a := app w in
  if negb (isLoggedIn a) then mret AuthScreen
  else
    match view a with
    | dashboard => mret (DashboardScreen (patients a))
    | patientDetail =>
        match selectedPatient a with
        | Some p => mret (DetailScreen p)
        | None => handleBackToDashboard;; mret NoScreen
        end
    end.

(** The state [PatientDetailView] starts from whenever it mounts (lines
    363-368). *)
Definition PatientDetailView_initial : DetailState :=
  mkDetail false None None None false None.

(** One rendering of [App] as React commits it: [renderContent], and
    then, unless the detail view is on the screen, the state of
    [PatientDetailView] is gone with the view; the next mount starts from
    the initial state. *)
Definition App_render : M Screen :=
  screen ← renderContent;
  match screen with
  | DetailScreen _ => mret screen
  | _ => update_detail (fun _ => PatientDetailView_initial);; mret screen
  end.

(** The world after a successful login. *)
Definition logged_in (w : World) : World :=
  mkWorld (mkApp true (users (app w)) (view (app w)) (patients (app w))
             (selectedPatientId (app w)) (viewingImage (app w)))
    (detail w) (calls w) (ticks w).

(** ** [AuthView] ([App.tsx], lines 91-138) *)

Module AuthView.

Inductive Mode : Type := login | signup.

Record State : Type := mkState {
  authMode : Mode;
  error : option jsstring;
  isLoading : bool
}.

(** The fields read from the form.  The name and the confirmation are
    inputs of the sign-up form only, and are only read in that mode. *)
Record Form : Type := mkForm {
  name : jsstring;
  email : jsstring;
  password : jsstring;
  confirm_password : jsstring
}.

(** [handleSubmit] threads the state of the view beside the world its
    callbacks run in.  The callbacks are awaited outside any [try]: when
    one throws or never settles, the loading flag stays raised. *)
Definition handleSubmit
  (onLogin : jsstring -> jsstring -> M (option jsstring))
  (onSignUp : jsstring -> jsstring -> jsstring -> M (option jsstring))
  (form : Form) (s : State) (w : World) : outcome unit * (State * World) :=
  if isLoading s then (Returned tt, (s, w))
  else
    let s1 := mkState (authMode s) None true in
    let attempt : M (option jsstring) :=
      match authMode s with
      | login => onLogin (email form) (password form)
      | signup =>
          if negb (bool_decide (password form = confirm_password form)) then
            mret (Some (js "Passwords do not match."))
          else if falsy (Some (name form)) then
            mret (Some (js "Full name is required."))
          else onSignUp (name form) (email form) (password form)
      end in
    match attempt w with
    | (Returned errorMessage, w') =>
        let s2 := if falsy errorMessage then s1
                  else mkState (authMode s1) errorMessage (isLoading s1) in
        (Returned tt, (mkState (authMode s2) (error s2) false, w'))
    | (Threw e, w') => (Threw e, (s1, w'))
    | (Pending, w') => (Pending, (s1, w'))
    end.

Definition toggleMode (s : State) : State :=
  mkState (match authMode s with login => signup | signup => login end)
    None (isLoading s).

End AuthView.

(** ** [AddPatientModal] and [DashboardView] ([App.tsx], lines 177-196
    and 262-267) *)

Module AddPatientModal.

Record FormData : Type := mkFormData {
  name : jsstring;
  dob : jsstring;
  patientId : jsstring;
  gender : Gender;
  bloodType : jsstring;
  existingConditions : jsstring
}.

Definition initial : FormData :=
  mkFormData [] [] [] PreferNotToSay [] [].

(** A change event of one of the six inputs: the input's name and its
    value, which for the select is one of its four options. *)
Inductive Change : Type :=
| change_name (value : jsstring)
| change_dob (value : jsstring)
| change_patientId (value : jsstring)
| change_gender (value : Gender)
| change_bloodType (value : jsstring)
| change_existingConditions (value : jsstring).

(** [setFormData(prev => ({ ...prev, [name]: value }))] *)
Definition handleChange (e : Change) (prev : FormData) : FormData :=
  match e with
  | change_name v =>
      mkFormData v (dob prev) (patientId prev) (gender prev) (bloodType prev)
        (existingConditions prev)
  | change_dob v =>
      mkFormData (name prev) v (patientId prev) (gender prev) (bloodType prev)
        (existingConditions prev)
  | change_patientId v =>
      mkFormData (name prev) (dob prev) v (gender prev) (bloodType prev)
        (existingConditions prev)
  | change_gender v =>
      mkFormData (name prev) (dob prev) (patientId prev) v (bloodType prev)
        (existingConditions prev)
  | change_bloodType v =>
      mkFormData (name prev) (dob prev) (patientId prev) (gender prev) v
        (existingConditions prev)
  | change_existingConditions v =>
      mkFormData (name prev) (dob prev) (patientId prev) (gender prev)
        (bloodType prev) v
  end.

(** [formData as Omit<Patient, 'id' | 'lesionImages'>]: every field of the
    form is a property of the data, the empty ones included. *)
Definition as_patient_data (formData : FormData) : PatientData :=
  mkPatientData (Some (patientId formData)) (name formData) (dob formData)
    (Some (gender formData)) (Some (bloodType formData))
    (Some (existingConditions formData)).

(** The click on Save Patient. *)
Definition save (onSave : PatientData -> M unit) (formData : FormData)
  : M unit :=
  handleSave onSave (as_patient_data formData).

End AddPatientModal.

Module DashboardView.

(** [handleSavePatient], beside the [showModal] flag of the dashboard. *)
Definition handleSavePatient (onAddPatient : PatientData -> M unit)
  (data : PatientData) (showModal : bool) (w : World)
  : outcome unit * (bool * World) :=
  match onAddPatient data w with
  | (Returned _, w') => (Returned tt, (false, w'))
  | (Threw e, w') => (Threw e, (showModal, w'))
  | (Pending, w') => (Pending, (showModal, w'))
  end.

(** The Save Patient button of the modal the dashboard shows: the modal's
    [handleSave] with the dashboard's [handleSavePatient] as [onSave]. *)
Definition click_Save (onAddPatient : PatientData -> M unit)
  (formData : AddPatientModal.FormData) (showModal : bool) (w : World)
  : outcome unit * (bool * World) :=
  if negb (falsy (Some (AddPatientModal.name formData)))
     && negb (falsy (Some (AddPatientModal.dob formData)))
  then handleSavePatient onAddPatient
         (AddPatientModal.as_patient_data formData) showModal w
  else (Returned tt, (showModal, w)).

End DashboardView.

(** ** The session across a reload ([App.tsx], lines 519-524 and 545-565) *)

(** The effect on the login flag.  It calls [setItem] outside any [try];
    [None] stands for the error that then escapes. *)
Definition persist_isLoggedIn (isLoggedIn : bool) (st : Storage)
  : option Storage :=
  if isLoggedIn then setItem (js "isLoggedIn") (js "true") st
  else Some (removeItem (js "isLoggedIn") st).

(** The three persistence effects, in the order they are declared. *)
Definition persist (a : AppState) (st : Storage) : option Storage :=
  persist_isLoggedIn (isLoggedIn a)
    (persist_patients (patients a) (persist_users (users a) st)).

(** [!!localStorage.getItem('isLoggedIn')] *)
Definition initial_isLoggedIn (st : Storage) : bool :=
  negb (falsy (getItem (js "isLoggedIn") st)).

Section InitialState.

Variable Date_other : jsval -> Date.

Definition initial_users (st : Storage) : jsval :=
  loadState Date_other (js "users") (VArr []) st.

Definition initial_patients (st : Storage) : jsval :=
  loadState Date_other (js "patients") (val_of_patients initialPatients) st.

End InitialState.

(** Whether the timestamp of every image object of every patient object
    is a [Date]. *)
Definition image_has_Date (img : jsval) : bool :=
  match img with
  | VObj ps =>
      match get_prop (js "timestamp") ps with
      | Some (VDate _) => true
      | _ => false
      end
  | _ => true
  end.

Definition patient_has_Dates (p : jsval) : bool :=
  match p with
  | VObj ps =>
      match get_prop (js "lesionImages") ps with
      | Some (VArr imgs) => forallb image_has_Date imgs
      | _ => true
      end
  | _ => true
  end.

(** ** The confidence badge ([App.tsx], lines 325-360 and 455;
    [components/ResultCard.tsx]) *)

Record Classes : Type := mkClasses {
  c_bg : jsstring;
  c_text : jsstring;
  c_border : jsstring
}.

Section Confidence.

(** What [toLowerCase] returns for a string that holds a code unit outside
    ASCII, which takes the Unicode case tables; and whether the double a
    number lexeme stands for is other than zero. *)
Variable toLowerCase_other : jsstring -> jsstring.
Variable Number_truthy : jsstring -> bool.

Definition lower_unit (c : N) : N :=
  if (65 <=? c) && (c <=? 90) then c + 32 else c.

Definition toLowerCase (s : jsstring) : jsstring :=
  if forallb (fun c => c <? 128) s then List.map lower_unit s
  else toLowerCase_other s.

(** The [switch] both copies of [getConfidenceClasses] share, on the
    lowered string ([None] for [undefined]). *)
Definition classes_of (lowered : option jsstring) : Classes :=
  match lowered with
  | Some l =>
      if jseqb l (js "high") then
        mkClasses (js "bg-success-light") (js "text-success-text")
          (js "border-success")
      else if jseqb l (js "medium") then
        mkClasses (js "bg-warning-light") (js "text-warning-text")
          (js "border-warning")
      else if jseqb l (js "low") then
        mkClasses (js "bg-danger-light") (js "text-danger-text")
          (js "border-danger")
      else
        mkClasses (js "bg-slate-100") (js "text-slate-800")
          (js "border-slate-200")
  | None =>
      mkClasses (js "bg-slate-100") (js "text-slate-800")
        (js "border-slate-200")
  end.

(** The copy in [App.tsx]: [confidence?.toLowerCase()].  The argument is
    a runtime value or [undefined] ([None]); the result is [None] when a
    [TypeError] is thrown, as calling [toLowerCase] on anything but a
    string, [null] or [undefined] does. *)
Definition getConfidenceClasses (confidence : option jsval) : option Classes :=
  match confidence with
  | None | Some VNull => Some (classes_of None)
  | Some (VStr s) => Some (classes_of (Some (toLowerCase s)))
  | Some _ => None
  end.

(** The copy in [ResultCard.tsx]: [confidence.toLowerCase()]. *)
Definition ResultCard_getConfidenceClasses (confidence : option jsval)
  : option Classes :=
  match confidence with
  | Some (VStr s) => Some (classes_of (Some (toLowerCase s)))
  | _ => None
  end.

(** [!!v] *)
Definition truthy (v : jsval) : bool :=
  match v with
  | VNull => false
  | VBool b => b
  | VNum lexeme => Number_truthy lexeme
  | VStr s => negb (bool_decide (s = []))
  | _ => true
  end.

(** [v.confidence] for a value other than [null]: the property of an
    object, [undefined] on anything else. *)
Definition confidence_of (v : jsval) : option jsval :=
  match v with
  | VObj ps => get_prop (js "confidence") ps
  | _ => None
  end.

(** The classes of an item of the image history:
    [getConfidenceClasses(img.analysisResult?.confidence || '')]. *)
Definition history_classes (img : LesionImage) : option Classes :=
  let confidence :=
    match img_analysisResult img with
    | VNull => None
    | result => confidence_of result
    end in
  getConfidenceClasses
    (match confidence with
     | Some c => if truthy c then Some c else Some (VStr [])
     | None => Some (VStr [])
     end).

(** What [AnalysisDetailModal] makes of an image: nothing when the
    analysis result is falsy, otherwise a [ResultCard], whose first step
    is [getConfidenceClasses(result.confidence)].  The outer [None] is a
    [TypeError]. *)
Definition AnalysisDetailModal_classes (image : LesionImage)
  : option (option Classes) :=
  if negb (truthy (img_analysisResult image)) then Some None
  else
    c ← ResultCard_getConfidenceClasses
          (confidence_of (img_analysisResult image));
    Some (Some c).

End Confidence.

(** ** Auxiliary definitions *)

(** What both operations of the client throw without a credential. *)
Definition key_error : thrown :=
  Error (js "API_KEY environment variable is not set.").

(** The world in which the body of [handleCompare] starts: the comparing
    flag raised, the previous result and error cleared. *)
Definition start_compare (w : World) : World :=
  let d := detail w in
  mkWorld (app w)
    (mkDetail (isUploading d) None (compareId1 d) (compareId2 d) true None)
    (calls w) (ticks w).

(** The number a run of decimal digits stands for, read from the left
    with [acc] the value read so far. *)
Definition read_decimal (acc : N) (s : jsstring) : N :=
  fold_left (fun a c => 10 * a + (c - 48)) s acc.

(** ** More sample data *)

(** A second user, and worlds with given users. *)
Definition user_ann : User :=
  mkUser (js "u1700000000000") (js "Ann") (js "ann@clinic.com") (js "s3cret").

Definition world_with_users (us : list User) : World :=
  mkWorld (mkApp false us dashboard initialPatients None None) idle_detail [] 0.

(** Logged in as the default user, with the detail view of patient [p1]
    mounted. *)
Definition world_of_doctor : World :=
  mkWorld (mkApp true [defaultUser] patientDetail initialPatients
             (Some (js "p1")) None) idle_detail [] 0.

Definition auth_idle (m : AuthView.Mode) : AuthView.State :=
  AuthView.mkState m None false.

(** A store holding one text under one key, and a session to persist. *)
Definition store_of (key text : jsstring) : Storage :=
  mkStorage {[ key := text ]} 5000000.

Definition session_of_doctor : AppState :=
  mkApp true [defaultUser; user_ann] patientDetail [patient_Q]
    (Some (js "p7")) None.

(** An environment without a credential. *)
Definition env_without_key : Env :=
  mkEnv None (fun _ => 1700000000000%Z) (fun _ _ => Some sample_dataUrl)
    (fun _ _ => Returned (mkBlob (js "image/png") [137; 80; 78; 71]))
    (fun _ _ => Returned (mkResponse (Some (js "{}")))).

(** An environment whose reader succeeds before interaction [n] and
    fails from it on. *)
Definition env_reading_until (n : nat) : Env :=
  mkEnv (Some (js "key")) (fun _ => 1700000000000%Z)
    (fun i _ => if (i <? n)%nat then Some sample_dataUrl else None)
    (fun _ _ => Returned (mkBlob (js "image/png") [137; 80; 78; 71]))
    (fun _ _ => Returned (mkResponse (Some (js "{}")))).

(** * Properties *)

(** ** Evaluations of the platform model *)

Example toISOString_epoch :
  DateTime.toISOString 0 = js "1970-01-01T00:00:00.000Z".
Proof. reflexivity. Qed.

Example toISOString_sample :
  DateTime.toISOString 1700000000123 = js "2023-11-14T22:13:20.123Z".
Proof. vm_compute. reflexivity. Qed.

Example toISOString_before_epoch :
  DateTime.toISOString (-1) = js "1969-12-31T23:59:59.999Z".
Proof. vm_compute. reflexivity. Qed.

Example toISOString_min :
  DateTime.toISOString (- DateTime.maxTime) = js "-271821-04-20T00:00:00.000Z".
Proof. vm_compute. reflexivity. Qed.

Example toISOString_max :
  DateTime.toISOString DateTime.maxTime = js "+275760-09-13T00:00:00.000Z".
Proof. vm_compute. reflexivity. Qed.

Example toISOString_leap_day :
  DateTime.toISOString 1709164800000 = js "2024-02-29T00:00:00.000Z"
  /\ DateTime.toISOString 951782400000 = js "2000-02-29T00:00:00.000Z"
  /\ DateTime.toISOString (-2203891200000) = js "1900-03-01T00:00:00.000Z".
Proof. vm_compute. repeat split; reflexivity. Qed.

Example toISOString_year_boundaries :
  DateTime.toISOString 253402300799999 = js "9999-12-31T23:59:59.999Z"
  /\ DateTime.toISOString 253402300800000 = js "+010000-01-01T00:00:00.000Z"
  /\ DateTime.toISOString (-62167219200000) = js "0000-01-01T00:00:00.000Z"
  /\ DateTime.toISOString (-62167219200001) = js "-000001-12-31T23:59:59.999Z".
Proof. vm_compute. repeat split; reflexivity. Qed.

Example parse_iso_sample :
  DateTime.parse_iso (js "2023-11-14T22:13:20.123Z") = Some 1700000000123%Z.
Proof. vm_compute. reflexivity. Qed.

Example parse_iso_min :
  DateTime.parse_iso (js "-271821-04-20T00:00:00.000Z") = Some (- DateTime.maxTime)%Z.
Proof. vm_compute. reflexivity. Qed.

Example JSON_parse_empty_object : JSON_parse (js "{}") = Some (VObj []).
Proof. reflexivity. Qed.

Example JSON_parse_nested :
  JSON_parse (jsq " { 'a' : [1, true, null, 'x\nA'], 'b':{'c':-2.5e+3} } ")
  = Some (VObj [(js "a", VArr [VNum (js "1"); VBool true; VNull; VStr [120; 10; 65]]);
                (js "b", VObj [(js "c", VNum (js "-2.5e+3"))])]).
Proof. vm_compute. reflexivity. Qed.

Example JSON_parse_repeated_key :
  JSON_parse (jsq "{'a':1,'b':2,'a':3}")
  = Some (VObj [(js "a", VNum (js "3")); (js "b", VNum (js "2"))]).
Proof. vm_compute. reflexivity. Qed.

Example JSON_parse_garbage : JSON_parse (js "Sorry, I cannot help") = None.
Proof. reflexivity. Qed.

Example JSON_parse_trailing : JSON_parse (js "{} x") = None.
Proof. reflexivity. Qed.

Example JSON_stringify_sample :
  JSON_stringify (VObj [(js "a", VArr [VStr [120; 10; 34]; VNull]); (js "d", VDate (Instant 0))])
  = [123; 34; 97; 34; 58; 91; 34; 120; 92; 110; 92; 34; 34; 44; 110; 117; 108; 108; 93; 44;
     34; 100; 34; 58; 34; 49; 57; 55; 48; 45; 48; 49; 45; 48; 49; 84; 48; 48; 58; 48; 48; 58;
     48; 48; 46; 48; 48; 48; 90; 34; 125].
Proof. vm_compute. reflexivity. Qed.

Ltac unfold_monad :=
  unfold mbind, M_bind, mret, M_ret, throw, never, try_catch, finally,
    get_world, record_call, tick, update_app, update_detail, lift_outcome in *.

(** ** The upload workflow *)

Lemma parse_response_frame message response w r w' :
  parse_response message response w = (r, w') -> w' = w.
Proof.
  unfold parse_response. unfold_monad.
  destruct (response_text response) as [text|]; [destruct (JSON_parse _)|];
    intros [= _ <-]; reflexivity.
Qed.

(** The inference client touches neither the application state nor the
    view state, and makes no call other than its own. *)
Lemma analyzeSkinCondition_frame env file w r w' :
  analyzeSkinCondition env file w = (r, w') ->
  app w' = app w /\ detail w' = detail w
  /\ calls w' = calls w ++ [CallAnalyze file].
Proof.
  unfold analyzeSkinCondition, fileToGenerativePart, ai_generateContent.
  unfold_monad. cbn.
  destruct (falsy (API_KEY env)); [intros [= _ <-]; auto|].
  destruct (readAsDataURL env _ file); [|intros [= _ <-]; auto].
  destruct (generateContent env _ _) as [resp|e|]; cbn;
    [|intros [= _ <-]; auto..].
  intros H. apply parse_response_frame in H. subst w'. auto.
Qed.

(** What the client returns is decided by the response text alone: the
    parsed payload when there is one, the format error otherwise. *)
Lemma parse_response_outcome message response w :
  parse_response message response w
  = (match payload_of response with
     | Some v => Returned v
     | None => Threw (Error message)
     end, w).
Proof.
  unfold parse_response, payload_of. unfold_monad.
  destruct (response_text response) as [text|]; cbn; [|reflexivity].
  destruct (JSON_parse (trim text)); reflexivity.
Qed.

Lemma analyzeSkinCondition_outcome env file w url response :
  falsy (API_KEY env) = false ->
  readAsDataURL env (ticks w) file = Some url ->
  generateContent env (S (ticks w))
    (analysis_request (InlineData (nth_error (split_comma url) 1)
                         (file_type file))) = Returned response ->
  fst (analyzeSkinCondition env file w)
  = match payload_of response with
    | Some v => Returned v
    | None => Threw analysis_format_error
    end.
Proof.
  intros Hk Hr Hg. unfold analyzeSkinCondition, fileToGenerativePart,
    ai_generateContent.
  rewrite Hk. unfold_monad. destruct w as [a d c t].
  cbn in Hr, Hg |- *. rewrite Hr. cbn in Hg |- *. rewrite Hg.
  rewrite parse_response_outcome. reflexivity.
Qed.

(** C1. When the analyze call of an upload throws, the upload ends with
    the uploading flag lowered and the error message surfaced; the only
    call made is the analyze call itself, so the patient update is never
    called, and the application state, hence the images of every patient,
    is what it was. *)
Theorem upload_failed_analysis_adds_no_image env file w patient e w1 :
  mounted_patient (app w) = Some patient ->
  analyzeSkinCondition env file (start_upload w) = (Threw e, w1) ->
  exists w',
    upload env file w = (Returned tt, w')
    /\ isUploading (detail w') = false
    /\ error (detail w')
       = Some (message_or (js "An unknown error occurred.") e)
    /\ calls w' = calls w ++ [CallAnalyze file]
    /\ (forall p, CallUpdatePatient p ∉ drop (length (calls w)) (calls w'))
    /\ app w' = app w
    /\ mounted_patient (app w') = Some patient.
Proof.
  intros Hm Ha.
  destruct (analyzeSkinCondition_frame _ _ _ _ _ Ha) as (Happ & Hdet & Hcalls).
  unfold upload, handleImageUpload.
  unfold mbind at 1, M_bind at 1, get_world at 1. rewrite Hm.
  unfold mbind at 1, M_bind at 1, setIsUploading at 1, update_detail at 1.
  unfold mbind at 1, M_bind at 1, setError at 1, update_detail at 1.
  cbn [app detail calls ticks isUploading error compareId1 compareId2
       isComparing comparisonResult].
  unfold finally, try_catch.
  unfold mbind at 1, M_bind at 1.
  change (mkWorld (app w) _ (calls w) (ticks w)) with (start_upload w).
  rewrite Ha.
  unfold setError, setIsUploading, update_detail. cbn.
  eexists. split; [reflexivity|]. cbn.
  rewrite Hcalls, Happ.
  repeat split; try assumption.
  intros p. rewrite drop_app_length. intros Hin.
  apply list_elem_of_singleton in Hin. discriminate.
Qed.

Lemma upload_failed_analysis_adds_no_image_witness :
  exists w',
    upload (env_answering (js "Sorry, no JSON today")) sample_file
      (world_viewing initialPatients idle_detail) = (Returned tt, w')
    /\ isUploading (detail w') = false
    /\ error (detail w')
       = Some (js "The AI returned an unexpected response format. Please try again.")
    /\ calls w' = [CallAnalyze sample_file]
    /\ (forall p, CallUpdatePatient p ∉ drop 0 (calls w'))
    /\ app w' = app (world_viewing initialPatients idle_detail)
    /\ mounted_patient (app w')
       = Some (mkPatient (js "p1") (Some (js "JD-001")) (js "John Doe")
                 (js "1985-05-23") (Some Male) (Some (js "O+"))
                 (Some (js "None reported")) []).
Proof.
  refine (upload_failed_analysis_adds_no_image
            (env_answering (js "Sorry, no JSON today")) sample_file
            (world_viewing initialPatients idle_detail)
            (mkPatient (js "p1") (Some (js "JD-001")) (js "John Doe")
               (js "1985-05-23") (Some Male) (Some (js "O+"))
               (Some (js "None reported")) [])
            (Error (js "The AI returned an unexpected response format. Please try again."))
            (snd (analyzeSkinCondition
                    (env_answering (js "Sorry, no JSON today")) sample_file
                    (start_upload (world_viewing initialPatients idle_detail))))
            _ _).
  - reflexivity.
  - vm_compute. reflexivity.
Defined.

(** ** The comparison workflow *)

Lemma compareLesions_frame env f1 f2 w r w' :
  compareLesions env f1 f2 w = (r, w') ->
  app w' = app w /\ detail w' = detail w
  /\ calls w' = calls w ++ [CallCompare f1 f2].
Proof.
  unfold compareLesions, fileToGenerativePart, ai_generateContent.
  unfold_monad. cbn.
  destruct (falsy (API_KEY env)); [intros [= _ <-]; auto|].
  destruct (readAsDataURL env _ f1); [|intros [= _ <-]; auto]. cbn.
  destruct (readAsDataURL env _ f2); [|intros [= _ <-]; auto]. cbn.
  destruct (generateContent env _ _) as [resp|e|]; cbn;
    [|intros [= _ <-]; auto..].
  intros H. apply parse_response_frame in H. subst w'. auto.
Qed.

Lemma file_of_image_handle env prefix image w :
  file_of_image env prefix image w
  = (binary_handle env (ticks w) prefix image,
     mkWorld (app w) (detail w) (calls w) (decode_steps image + ticks w)).
Proof.
  unfold file_of_image, binary_handle, decode_steps, dataUrlToFile.
  unfold_monad.
  destruct w as [a d c t]; cbn.
  destruct (img_file image); [reflexivity|].
  destruct (fetch_blob env t _) eqn:E; cbn; rewrite E; reflexivity.
Qed.

(** C3. With two selected ids found among the patient's images, and a
    handle obtained for each (the live file, else the file decoded from the
    payload), the one call the comparison makes to the inference client is
    [compareLesions] on the first-selected handle and then the
    second-selected one; timestamps play no part. *)
Theorem handleCompare_passes_handles_in_selection_order
  env patient w id1 id2 image1 image2 file1 file2 :
  compareId1 (detail w) = Some id1 ->
  compareId2 (detail w) = Some id2 ->
  id1 <> [] -> id2 <> [] ->
  find_image patient (Some id1) = Some image1 ->
  find_image patient (Some id2) = Some image2 ->
  binary_handle env (ticks w) "img1_" image1 = Returned file1 ->
  binary_handle env (decode_steps image1 + ticks w) "img2_" image2
    = Returned file2 ->
  calls (snd (handleCompare env patient w))
  = calls w ++ [CallCompare file1 file2].
Proof.
  intros H1 H2 Hn1 Hn2 Hf1 Hf2 Hb1 Hb2.
  unfold handleCompare.
  unfold mbind at 1, M_bind at 1, get_world at 1.
  rewrite H1, H2, Hf1, Hf2.
  replace (falsy (Some id1)) with false by (destruct id1; cbn; congruence).
  replace (falsy (Some id2)) with false by (destruct id2; cbn; congruence).
  cbn [orb].
  unfold setIsComparing, setComparisonResult, setError, update_detail.
  unfold mbind at 1, M_bind at 1. unfold mbind at 1, M_bind at 1.
  unfold mbind at 1, M_bind at 1.
  cbn [app detail calls ticks isUploading error compareId1 compareId2
       isComparing comparisonResult].
  unfold finally, try_catch.
  unfold mbind at 1, M_bind at 1.
  rewrite file_of_image_handle.
  cbn [app detail calls ticks]. rewrite Hb1.
  unfold mbind at 1, M_bind at 1.
  rewrite file_of_image_handle.
  cbn [app detail calls ticks]. rewrite Hb2.
  unfold mbind at 1, M_bind at 1.
  match goal with |- context [compareLesions env file1 file2 ?w0] =>
    destruct (compareLesions env file1 file2 w0) as [r w'] eqn:Hc
  end.
  apply compareLesions_frame in Hc. destruct Hc as (_ & _ & Hc). cbn in Hc.
  destruct r; cbn; exact Hc.
Qed.

Lemma handleCompare_passes_handles_in_selection_order_witness :
  calls (snd (handleCompare (env_answering (js "{}")) patient_P
                (world_viewing [patient_P] (selecting "img_100" "img_200"))))
  = [] ++ [CallCompare decoded_100 sample_file].
Proof.
  refine (handleCompare_passes_handles_in_selection_order
            (env_answering (js "{}")) patient_P
            (world_viewing [patient_P] (selecting "img_100" "img_200"))
            (js "img_100") (js "img_200") image_100 image_200
            decoded_100 sample_file _ _ _ _ _ _ _ _);
    solve [reflexivity | discriminate].
Defined.

(** [handleCompare] itself does not compare the two ids: reached with the
    same id twice, it would hand the same image to the client as both
    before and after.  The rejection is the button's. *)
Example handleCompare_same_id_unguarded :
  calls (snd (handleCompare (env_answering (js "{}")) patient_P
                (world_viewing [patient_P] (selecting "img_200" "img_200"))))
  = [CallCompare sample_file sample_file].
Proof. vm_compute. reflexivity. Qed.

(** C5. When the two selected ids are equal the Compare button is
    disabled, the notice asking for two different images is shown, and a
    click changes nothing: no call reaches the inference client. *)
Theorem same_image_selection_is_rejected env patient w i :
  compareId1 (detail w) = Some i ->
  compareId2 (detail w) = Some i ->
  i <> [] ->
  compare_disabled (detail w) = true
  /\ same_image_notice (detail w) = true
  /\ click_Compare env patient w = (Returned tt, w).
Proof.
  intros H1 H2 Hi.
  assert (Hd : compare_disabled (detail w) = true).
  { unfold compare_disabled. rewrite H1, H2.
    rewrite bool_decide_eq_true_2 by reflexivity.
    apply orb_true_r. }
  split; [exact Hd|]. split.
  - unfold same_image_notice. rewrite H1, H2.
    rewrite bool_decide_eq_true_2 by reflexivity.
    destruct i; [congruence|reflexivity].
  - unfold click_Compare. unfold_monad. rewrite Hd. reflexivity.
Qed.

Lemma same_image_selection_is_rejected_witness :
  compare_disabled (selecting "img_200" "img_200") = true
  /\ same_image_notice (selecting "img_200" "img_200") = true
  /\ click_Compare (env_answering (js "{}")) patient_P
       (world_viewing [patient_P] (selecting "img_200" "img_200"))
     = (Returned tt, world_viewing [patient_P] (selecting "img_200" "img_200")).
Proof.
  refine (same_image_selection_is_rejected (env_answering (js "{}")) patient_P
            (world_viewing [patient_P] (selecting "img_200" "img_200"))
            (js "img_200") _ _ _);
    solve [reflexivity | discriminate].
Defined.

(** ** Patient updates *)

Lemma replace_patient_no_match updated prev :
  Forall (fun p => p_id p <> p_id updated) prev ->
  replace_patient updated prev = prev.
Proof.
  induction 1 as [|p prev Hp _ IH]; [reflexivity|].
  cbn. rewrite bool_decide_eq_false_2 by exact Hp.
  f_equal. exact IH.
Qed.

Lemma replace_patient_lookup updated prev (i : nat) :
  replace_patient updated prev !! i
  = (fun p => if bool_decide (p_id p = p_id updated) then updated else p)
      <$> prev !! i.
Proof. unfold replace_patient. apply (list_lookup_fmap _ prev i). Qed.

(** The claim C6 makes does not hold: an update whose id matches no
    patient returns normally, with the collection as it was. *)
Lemma handleUpdatePatient_unknown_id_returns :
  let ghost := mkPatient (js "p9") None (js "Nobody") (js "2001-01-01")
                 None None None [] in
  let w := world_viewing initialPatients idle_detail in
  Forall (fun p => p_id p <> p_id ghost) (patients (app w))
  /\ fst (handleUpdatePatient ghost w) = Returned tt
  /\ ~ (exists e, fst (handleUpdatePatient ghost w) = Threw e)
  /\ patients (app (snd (handleUpdatePatient ghost w))) = initialPatients.
Proof.
  cbn zeta. split; [|split; [|split]].
  - repeat constructor; discriminate.
  - reflexivity.
  - intros [e He]. discriminate He.
  - reflexivity.
Qed.

(** C6, amended. An update whose id matches no patient raises no error
    and leaves the whole application state unchanged. *)
Theorem handleUpdatePatient_unknown_id_is_noop updated w :
  Forall (fun p => p_id p <> p_id updated) (patients (app w)) ->
  handleUpdatePatient updated w
  = (Returned tt,
     mkWorld (app w) (detail w) (calls w ++ [CallUpdatePatient updated])
       (ticks w)).
Proof.
  intros H. unfold handleUpdatePatient, setPatients. unfold_monad. cbn.
  rewrite (replace_patient_no_match _ _ H).
  destruct w as [[] ? ? ?]; reflexivity.
Qed.

Lemma handleUpdatePatient_unknown_id_is_noop_witness :
  handleUpdatePatient
    (mkPatient (js "p9") None (js "Nobody") (js "2001-01-01") None None None [])
    (world_viewing initialPatients idle_detail)
  = (Returned tt,
     mkWorld (app (world_viewing initialPatients idle_detail)) idle_detail
       ([] ++ [CallUpdatePatient
                 (mkPatient (js "p9") None (js "Nobody") (js "2001-01-01")
                    None None None [])])
       0).
Proof.
  refine (handleUpdatePatient_unknown_id_is_noop
            (mkPatient (js "p9") None (js "Nobody") (js "2001-01-01")
               None None None [])
            (world_viewing initialPatients idle_detail) _).
  repeat constructor; discriminate.
Defined.

(** C9. A patient update always returns; it keeps the length of the
    collection, puts the updated patient at each position whose patient
    has its id, leaves every other position as it was, touches nothing
    else in the application state and, when no id matches, leaves the
    collection unchanged. *)
Theorem handleUpdatePatient_replaces_only_matching_id updated w :
  exists w',
    handleUpdatePatient updated w = (Returned tt, w')
    /\ length (patients (app w')) = length (patients (app w))
    /\ (forall (i : nat) p, patients (app w) !! i = Some p ->
          p_id p <> p_id updated -> patients (app w') !! i = Some p)
    /\ (forall (i : nat) p, patients (app w) !! i = Some p ->
          p_id p = p_id updated -> patients (app w') !! i = Some updated)
    /\ (Forall (fun p => p_id p <> p_id updated) (patients (app w)) ->
        patients (app w') = patients (app w))
    /\ (isLoggedIn (app w'), users (app w'), view (app w'),
        selectedPatientId (app w'), viewingImage (app w'))
       = (isLoggedIn (app w), users (app w), view (app w),
          selectedPatientId (app w), viewingImage (app w))
    /\ detail w' = detail w.
Proof.
  eexists. split; [reflexivity|]. cbn.
  split; [apply length_map|].
  split; [|split; [|split; [|split; reflexivity]]].
  - intros i p Hi Hne. rewrite replace_patient_lookup, Hi. cbn.
    rewrite bool_decide_eq_false_2 by exact Hne. reflexivity.
  - intros i p Hi He. rewrite replace_patient_lookup, Hi. cbn.
    rewrite bool_decide_eq_true_2 by exact He. reflexivity.
  - apply replace_patient_no_match.
Qed.

(** ** Ids made of clock readings *)

(** [Number.prototype.toString] on integers is one to one. *)
Lemma digits_fuel_read fuel : forall n acc,
  n < 2 ^ N.of_nat fuel ->
  read_decimal 0 (digits_fuel fuel n acc) = read_decimal n acc.
Proof.
  induction fuel as [|fuel IH]; intros n acc Hn.
  - change (2 ^ N.of_nat 0) with 1 in Hn. assert (n = 0) by lia. subst n.
    reflexivity.
  - cbn [digits_fuel].
    assert (Hstep : 10 * (n / 10) + (48 + n mod 10 - 48) = n).
    { rewrite (N.add_comm 48), N.add_sub. symmetry. apply N.div_mod. lia. }
    destruct (n / 10 =? 0) eqn:E.
    + apply N.eqb_eq in E. unfold read_decimal. cbn [fold_left].
      f_equal. rewrite E in Hstep. exact Hstep.
    + rewrite IH.
      * unfold read_decimal. cbn [fold_left]. f_equal. exact Hstep.
      * rewrite Nat2N.inj_succ, N.pow_succ_r' in Hn.
        apply N.Div0.div_lt_upper_bound. lia.
Qed.

Lemma read_decimal_decimal n : read_decimal 0 (decimal n) = n.
Proof.
  unfold decimal. rewrite digits_fuel_read; [reflexivity|].
  rewrite Nat2N.inj_succ, N2Nat.id.
  destruct n as [|p]; [reflexivity|].
  apply N.log2_spec. lia.
Qed.

Lemma decimal_inj a b : decimal a = decimal b -> a = b.
Proof.
  intros H. rewrite <- (read_decimal_decimal a), <- (read_decimal_decimal b), H.
  reflexivity.
Qed.

Lemma digits_fuel_head fuel : forall n acc c t,
  (forall c' t', acc = c' :: t' -> 48 <= c') ->
  digits_fuel fuel n acc = c :: t -> 48 <= c.
Proof.
  induction fuel as [|fuel IH]; intros n acc c t Hacc.
  - cbn [digits_fuel]. apply Hacc.
  - cbn [digits_fuel]. destruct (n / 10 =? 0).
    + intros [= <- _]. apply N.le_add_r.
    + apply IH. intros c' t' [= <- _]. apply N.le_add_r.
Qed.

Lemma digits_fuel_nonempty fuel : forall n acc,
  acc <> [] \/ fuel <> O -> digits_fuel fuel n acc <> [].
Proof.
  induction fuel as [|fuel IH]; intros n acc H.
  - cbn [digits_fuel]. destruct H as [H|H]; [exact H|congruence].
  - cbn [digits_fuel]. destruct (n / 10 =? 0); [discriminate|].
    apply IH. left. discriminate.
Qed.

Lemma decimal_head n : exists c t, decimal n = c :: t /\ 48 <= c.
Proof.
  unfold decimal.
  destruct (digits_fuel (S (N.to_nat (N.log2 n))) n []) as [|c t] eqn:E.
  - exfalso. revert E. apply digits_fuel_nonempty. right. discriminate.
  - exists c, t. split; [reflexivity|].
    apply (digits_fuel_head _ _ _ _ _ (fun c' t' (H : [] = c' :: t') =>
             match H with end) E).
Qed.

Lemma decimal_not_minus n t : decimal n <> 45 :: t.
Proof.
  destruct (decimal_head n) as (c & t' & -> & Hc). intros [= -> _].
  revert Hc. clear. intros H. apply N.leb_le in H. discriminate.
Qed.

Lemma Number_toString_inj a b :
  Number_toString a = Number_toString b -> a = b.
Proof.
  unfold Number_toString.
  destruct a as [|p|p], b as [|q|q]; intros H;
    try reflexivity;
    try (apply decimal_not_minus in H; destruct H);
    try (symmetry in H; apply decimal_not_minus in H; destruct H).
  - apply decimal_inj in H. discriminate.
  - apply decimal_inj in H. discriminate.
  - apply decimal_inj in H. cbn in H. congruence.
  - injection H as H. apply decimal_inj in H. congruence.
Qed.

(** ** Adding a patient *)

(** The claim C7 makes does not hold: two patients saved within the same
    millisecond of the clock receive the same id. *)
Lemma handleAddPatient_same_millisecond_same_id :
  let env := env_answering (js "{}") in
  let w0 := world_viewing initialPatients idle_detail in
  let w1 := snd (handleSave (handleAddPatient env) data_A w0) in
  let w2 := snd (handleSave (handleAddPatient env) data_B w1) in
  List.map p_id (patients (app w1)) = [js "p1700000000000"; js "p1"; js "p2"]
  /\ List.map p_id (patients (app w2))
     = [js "p1700000000000"; js "p1700000000000"; js "p1"; js "p2"]
  /\ ~ NoDup (List.map p_id (patients (app w2))).
Proof.
  cbn zeta. split; [vm_compute; reflexivity|].
  split; [vm_compute; reflexivity|].
  intros H.
  replace (List.map p_id _) with
    [js "p1700000000000"; js "p1700000000000"; js "p1"; js "p2"] in H
    by (vm_compute; reflexivity).
  apply NoDup_cons_1_1 in H. apply H. left.
Qed.

(** C7, amended. Saving a patient with a name and a date of birth puts
    a new patient, with that data, no image and the id made of the letter p
    and the clock reading, in front of the previous patients, which follow
    in their order; this holds whatever ids the previous patients have.
    The new id is the id of a previous patient whose id is the letter p and
    a reading exactly when the clock reads that value again; and ids that
    were all different stay all different exactly when no previous patient
    has the new id. *)
Theorem handleAddPatient_prepends_fresh env data w :
  d_name data <> [] -> d_dob data <> [] ->
  exists newPatient w',
    handleSave (handleAddPatient env) data w = (Returned tt, w')
    /\ patients (app w') = newPatient :: patients (app w)
    /\ p_id newPatient = (js "p" ++ Number_toString (clock env (ticks w)))
    /\ p_name newPatient = d_name data /\ p_dob newPatient = d_dob data
    /\ p_lesionImages newPatient = []
    /\ (forall q t,
          In q (patients (app w)) ->
          p_id q = (js "p" ++ Number_toString t) ->
          (p_id q = p_id newPatient <-> t = clock env (ticks w)))
    /\ (NoDup (List.map p_id (patients (app w))) ->
        (NoDup (List.map p_id (patients (app w')))
         <-> Forall (fun q => p_id q <> p_id newPatient) (patients (app w)))).
Proof.
  intros Hn Hd.
  unfold handleSave.
  replace (falsy (Some (d_name data))) with false
    by (destruct (d_name data); cbn; congruence).
  replace (falsy (Some (d_dob data))) with false
    by (destruct (d_dob data); cbn; congruence).
  cbn [negb andb].
  exists (mkPatient (js "p" ++ Number_toString (clock env (ticks w)))
            (d_patientId data) (d_name data) (d_dob data) (d_gender data)
            (d_bloodType data) (d_existingConditions data) []).
  exists (snd (handleAddPatient env data w)).
  split; [reflexivity|]. split; [reflexivity|].
  cbn [p_id p_name p_dob p_lesionImages].
  split; [reflexivity|]. split; [reflexivity|]. split; [reflexivity|].
  split; [reflexivity|]. split.
  - intros q t _ Hq. rewrite Hq. split.
    + intros H. apply app_inv_head in H. apply Number_toString_inj in H.
      exact H.
    + intros ->. reflexivity.
  - intros Hnd.
    change (patients (app (snd (handleAddPatient env data w))))
      with (mkPatient (js "p" ++ Number_toString (clock env (ticks w)))
              (d_patientId data) (d_name data) (d_dob data) (d_gender data)
              (d_bloodType data) (d_existingConditions data) []
            :: patients (app w)).
    cbn [List.map p_id]. rewrite NoDup_cons. split.
    + intros [Hnotin _]. apply List.Forall_forall. intros q Hq Heq.
      apply Hnotin. apply list_elem_of_fmap. exists q.
      split; [symmetry; exact Heq|apply list_elem_of_In; exact Hq].
    + intros Hall. split; [|exact Hnd].
      intros Hin. apply list_elem_of_fmap in Hin.
      destruct Hin as (q & Hq & Hin).
      rewrite List.Forall_forall in Hall.
      apply (Hall q); [apply list_elem_of_In; exact Hin|symmetry; exact Hq].
Qed.

Lemma handleAddPatient_prepends_fresh_witness :
  exists newPatient w',
    handleSave (handleAddPatient (env_answering (js "{}"))) data_A
      (world_viewing initialPatients idle_detail) = (Returned tt, w')
    /\ patients (app w') = newPatient :: initialPatients
    /\ p_id newPatient = (js "p" ++ Number_toString 1700000000000)
    /\ p_name newPatient = js "Ada" /\ p_dob newPatient = js "1990-01-01"
    /\ p_lesionImages newPatient = []
    /\ (forall q t,
          In q initialPatients ->
          p_id q = (js "p" ++ Number_toString t) ->
          (p_id q = p_id newPatient <-> t = 1700000000000%Z))
    /\ (NoDup (List.map p_id initialPatients) ->
        (NoDup (List.map p_id (patients (app w')))
         <-> Forall (fun q => p_id q <> p_id newPatient) initialPatients)).
Proof.
  refine (handleAddPatient_prepends_fresh (env_answering (js "{}")) data_A
            (world_viewing initialPatients idle_detail) _ _).
  - discriminate.
  - discriminate.
Defined.

(** ** Signing up *)

Lemma find_none_Forall {A} (f : A -> bool) (l : list A) :
  Forall (fun x => f x = false) l -> List.find f l = None.
Proof.
  induction 1 as [|x l Hx _ IH]; [reflexivity|]. cbn. rewrite Hx. exact IH.
Qed.

Lemma find_some_Exists {A} (f : A -> bool) (l : list A) :
  Exists (fun x => f x = true) l -> exists x, List.find f l = Some x.
Proof.
  induction 1 as [x l Hx|x l _ IH]; cbn.
  - rewrite Hx. eauto.
  - destruct (f x); eauto.
Qed.

(** C10. A sign-up with an email that no user has returns no error, adds
    exactly one user, last, with the given name, email and password, and
    sets the logged-in flag; with an email some user already has it returns
    the error message and leaves the whole world as it was. *)
Theorem handleSignUp_appends_and_logs_in env name email password w :
  (Forall (fun u => u_email u <> email) (users (app w)) ->
   exists newUser w',
     handleSignUp env name email password w = (Returned None, w')
     /\ users (app w') = users (app w) ++ [newUser]
     /\ (u_name newUser, u_email newUser, u_password newUser)
        = (name, email, password)
     /\ u_id newUser = (js "u" ++ Number_toString (clock env (ticks w)))
     /\ isLoggedIn (app w') = true
     /\ patients (app w') = patients (app w))
  /\ (Exists (fun u => u_email u = email) (users (app w)) ->
      handleSignUp env name email password w
      = (Returned (Some (js "An account with this email already exists.")), w)).
Proof.
  split.
  - intros H. unfold handleSignUp.
    unfold mbind at 1, M_bind at 1, get_world at 1.
    rewrite find_none_Forall.
    + do 2 eexists. split; [reflexivity|]. cbn. repeat split.
    + eapply Forall_impl; [exact H|]. cbn. intros u Hu.
      apply bool_decide_eq_false_2. exact Hu.
  - intros H. unfold handleSignUp.
    unfold mbind at 1, M_bind at 1, get_world at 1.
    destruct (find_some_Exists
                (fun u => bool_decide (u_email u = email)) (users (app w)))
      as [u Hu].
    + eapply Exists_impl; [exact H|]. cbn. intros u Hu.
      apply bool_decide_eq_true_2. exact Hu.
    + rewrite Hu. reflexivity.
Qed.

(** ** The order of a patient's images *)

Lemma find_replace_patient sel updated prev p :
  List.find (fun q => bool_decide (Some (p_id q) = sel)) prev = Some p ->
  p_id updated = p_id p ->
  List.find (fun q => bool_decide (Some (p_id q) = sel))
    (replace_patient updated prev) = Some updated.
Proof.
  intros Hfind Hid. induction prev as [|q prev IH]; [discriminate|].
  cbn in *. destruct (bool_decide (Some (p_id q) = sel)) eqn:Hq.
  - injection Hfind as ->. apply bool_decide_eq_true_1 in Hq.
    rewrite (bool_decide_eq_true_2 (p_id p = p_id updated))
      by (symmetry; exact Hid).
    rewrite bool_decide_eq_true_2 by (rewrite Hid; exact Hq).
    reflexivity.
  - specialize (IH Hfind).
    assert (Hp : Some (p_id p) = sel).
    { apply find_some in Hfind. destruct Hfind as [_ Hp].
      apply bool_decide_eq_true_1 in Hp. exact Hp. }
    apply bool_decide_eq_false_1 in Hq.
    rewrite (bool_decide_eq_false_2 (p_id q = p_id updated))
      by (rewrite Hid; congruence).
    rewrite bool_decide_eq_false_2 by exact Hq.
    exact IH.
Qed.

Lemma append_step image w patient :
  mounted_patient (app w) = Some patient ->
  exists w',
    append image w = (Returned tt, w')
    /\ mounted_patient (app w')
       = Some (with_lesionImages patient (image :: p_lesionImages patient)).
Proof.
  intros Hm. unfold append, appendImage, handleUpdatePatient, setPatients.
  unfold_monad. rewrite Hm. cbn.
  eexists. split; [reflexivity|]. cbn.
  unfold mounted_patient, selectedPatient in *. cbn.
  destruct (isLoggedIn (app w)); [|discriminate].
  destruct (view (app w)); [discriminate|].
  apply (find_replace_patient _ _ _ patient Hm). reflexivity.
Qed.






(** A successful upload is one such merge step, of the image built from
    the file, its data URL, the analysis result and two clock readings. *)
Lemma upload_success env file w patient result w1 url w2 :
  mounted_patient (app w) = Some patient ->
  analyzeSkinCondition env file (start_upload w) = (Returned result, w1) ->
  fileToDataUrl env file w1 = (Returned url, w2) ->
  let image :=
    mkLesionImage (js "img_" ++ Number_toString (clock env (ticks w2))) url
      (Some file) result (Instant (clock env (S (ticks w2)))) in
  exists w',
    upload env file w = (Returned tt, w')
    /\ app w' = app (snd (append image w))
    /\ isUploading (detail w') = false /\ error (detail w') = None
    /\ calls w'
       = calls w ++ [CallAnalyze file;
                     CallUpdatePatient
                       (with_lesionImages patient
                          (image :: p_lesionImages patient))].
Proof.
  intros Hm Ha Hf image.
  destruct (analyzeSkinCondition_frame _ _ _ _ _ Ha) as (Happ & Hdet & Hcalls).
  assert (Hw2 : app w2 = app w1 /\ detail w2 = detail w1 /\ calls w2 = calls w1).
  { revert Hf. unfold fileToDataUrl. unfold_monad. cbn.
    destruct (readAsDataURL env _ file); intros [= _ <-]; auto. }
  destruct Hw2 as (Happ2 & Hdet2 & Hcalls2).
  unfold upload, handleImageUpload.
  unfold mbind at 1, M_bind at 1, get_world at 1. rewrite Hm.
  unfold mbind at 1, M_bind at 1, setIsUploading at 1, update_detail at 1.
  unfold mbind at 1, M_bind at 1, setError at 1, update_detail at 1.
  cbn [app detail calls ticks isUploading error compareId1 compareId2
       isComparing comparisonResult].
  unfold finally, try_catch.
  unfold mbind at 1, M_bind at 1.
  change (mkWorld (app w) _ (calls w) (ticks w)) with (start_upload w).
  rewrite Ha.
  unfold mbind at 1, M_bind at 1. rewrite Hf.
  unfold Date_now, appendImage, handleUpdatePatient, setPatients,
    setIsUploading, append.
  unfold_monad. cbn. rewrite Hm. cbn.
  eexists. split; [reflexivity|]. cbn.
  rewrite Happ2, Happ, Hdet2, Hdet, Hcalls2, Hcalls. cbn.
  rewrite <- app_assoc. repeat split.
Qed.

(** X26. So a run of uploads that all succeed leaves the image of the
    last file first and those of the earlier files behind it, latest
    first. *)
Lemma upload_all_reverse_insertion_order env files :
  falsy (API_KEY env) = false ->
  (forall i f, readAsDataURL env i f <> None) ->
  (forall i req, exists response,
      generateContent env i req = Returned response
      /\ payload_of response <> None) ->
  forall w patient,
    mounted_patient (app w) = Some patient ->
    exists images w',
      upload_all env files w = (Returned tt, w')
      /\ List.map img_file images = List.map Some files
      /\ mounted_patient (app w')
         = Some (patient_holding patient
                   (rev images ++ p_lesionImages patient)).
Proof.
  intros Hk Hr Hg.
  induction files as [|file rest IH]; intros w patient Hm.
  - exists [], w. split; [reflexivity|]. split; [reflexivity|].
    rewrite Hm. destruct patient; reflexivity.
  - destruct (analyzeSkinCondition env file (start_upload w)) as [o w1] eqn:Ha.
    destruct (readAsDataURL env (ticks (start_upload w)) file) as [url|] eqn:Hu;
      [|destruct (Hr _ _ Hu)].
    destruct (Hg (S (ticks (start_upload w)))
                (analysis_request
                   (InlineData (nth_error (split_comma url) 1)
                      (file_type file)))) as (response & Hresp & Hpay).
    pose proof (analyzeSkinCondition_outcome env file (start_upload w) url
                  response Hk Hu Hresp) as Ho.
    rewrite Ha in Ho. cbn [fst] in Ho.
    destruct (payload_of response) as [result|]; [|congruence]. subst o.
    destruct (readAsDataURL env (ticks w1) file) as [url2|] eqn:Hu2;
      [|destruct (Hr _ _ Hu2)].
    assert (Hf : fileToDataUrl env file w1
                 = (Returned url2,
                    mkWorld (app w1) (detail w1) (calls w1) (S (ticks w1)))).
    { unfold fileToDataUrl. unfold_monad. cbn. rewrite Hu2. reflexivity. }
    destruct (upload_success env file w patient result w1 url2 _ Hm Ha Hf)
      as (w2 & Hup & Happ & _).
    cbn [ticks] in Hup, Happ.
    set (image := mkLesionImage
                    (js "img_" ++ Number_toString (clock env (S (ticks w1))))
                    url2 (Some file) result
                    (Instant (clock env (S (S (ticks w1)))))) in *.
    destruct (append_step image w patient Hm) as (w3 & Hap & Hm3).
    rewrite Hap in Happ. cbn [snd] in Happ. rewrite <- Happ in Hm3.
    destruct (IH w2 _ Hm3) as (images & w' & Hrun & Hfiles & Hm').
    exists (image :: images), w'. split; [|split].
    + cbn [upload_all]. unfold mbind, M_bind. rewrite Hup. exact Hrun.
    + cbn [List.map]. rewrite Hfiles. reflexivity.
    + rewrite Hm'. cbn. rewrite <- app_assoc. reflexivity.
Qed.

(** Uploads that overlap are not such a sequence: both handlers were
    created by the same render and hold the same [patient], so the second
    to finish puts its image in front of the images of that render, and
    the image merged in between is gone. *)
Example overlapping_uploads_keep_the_last_only :
  let env := env_ticking (js "{}") in
  let w0 := world_viewing [patient_P] idle_detail in
  let w1 := snd (handleImageUpload env patient_P handleUpdatePatient sample_file w0) in
  let w2 := snd (handleImageUpload env patient_P handleUpdatePatient sample_file w1) in
  List.map (fun p => List.map img_id (p_lesionImages p)) (patients (app w1))
  = [[js "img_1700000000003"; js "img_200"; js "img_100"]]
  /\ List.map (fun p => List.map img_id (p_lesionImages p)) (patients (app w2))
     = [[js "img_1700000000008"; js "img_200"; js "img_100"]].
Proof. vm_compute. split; reflexivity. Qed.

(** ** The response format *)

Lemma compareLesions_outcome env f1 f2 w url1 url2 response :
  falsy (API_KEY env) = false ->
  readAsDataURL env (ticks w) f1 = Some url1 ->
  readAsDataURL env (S (ticks w)) f2 = Some url2 ->
  generateContent env (S (S (ticks w)))
    (comparison_request
       (InlineData (nth_error (split_comma url1) 1) (file_type f1))
       (InlineData (nth_error (split_comma url2) 1) (file_type f2)))
  = Returned response ->
  fst (compareLesions env f1 f2 w)
  = match payload_of response with
    | Some v => Returned v
    | None => Threw comparison_format_error
    end.
Proof.
  intros Hk Hr1 Hr2 Hg. unfold compareLesions, fileToGenerativePart,
    ai_generateContent.
  rewrite Hk. unfold_monad. destruct w as [a d c t].
  cbn in Hr1, Hr2, Hg |- *. rewrite Hr1. cbn. rewrite Hr2. cbn.
  rewrite Hg. rewrite parse_response_outcome. reflexivity.
Qed.

(** The claim C4 makes does not hold: the text of an empty object parses,
    lacks every required field of both schemas, and is returned by both
    operations without any failure. *)
Lemma empty_object_response_is_accepted :
  let env := env_answering (js "{}") in
  let w := world_viewing initialPatients idle_detail in
  payload_of (mkResponse (Some (js "{}"))) = Some (VObj [])
  /\ has_required_fields analysisSchema (VObj []) = false
  /\ has_required_fields comparisonSchema (VObj []) = false
  /\ fst (analyzeSkinCondition env sample_file w) = Returned (VObj [])
  /\ fst (compareLesions env sample_file sample_file w) = Returned (VObj []).
Proof. vm_compute. repeat split; reflexivity. Qed.

(** C4, amended. Once the service has answered, each operation fails,
    with its format error, exactly when the response carries no text or the
    trimmed text is not JSON; a text that parses is returned as parsed,
    whatever fields it has. *)
Theorem response_rejected_iff_unparseable env file f1 f2 w response :
  falsy (API_KEY env) = false ->
  (forall i f, readAsDataURL env i f <> None) ->
  (forall i req, generateContent env i req = Returned response) ->
  (fst (analyzeSkinCondition env file w) = Threw analysis_format_error
   <-> payload_of response = None)
  /\ (fst (compareLesions env f1 f2 w) = Threw comparison_format_error
      <-> payload_of response = None)
  /\ (forall v, payload_of response = Some v ->
        fst (analyzeSkinCondition env file w) = Returned v
        /\ fst (compareLesions env f1 f2 w) = Returned v).
Proof.
  intros Hk Hr Hg.
  destruct (readAsDataURL env (ticks w) file) as [url|] eqn:Hu;
    [|destruct (Hr _ _ Hu)].
  destruct (readAsDataURL env (ticks w) f1) as [url1|] eqn:Hu1;
    [|destruct (Hr _ _ Hu1)].
  destruct (readAsDataURL env (S (ticks w)) f2) as [url2|] eqn:Hu2;
    [|destruct (Hr _ _ Hu2)].
  rewrite (analyzeSkinCondition_outcome env file w url response Hk Hu (Hg _ _)).
  rewrite (compareLesions_outcome env f1 f2 w url1 url2 response Hk Hu1 Hu2
             (Hg _ _)).
  destruct (payload_of response) as [v|].
  - split; [split; discriminate|]. split; [split; discriminate|].
    intros v' [= <-]. split; reflexivity.
  - split; [split; reflexivity|]. split; [split; reflexivity|].
    intros v' [=].
Qed.

Lemma response_rejected_iff_unparseable_witness :
  (fst (analyzeSkinCondition (env_answering (js "Sorry, no JSON today"))
          sample_file (world_viewing initialPatients idle_detail))
   = Threw analysis_format_error
   <-> payload_of (mkResponse (Some (js "Sorry, no JSON today"))) = None)
  /\ (fst (compareLesions (env_answering (js "Sorry, no JSON today"))
             sample_file sample_file (world_viewing initialPatients idle_detail))
      = Threw comparison_format_error
      <-> payload_of (mkResponse (Some (js "Sorry, no JSON today"))) = None)
  /\ (forall v,
        payload_of (mkResponse (Some (js "Sorry, no JSON today"))) = Some v ->
        fst (analyzeSkinCondition (env_answering (js "Sorry, no JSON today"))
               sample_file (world_viewing initialPatients idle_detail))
        = Returned v
        /\ fst (compareLesions (env_answering (js "Sorry, no JSON today"))
                  sample_file sample_file
                  (world_viewing initialPatients idle_detail))
           = Returned v).
Proof.
  refine (response_rejected_iff_unparseable
            (env_answering (js "Sorry, no JSON today")) sample_file sample_file
            sample_file (world_viewing initialPatients idle_detail)
            (mkResponse (Some (js "Sorry, no JSON today"))) _ _ _).
  - reflexivity.
  - intros i f. discriminate.
  - intros i req. reflexivity.
Defined.

(** ** The fuel of [JSON.parse] *)

Lemma skip_ws_length s : (length (skip_ws s) <= length s)%nat.
Proof.
  induction s as [|c t IH]; [reflexivity|].
  cbn [skip_ws]. destruct (is_json_ws c); cbn [length]; lia.
Qed.

Lemma skip_ws_cons s c t :
  skip_ws s = c :: t -> (length t < length s)%nat.
Proof.
  intros H. pose proof (skip_ws_length s) as Hl. rewrite H in Hl.
  cbn [length] in Hl. lia.
Qed.

Lemma push_unit_inv c r s rest :
  push_unit c r = Some (s, rest) ->
  exists s', r = Some (s', rest) /\ s = c :: s'.
Proof.
  unfold push_unit. destruct r as [[s' rest']|]; [|discriminate].
  cbn. intros [= <- <-]. eauto.
Qed.

Lemma parse_string_body_length s k r :
  parse_string_body s = Some (k, r) -> (length r < length s)%nat.
Proof.
  remember (length s) as n eqn:Hn. revert s k r Hn.
  induction n as [n IH] using lt_wf_ind. intros s k r -> H.
  destruct s as [|c t]; [discriminate|]. cbn [parse_string_body] in H.
  destruct (c =? 34); [injection H as _ <-; cbn [length]; lia|].
  destruct (c =? 92).
  - destruct t as [|e t']; [discriminate|].
    destruct (e =? 117).
    + destruct t' as [|h1 [|h2 [|h3 [|h4 t'']]]]; try discriminate.
      destruct (hex4 h1 h2 h3 h4); [|discriminate].
      apply push_unit_inv in H. destruct H as (s' & H & _).
      pose proof (IH (length t'') ltac:(cbn [length]; lia) t'' _ _ eq_refl H).
      cbn [length]. lia.
    + destruct (simple_escape e); [|discriminate].
      apply push_unit_inv in H. destruct H as (s' & H & _).
      pose proof (IH (length t') ltac:(cbn [length]; lia) t' _ _ eq_refl H).
      cbn [length]. lia.
  - destruct (c <? 32); [discriminate|].
    apply push_unit_inv in H. destruct H as (s' & H & _).
    pose proof (IH (length t) ltac:(cbn [length]; lia) t _ _ eq_refl H).
    cbn [length]. lia.
Qed.

Lemma strip_prefix_length p s r :
  strip_prefix p s = Some r -> (length r + length p = length s)%nat.
Proof.
  revert s. induction p as [|a p IH]; intros s H.
  - injection H as <-. cbn. lia.
  - destruct s as [|b s]; [discriminate|]. cbn [strip_prefix] in H.
    destruct (a =? b); [|discriminate]. apply IH in H. cbn [length]. lia.
Qed.

Lemma take_digits_length s ds r :
  take_digits s = (ds, r) -> (length r + length ds = length s)%nat.
Proof.
  revert ds r. induction s as [|c t IH]; intros ds r H.
  - injection H as <- <-. reflexivity.
  - cbn [take_digits] in H. destruct (is_digit c).
    + destruct (take_digits t) as [ds' r'] eqn:E. injection H as <- <-.
      specialize (IH _ _ eq_refl). cbn [length]. lia.
    + injection H as <- <-. cbn [length]. lia.
Qed.

Lemma parse_exponent_length pre s x r :
  parse_exponent pre s = Some (x, r) -> (length r <= length s)%nat.
Proof.
  unfold parse_exponent. destruct s as [|e t]; [intros [= _ <-]; lia|].
  destruct ((e =? 101) || (e =? 69)); [|intros [= _ <-]; lia].
  destruct (match t with
            | [] => ([], t)
            | c :: t' => if (c =? 43) || (c =? 45) then ([c], t') else ([], t)
            end) as [sg t1] eqn:Esg.
  assert (Ht1 : (length t1 <= length t)%nat).
  { destruct t as [|c t']; [injection Esg as _ <-; lia|].
    destruct ((c =? 43) || (c =? 45)); injection Esg as _ <-; cbn [length]; lia. }
  destruct (take_digits t1) as [ds r'] eqn:Ed.
  apply take_digits_length in Ed.
  destruct ds; [discriminate|]. intros [= _ <-]. cbn [length] in *. lia.
Qed.

Lemma parse_fraction_length pre s x r :
  parse_fraction pre s = Some (x, r) -> (length r <= length s)%nat.
Proof.
  unfold parse_fraction. destruct s as [|c t].
  - apply parse_exponent_length.
  - destruct (c =? 46).
    + destruct (take_digits t) as [ds r'] eqn:Ed.
      apply take_digits_length in Ed.
      destruct ds; [discriminate|]. intros H.
      apply parse_exponent_length in H. cbn [length] in *. lia.
    + apply parse_exponent_length.
Qed.

Lemma parse_number_length s x r :
  parse_number s = Some (x, r) -> (length r < length s)%nat.
Proof.
  unfold parse_number.
  destruct (match s with
            | [] => ([], s)
            | c :: t => if c =? 45 then ([c], t) else ([], s)
            end) as [sg s1] eqn:Esg.
  assert (Hs1 : (length s1 <= length s)%nat).
  { destruct s as [|c t]; [injection Esg as _ <-; lia|].
    destruct (c =? 45); injection Esg as _ <-; cbn [length]; lia. }
  destruct s1 as [|c t]; [discriminate|].
  destruct (c =? 48).
  - intros H. apply parse_fraction_length in H. cbn [length] in *. lia.
  - destruct (is_digit c) eqn:Hd; [|discriminate].
    destruct (take_digits (c :: t)) as [ds r'] eqn:Ed.
    pose proof (take_digits_length _ _ _ Ed) as Hl.
    cbn [take_digits] in Ed. rewrite Hd in Ed.
    destruct (take_digits t) as [ds' r''].
    injection Ed as <- <-.
    intros H. apply parse_fraction_length in H. cbn [length] in *. lia.
Qed.

Lemma parse_value_S n s :
  parse_value (S n) s
  = match skip_ws s with
    | [] => None
    | c :: t =>
        if c =? 123 then
          match skip_ws t with
          | c' :: r =>
              if c' =? 125 then Some (VObj [], r)
              else '(ps, r) ← parse_members n t; Some (VObj ps, r)
          | [] => None
          end
        else if c =? 91 then
          match skip_ws t with
          | c' :: r =>
              if c' =? 93 then Some (VArr [], r)
              else '(vs, r) ← parse_elements n t; Some (VArr vs, r)
          | [] => None
          end
        else if c =? 34 then
          '(str, r) ← parse_string_body t; Some (VStr str, r)
        else if c =? 110 then
          r ← strip_prefix (js "null") (c :: t); Some (VNull, r)
        else if c =? 116 then
          r ← strip_prefix (js "true") (c :: t); Some (VBool true, r)
        else if c =? 102 then
          r ← strip_prefix (js "false") (c :: t); Some (VBool false, r)
        else
          '(x, r) ← parse_number (c :: t); Some (VNum x, r)
    end.
Proof. reflexivity. Qed.

Lemma parse_members_S n s :
  parse_members (S n) s
  = match skip_ws s with
    | c :: t =>
        if c =? 34 then
          '(k, r) ← parse_string_body t;
          match skip_ws r with
          | c1 :: r1 =>
              if c1 =? 58 then
                '(v, r2) ← parse_value n r1;
                match skip_ws r2 with
                | c3 :: r3 =>
                    if c3 =? 44 then
                      '(ps, r4) ← parse_members n r3;
                      Some (first_member k v ps, r4)
                    else if c3 =? 125 then Some ([(k, v)], r3)
                    else None
                | [] => None
                end
              else None
          | [] => None
          end
        else None
    | [] => None
    end.
Proof. reflexivity. Qed.

Lemma parse_elements_S n s :
  parse_elements (S n) s
  = '(v, r) ← parse_value n s;
    match skip_ws r with
    | c :: r' =>
        if c =? 44 then
          '(vs, r'') ← parse_elements n r'; Some (v :: vs, r'')
        else if c =? 93 then Some ([v], r')
        else None
    | [] => None
    end.
Proof. reflexivity. Qed.

Lemma bind_Some {A B} (m : option A) (k : A -> option B) b :
  m ≫= k = Some b -> exists a, m = Some a /\ k a = Some b.
Proof. destruct m as [a|]; [eauto|discriminate]. Qed.

Lemma parse_fuel_settled f :
  settled parse_value 0 f /\ settled parse_elements 1 f
  /\ settled parse_members 1 f.
Proof.
  induction f as [|n (IHv & IHe & IHm)].
  { split; [|split]; intros s a r H; discriminate. }
  split; [|split]; intros s a r H.
  - rewrite parse_value_S in H.
    destruct (skip_ws s) as [|c t] eqn:Es; [discriminate|].
    pose proof (skip_ws_cons _ _ _ Es) as Hst.
    destruct (c =? 123) eqn:E123.
    { destruct (skip_ws t) as [|c' r'] eqn:Et; [discriminate|].
      pose proof (skip_ws_cons _ _ _ Et) as Htr.
      destruct (c' =? 125) eqn:E125.
      - injection H as <- <-. split; [lia|]. intros [|n'] Hf; [lia|].
        rewrite parse_value_S, Es, E123, Et, E125. reflexivity.
      - apply bind_Some in H. destruct H as ([ps r0] & Hm & [= <- <-]).
        destruct (IHm _ _ _ Hm) as [Hl Hf]. split; [lia|].
        intros [|n'] Hf'; [lia|].
        rewrite parse_value_S, Es, E123, Et, E125, Hf by lia. reflexivity. }
    destruct (c =? 91) eqn:E91.
    { destruct (skip_ws t) as [|c' r'] eqn:Et; [discriminate|].
      pose proof (skip_ws_cons _ _ _ Et) as Htr.
      destruct (c' =? 93) eqn:E93.
      - injection H as <- <-. split; [lia|]. intros [|n'] Hf; [lia|].
        rewrite parse_value_S, Es, E123, E91, Et, E93. reflexivity.
      - apply bind_Some in H. destruct H as ([vs r0] & Hm & [= <- <-]).
        destruct (IHe _ _ _ Hm) as [Hl Hf]. split; [lia|].
        intros [|n'] Hf'; [lia|].
        rewrite parse_value_S, Es, E123, E91, Et, E93, Hf by lia. reflexivity. }
    destruct (c =? 34) eqn:E34.
    { apply bind_Some in H. destruct H as ([str r0] & Hm & [= <- <-]).
      pose proof (parse_string_body_length _ _ _ Hm). split; [lia|].
      intros [|n'] Hf'; [lia|].
      rewrite parse_value_S, Es, E123, E91, E34, Hm. reflexivity. }
    destruct (c =? 110) eqn:E110.
    { apply bind_Some in H. destruct H as (r0 & Hm & [= <- <-]).
      pose proof (strip_prefix_length _ _ _ Hm) as Hp.
      change (length (js "null")) with 4%nat in Hp. cbn [length] in Hp.
      split; [lia|]. intros [|n'] Hf'; [lia|].
      rewrite parse_value_S, Es, E123, E91, E34, E110, Hm. reflexivity. }
    destruct (c =? 116) eqn:E116.
    { apply bind_Some in H. destruct H as (r0 & Hm & [= <- <-]).
      pose proof (strip_prefix_length _ _ _ Hm) as Hp.
      change (length (js "true")) with 4%nat in Hp. cbn [length] in Hp.
      split; [lia|]. intros [|n'] Hf'; [lia|].
      rewrite parse_value_S, Es, E123, E91, E34, E110, E116, Hm. reflexivity. }
    destruct (c =? 102) eqn:E102.
    { apply bind_Some in H. destruct H as (r0 & Hm & [= <- <-]).
      pose proof (strip_prefix_length _ _ _ Hm) as Hp.
      change (length (js "false")) with 5%nat in Hp. cbn [length] in Hp.
      split; [lia|]. intros [|n'] Hf'; [lia|].
      rewrite parse_value_S, Es, E123, E91, E34, E110, E116, E102, Hm.
      reflexivity. }
    apply bind_Some in H. destruct H as ([x r0] & Hm & [= <- <-]).
    pose proof (parse_number_length _ _ _ Hm) as Hp. cbn [length] in Hp.
    split; [lia|]. intros [|n'] Hf'; [lia|].
    rewrite parse_value_S, Es, E123, E91, E34, E110, E116, E102, Hm.
    reflexivity.
  - rewrite parse_elements_S in H.
    apply bind_Some in H. destruct H as ([v r1] & Hv & H).
    destruct (IHv _ _ _ Hv) as [Hl1 Hf1].
    destruct (skip_ws r1) as [|c r'] eqn:Er; [discriminate|].
    pose proof (skip_ws_cons _ _ _ Er) as Hr.
    destruct (c =? 44) eqn:E44.
    + apply bind_Some in H. destruct H as ([vs r2] & He & [= <- <-]).
      destruct (IHe _ _ _ He) as [Hl2 Hf2]. split; [lia|].
      intros [|n'] Hf'; [lia|].
      rewrite parse_elements_S, Hf1 by lia. cbn [mbind option_bind].
      rewrite Er, E44, Hf2 by lia. reflexivity.
    + destruct (c =? 93) eqn:E93; [|discriminate].
      injection H as <- <-. split; [lia|].
      intros [|n'] Hf'; [lia|].
      rewrite parse_elements_S, Hf1 by lia. cbn [mbind option_bind].
      rewrite Er, E44, E93. reflexivity.
  - rewrite parse_members_S in H.
    destruct (skip_ws s) as [|c t] eqn:Es; [discriminate|].
    pose proof (skip_ws_cons _ _ _ Es) as Hst.
    destruct (c =? 34) eqn:E34; [|discriminate].
    apply bind_Some in H. destruct H as ([k r0] & Hk & H).
    pose proof (parse_string_body_length _ _ _ Hk) as Hlk.
    destruct (skip_ws r0) as [|c1 r1] eqn:Er0; [discriminate|].
    pose proof (skip_ws_cons _ _ _ Er0) as Hr0.
    destruct (c1 =? 58) eqn:E58; [|discriminate].
    apply bind_Some in H. destruct H as ([v r2] & Hv & H).
    destruct (IHv _ _ _ Hv) as [Hl1 Hf1].
    destruct (skip_ws r2) as [|c3 r3] eqn:Er2; [discriminate|].
    pose proof (skip_ws_cons _ _ _ Er2) as Hr2.
    destruct (c3 =? 44) eqn:E44.
    + apply bind_Some in H. destruct H as ([ps r4] & Hm & [= <- <-]).
      destruct (IHm _ _ _ Hm) as [Hl2 Hf2]. split; [lia|].
      intros [|n'] Hf'; [lia|].
      rewrite parse_members_S, Es, E34, Hk. cbn [mbind option_bind].
      rewrite Er0, E58, Hf1 by lia. cbn [mbind option_bind].
      rewrite Er2, E44, Hf2 by lia. reflexivity.
    + destruct (c3 =? 125) eqn:E125; [|discriminate].
      injection H as <- <-. split; [lia|].
      intros [|n'] Hf'; [lia|].
      rewrite parse_members_S, Es, E34, Hk. cbn [mbind option_bind].
      rewrite Er0, E58, Hf1 by lia. cbn [mbind option_bind].
      rewrite Er2, E44, E125. reflexivity.
Qed.

(** No amount of fuel reads a value where [JSON.parse], with the fuel it
    takes, reads none. *)
Theorem JSON_parse_fuel_enough text f v r :
  parse_value f text = Some (v, r) ->
  parse_value (2 * length text + 1) text = Some (v, r).
Proof.
  intros H. destruct (parse_fuel_settled f) as (Hv & _ & _).
  destruct (Hv _ _ _ H) as [_ Hf]. apply Hf. lia.
Qed.

(** ** Reading back what [JSON.stringify] wrote: strings *)

Lemma all_from_spec count f c x :
  all_from count c f = true -> c <= x -> x < c + N.of_nat count -> f x = true.
Proof.
  revert c. induction count as [|k IH]; intros c H Hle Hlt; [lia|].
  cbn [all_from] in H. apply andb_true_iff in H. destruct H as [Hc Hk].
  destruct (N.eq_dec x c) as [->|Hne]; [exact Hc|].
  apply (IH (N.succ c) Hk); lia.
Qed.

Lemma all_below_spec n f c :
  all_below n f = true -> c < n -> f c = true.
Proof.
  unfold all_below. intros H Hc. apply (all_from_spec _ _ 0 c H); lia.
Qed.

Lemma unit_parses_sound u c tail :
  unit_parses u c = true ->
  parse_string_body (u ++ tail) = push_unit c (parse_string_body tail).
Proof.
  destruct u as [|x [|e [|h1 [|h2 [|h3 [|h4 [|? ?]]]]]]]; cbn [unit_parses];
    try discriminate.
  - rewrite !andb_true_iff, !negb_true_iff.
    intros [[[Hx H34] H92] H32]. apply N.eqb_eq in Hx. subst x.
    change ([c] ++ tail) with (c :: tail). cbn [parse_string_body].
    rewrite H34, H92, H32. reflexivity.
  - rewrite !andb_true_iff, !negb_true_iff.
    intros [[Hx He] Hs]. apply N.eqb_eq in Hx. subst x.
    change ([92; e] ++ tail) with (92 :: e :: tail).
    cbn [parse_string_body]. change (92 =? 34) with false.
    change (92 =? 92) with true. cbn iota. rewrite He.
    destruct (simple_escape e) as [c'|]; [|discriminate].
    apply N.eqb_eq in Hs. subst c'. reflexivity.
  - rewrite !andb_true_iff.
    intros [[Hx Hu] Hs]. apply N.eqb_eq in Hx, Hu. subst x e.
    change ([92; 117; h1; h2; h3; h4] ++ tail)
      with (92 :: 117 :: h1 :: h2 :: h3 :: h4 :: tail).
    cbn [parse_string_body]. change (92 =? 34) with false.
    change (92 =? 92) with true. change (117 =? 117) with true. cbn iota.
    destruct (hex4 h1 h2 h3 h4) as [c'|]; [|discriminate].
    apply N.eqb_eq in Hs. subst c'. reflexivity.
Qed.

Lemma escape_units_checked :
  all_below 65536
    (fun c => unit_parses (unicode_escape c) c
              && (is_high_surrogate c || unit_parses (escape_unit c) c)
              && (negb (is_high_surrogate c || is_low_surrogate c)
                  || unit_parses [c] c)) = true.
Proof. vm_compute. reflexivity. Qed.

Lemma escape_unit_large c : 65536 <= c -> escape_unit c = [c].
Proof.
  intros Hc. unfold escape_unit, is_high_surrogate, is_low_surrogate.
  repeat match goal with
  | |- context [?a =? ?b] =>
      replace (a =? b) with false by (symmetry; apply N.eqb_neq; lia)
  end.
  replace (c <? 32) with false by (symmetry; apply N.ltb_ge; lia).
  replace (c <=? 56319) with false by (symmetry; apply N.leb_gt; lia).
  replace (c <=? 57343) with false by (symmetry; apply N.leb_gt; lia).
  rewrite !andb_false_r. reflexivity.
Qed.

Lemma unit_parses_large c : 65536 <= c -> unit_parses [c] c = true.
Proof.
  intros Hc. unfold unit_parses. rewrite N.eqb_refl.
  replace (c =? 34) with false by (symmetry; apply N.eqb_neq; lia).
  replace (c =? 92) with false by (symmetry; apply N.eqb_neq; lia).
  replace (c <? 32) with false by (symmetry; apply N.ltb_ge; lia).
  reflexivity.
Qed.

Lemma escape_unit_parses c :
  is_high_surrogate c = false -> unit_parses (escape_unit c) c = true.
Proof.
  intros Hh. destruct (N.lt_ge_cases c 65536) as [Hc|Hc].
  - pose proof (all_below_spec _ _ c escape_units_checked Hc) as H.
    cbv beta in H. rewrite Hh in H.
    apply andb_true_iff in H. destruct H as [H _].
    apply andb_true_iff in H. destruct H as [_ H]. exact H.
  - rewrite escape_unit_large by exact Hc. apply unit_parses_large. exact Hc.
Qed.

Lemma surrogate_below c :
  is_high_surrogate c || is_low_surrogate c = true -> c < 65536.
Proof.
  unfold is_high_surrogate, is_low_surrogate.
  rewrite orb_true_iff, !andb_true_iff, !N.leb_le. lia.
Qed.

Lemma unicode_escape_parses c :
  is_high_surrogate c = true -> unit_parses (unicode_escape c) c = true.
Proof.
  intros Hh.
  assert (Hc : c < 65536) by (apply surrogate_below; rewrite Hh; reflexivity).
  pose proof (all_below_spec _ _ c escape_units_checked Hc) as H.
  cbv beta in H.
  apply andb_true_iff in H. destruct H as [H _].
  apply andb_true_iff in H. destruct H as [H _]. exact H.
Qed.

Lemma surrogate_raw_parses c :
  is_high_surrogate c || is_low_surrogate c = true -> unit_parses [c] c = true.
Proof.
  intros Hs. pose proof (surrogate_below c Hs) as Hc.
  pose proof (all_below_spec _ _ c escape_units_checked Hc) as H.
  cbv beta in H. rewrite Hs in H.
  apply andb_true_iff in H. destruct H as [_ H]. exact H.
Qed.

Lemma push_unit_Some c s rest :
  push_unit c (Some (s, rest)) = Some (c :: s, rest).
Proof. reflexivity. Qed.

Lemma quote_units_parses_bounded n : forall s rest,
  (length s <= n)%nat ->
  parse_string_body (quote_units s ++ 34 :: rest) = Some (s, rest).
Proof.
  induction n as [|n IH]; intros s rest Hn.
  - destruct s; [reflexivity|cbn in Hn; lia].
  - destruct s as [|c t]; [reflexivity|].
    cbn [length] in Hn. cbn [quote_units].
    destruct (is_high_surrogate c) eqn:Hh.
    + destruct t as [|d t'].
      * rewrite (unit_parses_sound _ c _ (unicode_escape_parses c Hh)).
        reflexivity.
      * destruct (is_low_surrogate d) eqn:Hl.
        -- change ((c :: d :: quote_units t') ++ 34 :: rest)
             with ([c] ++ [d] ++ quote_units t' ++ 34 :: rest).
           rewrite (unit_parses_sound [c] c).
           2:{ apply surrogate_raw_parses. rewrite Hh. reflexivity. }
           rewrite (unit_parses_sound [d] d).
           2:{ apply surrogate_raw_parses. rewrite Hl. apply orb_true_r. }
           rewrite IH by (cbn [length] in Hn; lia). reflexivity.
        -- rewrite <- app_assoc.
           rewrite (unit_parses_sound _ c _ (unicode_escape_parses c Hh)).
           rewrite IH by lia. reflexivity.
    + rewrite <- app_assoc.
      rewrite (unit_parses_sound _ c _ (escape_unit_parses c Hh)).
      rewrite IH by lia. reflexivity.
Qed.

Lemma quote_units_parses s rest :
  parse_string_body (quote_units s ++ 34 :: rest) = Some (s, rest).
Proof. apply (quote_units_parses_bounded (length s)). reflexivity. Qed.

(** ** Reading back what [JSON.stringify] wrote *)

Lemma QuoteJSONString_parses s rest :
  exists t, QuoteJSONString s ++ rest = 34 :: t
            /\ parse_string_body t = Some (s, rest).
Proof.
  exists (quote_units s ++ 34 :: rest). split.
  - unfold QuoteJSONString. cbn. rewrite <- app_assoc. reflexivity.
  - apply quote_units_parses.
Qed.

Lemma JSON_stringify_head v rest :
  storable v = true ->
  exists c t, JSON_stringify v ++ rest = c :: t /\ opens_value c = true.
Proof.
  destruct v as [|[]|x|s|l|ps|[t|]|f]; intros Hs; try discriminate;
    try (eexists _, _; split; [reflexivity|reflexivity]).
Qed.

Lemma skip_ws_opens c t : opens_value c = true -> skip_ws (c :: t) = c :: t.
Proof.
  intros H. cbn [skip_ws].
  replace (is_json_ws c) with false; [reflexivity|].
  unfold opens_value in H. unfold is_json_ws.
  rewrite !orb_true_iff in H.
  destruct H as [[[[[H|H]|H]|H]|H]|H]; apply N.eqb_eq in H; subst c;
    reflexivity.
Qed.

Lemma parse_value_string n t :
  parse_value (S n) (34 :: t)
  = '(str, r) ← parse_string_body t; Some (VStr str, r).
Proof. reflexivity. Qed.

Lemma parse_value_array n t :
  parse_value (S n) (91 :: t)
  = match skip_ws t with
    | c' :: r =>
        if c' =? 93 then Some (VArr [], r)
        else '(vs, r) ← parse_elements n t; Some (VArr vs, r)
    | [] => None
    end.
Proof. reflexivity. Qed.

Lemma parse_value_object n t :
  parse_value (S n) (123 :: t)
  = match skip_ws t with
    | c' :: r =>
        if c' =? 125 then Some (VObj [], r)
        else '(ps, r) ← parse_members n t; Some (VObj ps, r)
    | [] => None
    end.
Proof. reflexivity. Qed.

Lemma parse_elements_step n s :
  parse_elements (S n) s
  = '(v, r) ← parse_value n s;
    match skip_ws r with
    | c :: r' =>
        if c =? 44 then
          '(vs, r'') ← parse_elements n r'; Some (v :: vs, r'')
        else if c =? 93 then Some ([v], r')
        else None
    | [] => None
    end.
Proof. reflexivity. Qed.

Lemma parse_members_step n t :
  parse_members (S n) (34 :: t)
  = '(k, r) ← parse_string_body t;
    match skip_ws r with
    | c1 :: r1 =>
        if c1 =? 58 then
          '(v, r2) ← parse_value n r1;
          match skip_ws r2 with
          | c3 :: r3 =>
              if c3 =? 44 then
                '(ps, r4) ← parse_members n r3;
                Some (first_member k v ps, r4)
              else if c3 =? 125 then Some ([(k, v)], r3)
              else None
          | [] => None
          end
        else None
    | [] => None
    end.
Proof. reflexivity. Qed.

Lemma opens_value_not c k :
  opens_value c = true -> opens_value k = false -> (c =? k) = false.
Proof.
  intros Hc Hk. apply N.eqb_neq. intros ->. congruence.
Qed.

Lemma join_comma_cons2 a b (l : list jsstring) :
  join_comma (a :: b :: l) = a ++ 44 :: join_comma (b :: l).
Proof. reflexivity. Qed.

Lemma join_comma_map {A} (f : A -> jsstring) a b (l : list A) :
  join_comma (List.map f (a :: b :: l))
  = f a ++ 44 :: join_comma (List.map f (b :: l)).
Proof. reflexivity. Qed.

Lemma parse_elements_back l :
  Forall parses_back l -> l <> [] ->
  forallb storable l = true ->
  forall f rest,
    (list_sum (List.map (fun x => S (fsize x)) l) <= f)%nat ->
    parse_elements f (join_comma (List.map JSON_stringify l) ++ 93 :: rest)
    = Some (List.map toJSON_pass l, rest).
Proof.
  induction 1 as [|x l Hx Hl IH]; [congruence|].
  intros _ Hs f rest Hf.
  cbn [forallb] in Hs. apply andb_true_iff in Hs. destruct Hs as [Hsx Hsl].
  cbn [List.map list_sum] in Hf.
  destruct f as [|n]; [cbn in Hf; lia|].
  rewrite parse_elements_step.
  destruct l as [|y l'].
  - cbn [List.map join_comma].
    rewrite (Hx Hsx) by (cbn in Hf; lia).
    reflexivity.
  - rewrite join_comma_map. rewrite <- app_assoc.
    rewrite (Hx Hsx) by (cbn in Hf |- *; lia).
    cbn [mbind option_bind].
    change (skip_ws ((44 :: ?a) ++ ?b)) with (44 :: a ++ b).
    cbv beta iota. change (44 =? 44) with true. cbv iota.
    rewrite (IH ltac:(discriminate) Hsl n rest); [reflexivity|].
    cbn [List.map list_sum fold_right] in Hf |- *. lia.
Qed.

Lemma get_prop_fresh k (ps : list (jsstring * jsval)) (g : jsval -> jsval) :
  existsb (jseqb k) (List.map fst ps) = false ->
  get_prop k (List.map (fun kv => (fst kv, g (snd kv))) ps) = None.
Proof.
  induction ps as [|[k' v] ps IH]; [reflexivity|].
  cbn [List.map existsb fst snd get_prop]. intros H.
  apply orb_false_iff in H. destruct H as [Hk Hps].
  replace (jseqb k' k) with false; [apply IH; exact Hps|].
  symmetry. clear -Hk. revert k Hk.
  induction k' as [|a k' IHk]; intros [|b k] H; try reflexivity.
  - discriminate.
  - cbn in *. rewrite N.eqb_sym. destruct (b =? a); [|reflexivity].
    cbn in *. apply IHk. exact H.
Qed.

Lemma parse_members_back ps :
  Forall (fun kv => parses_back (snd kv)) ps -> ps <> [] ->
  distinct_keys (List.map fst ps) = true ->
  forallb (fun kv => storable (snd kv)) ps = true ->
  forall f rest,
    (list_sum (List.map (fun kv => S (fsize (snd kv))) ps) <= f)%nat ->
    parse_members f (join_comma (List.map member_text ps) ++ 125 :: rest)
    = Some (List.map (fun kv => (fst kv, toJSON_pass (snd kv))) ps, rest).
Proof.
  induction 1 as [|[k v] ps Hx Hl IH]; [congruence|].
  intros _ Hd Hs f rest Hf.
  cbn [forallb snd] in Hs. apply andb_true_iff in Hs. destruct Hs as [Hsx Hsl].
  cbn [List.map distinct_keys fst] in Hd.
  apply andb_true_iff in Hd. destruct Hd as [Hk Hd].
  apply negb_true_iff in Hk.
  cbn [snd] in Hx.
  destruct f as [|n]; [cbn in Hf; lia|].
  assert (Hfx : (fsize v <= n)%nat) by (cbn in Hf; lia).
  destruct ps as [|kv' ps'].
  - cbn [List.map join_comma]. unfold member_text. cbn [fst snd].
    unfold QuoteJSONString.
    change ((((34 :: quote_units k ++ [34]) ++ 58 :: JSON_stringify v)
             ++ 125 :: rest))
      with (34 :: (((quote_units k ++ [34]) ++ 58 :: JSON_stringify v)
                   ++ 125 :: rest)).
    rewrite parse_members_step.
    rewrite <- ?app_assoc, <- ?app_comm_cons, ?app_nil_l.
    rewrite quote_units_parses. cbn [mbind option_bind].
    change (skip_ws (58 :: ?a)) with (58 :: a).
    cbv beta iota. change (58 =? 58) with true. cbv iota.
    rewrite (Hx Hsx n _ Hfx). reflexivity.
  - rewrite join_comma_map. unfold member_text at 1. cbn [fst snd].
    unfold QuoteJSONString.
    change (((((34 :: quote_units k ++ [34]) ++ 58 :: JSON_stringify v)
              ++ 44 :: ?a) ++ ?b))
      with (34 :: ((((quote_units k ++ [34]) ++ 58 :: JSON_stringify v)
                    ++ 44 :: a) ++ b)).
    rewrite parse_members_step.
    rewrite <- ?app_assoc, <- ?app_comm_cons, ?app_nil_l.
    rewrite quote_units_parses. cbn [mbind option_bind].
    change (skip_ws (58 :: ?a)) with (58 :: a).
    cbv beta iota. change (58 =? 58) with true. cbv iota.
    rewrite (Hx Hsx n _ Hfx). cbn [mbind option_bind].
    change (skip_ws (44 :: ?a)) with (44 :: a).
    cbv beta iota. change (44 =? 44) with true. cbv iota.
    rewrite (IH ltac:(discriminate) Hd Hsl n rest).
    + cbn [mbind option_bind]. unfold first_member.
      rewrite (get_prop_fresh k (kv' :: ps') toJSON_pass Hk). reflexivity.
    + cbn [List.map list_sum fold_right] in Hf |- *. lia.
Qed.

Lemma JSON_stringify_arr l :
  JSON_stringify (VArr l)
  = 91 :: join_comma (List.map JSON_stringify l) ++ [93].
Proof. reflexivity. Qed.

Lemma JSON_stringify_obj ps :
  JSON_stringify (VObj ps) = 123 :: join_comma (List.map member_text ps) ++ [125].
Proof. reflexivity. Qed.

Lemma parses_back_all v : parses_back v.
Proof.
  induction v as [|b|x|s|l IH|ps IH|d|fl] using jsval_nested_ind;
    intros Hs f rest Hf.
  - destruct f as [|n]; [cbn in Hf; lia|]. reflexivity.
  - destruct f as [|n]; [cbn in Hf; lia|]. destruct b; reflexivity.
  - discriminate.
  - destruct f as [|n]; [cbn in Hf; lia|].
    change (JSON_stringify (VStr s)) with (QuoteJSONString s).
    destruct (QuoteJSONString_parses s rest) as (t & -> & Ht).
    rewrite parse_value_string, Ht. reflexivity.
  - destruct f as [|n]; [cbn in Hf; lia|].
    rewrite JSON_stringify_arr.
    rewrite <- app_comm_cons, <- app_assoc. rewrite parse_value_array.
    destruct l as [|x l].
    + reflexivity.
    + cbn [storable] in Hs.
      destruct (JSON_stringify_head x
                  (match l with [] => [] | _ => 44 :: join_comma (List.map JSON_stringify l) end
                   ++ [93] ++ rest)) as (c & t & Hc & Ho).
      { cbn in Hs. apply andb_true_iff in Hs. tauto. }
      assert (Hin : join_comma (List.map JSON_stringify (x :: l)) ++ [93] ++ rest
                    = c :: t).
      { rewrite <- Hc. destruct l; [reflexivity|].
        rewrite join_comma_map. rewrite <- !app_assoc. reflexivity. }
      rewrite Hin at 1. rewrite (skip_ws_opens c t Ho).
      rewrite (opens_value_not c 93 Ho eq_refl).
      change ([93] ++ rest) with (93 :: rest).
      rewrite (parse_elements_back (x :: l) IH ltac:(discriminate) Hs n rest).
      * reflexivity.
      * cbn [fsize] in Hf. lia.
  - destruct f as [|n]; [cbn in Hf; lia|].
    rewrite JSON_stringify_obj.
    rewrite <- app_comm_cons, <- app_assoc. rewrite parse_value_object.
    destruct ps as [|[k v] ps].
    + reflexivity.
    + cbn [storable] in Hs. apply andb_true_iff in Hs. destruct Hs as [Hd Hs].
      assert (Hin : exists t,
                 join_comma (List.map member_text ((k, v) :: ps)) ++ [125] ++ rest
                 = 34 :: t).
      { destruct ps; [|rewrite join_comma_map]; unfold member_text at 1;
          unfold QuoteJSONString; cbn; eauto. }
      destruct Hin as [t Hin]. rewrite Hin at 1.
      change (skip_ws (34 :: t)) with (34 :: t). cbv beta iota.
      change (34 =? 125) with false. cbv iota.
      change ([125] ++ rest) with (125 :: rest).
      rewrite (parse_members_back ((k, v) :: ps) IH ltac:(discriminate) Hd Hs
                 n rest).
      * reflexivity.
      * cbn [fsize] in Hf. lia.
  - destruct f as [|n]; [cbn in Hf; lia|].
    destruct d as [t|]; [|reflexivity].
    change (JSON_stringify (VDate (Instant t)))
      with (QuoteJSONString (DateTime.toISOString t)).
    destruct (QuoteJSONString_parses (DateTime.toISOString t) rest)
      as (t' & -> & Ht).
    rewrite parse_value_string, Ht. reflexivity.
  - destruct f as [|n]; [cbn in Hf; lia|]. reflexivity.
Qed.

Lemma join_comma_length (parts : list jsstring) :
  (list_sum (List.map (fun p => S (length p)) parts)
   <= S (length (join_comma parts)))%nat.
Proof.
  induction parts as [|a [|b parts] IH].
  - cbn. lia.
  - cbn. lia.
  - rewrite join_comma_cons2. rewrite length_app.
    cbn [List.map list_sum fold_right length] in IH |- *. lia.
Qed.

Lemma list_sum_le {A} (f g : A -> nat) (l : list A) :
  Forall (fun x => (f x <= g x)%nat) l ->
  (list_sum (List.map f l) <= list_sum (List.map g l))%nat.
Proof.
  induction 1 as [|x l Hx _ IH]; [reflexivity|].
  change (f x + list_sum (List.map f l) <= g x + list_sum (List.map g l))%nat.
  lia.
Qed.

Lemma fsize_le_length v :
  storable v = true -> (fsize v <= length (JSON_stringify v))%nat.
Proof.
  induction v as [|b|x|s|l IH|ps IH|d|fl] using jsval_nested_ind; intros Hs.
  - vm_compute. lia.
  - destruct b; vm_compute; lia.
  - discriminate.
  - change (JSON_stringify (VStr s)) with (QuoteJSONString s).
    unfold QuoteJSONString. cbn [fsize length]. lia.
  - rewrite JSON_stringify_arr. cbn [fsize length]. rewrite length_app.
    cbn [length]. cbn [storable] in Hs.
    pose proof (join_comma_length (List.map JSON_stringify l)) as Hj.
    rewrite List.map_map in Hj.
    assert (Hle : (list_sum (List.map (fun x => S (fsize x)) l)
                   <= list_sum (List.map (fun x => S (length (JSON_stringify x))) l))%nat).
    { apply list_sum_le. rewrite forallb_forall in Hs.
      rewrite List.Forall_forall in IH |- *.
      intros x Hx. specialize (IH x Hx (Hs x Hx)). lia. }
    lia.
  - rewrite JSON_stringify_obj. cbn [fsize length]. rewrite length_app.
    cbn [length]. cbn [storable] in Hs.
    apply andb_true_iff in Hs. destruct Hs as [_ Hs].
    pose proof (join_comma_length (List.map member_text ps)) as Hj.
    rewrite List.map_map in Hj.
    assert (Hle : (list_sum (List.map (fun kv => S (fsize (snd kv))) ps)
                   <= list_sum (List.map (fun kv => S (length (member_text kv))) ps))%nat).
    { apply list_sum_le. rewrite forallb_forall in Hs.
      rewrite List.Forall_forall in IH |- *.
      intros kv Hx. specialize (IH kv Hx (Hs kv Hx)).
      unfold member_text. rewrite length_app. cbn [length]. lia. }
    lia.
  - destruct d as [t|]; [|vm_compute; lia].
    change (JSON_stringify (VDate (Instant t)))
      with (QuoteJSONString (DateTime.toISOString t)).
    unfold QuoteJSONString. cbn [fsize length]. lia.
  - vm_compute. lia.
Qed.

(** Whatever [JSON.stringify] writes of a storable value, [JSON.parse]
    reads back as the value with its dates and files converted. *)
Lemma JSON_parse_stringify v :
  storable v = true -> JSON_parse (JSON_stringify v) = Some (toJSON_pass v).
Proof.
  intros Hs. unfold JSON_parse.
  rewrite <- (app_nil_r (JSON_stringify v)) at 2.
  rewrite (parses_back_all v Hs).
  - reflexivity.
  - pose proof (fsize_le_length v Hs). lia.
Qed.

(** ** Reading back what [toISOString] wrote *)

Module DateTimeFacts.
Import DateTime.
Local Open Scope Z_scope.

Lemma all_below_Z n (f : Z -> bool) z :
  all_below n (fun c => f (Z.of_N c)) = true ->
  0 <= z < Z.of_N n -> f z = true.
Proof.
  intros H Hz.
  pose proof (all_below_spec n _ (Z.to_N z) H) as H'.
  cbv beta in H'. rewrite Z2N.id in H' by lia. apply H'. lia.
Qed.

Lemma pad2_checked :
  all_below 100 (fun c => digits_read_back (pad2 (Z.of_N c)) (Z.of_N c)) = true.
Proof. vm_compute. reflexivity. Qed.

Lemma pad3_checked :
  all_below 1000 (fun c => digits_read_back (pad3 (Z.of_N c)) (Z.of_N c)) = true.
Proof. vm_compute. reflexivity. Qed.

Lemma pad4_checked :
  all_below 10000
    (fun c => digits_read_back (pad4 (Z.of_N c)) (Z.of_N c)
              && starts_with_digit (pad4 (Z.of_N c))) = true.
Proof. vm_compute. reflexivity. Qed.

Lemma year_days_checked :
  all_below 366 (fun c => year_day_ok (Z.of_N c)) = true.
Proof. vm_compute. reflexivity. Qed.

Lemma digits_read_back_spec text z :
  digits_read_back text z = true -> number_of_digits 0 text = Some z.
Proof.
  unfold digits_read_back. destruct (number_of_digits 0 text); [|discriminate].
  intros H. apply Z.eqb_eq in H. congruence.
Qed.

Lemma pad2_reads z : 0 <= z < 100 -> number_of_digits 0 (pad2 z) = Some z.
Proof.
  intros Hz. apply digits_read_back_spec.
  apply (all_below_Z 100 (fun z => digits_read_back (pad2 z) z) z pad2_checked).
  exact Hz.
Qed.

Lemma pad3_reads z : 0 <= z < 1000 -> number_of_digits 0 (pad3 z) = Some z.
Proof.
  intros Hz. apply digits_read_back_spec.
  apply (all_below_Z 1000 (fun z => digits_read_back (pad3 z) z) z pad3_checked).
  exact Hz.
Qed.

Lemma pad4_reads z :
  0 <= z < 10000 ->
  number_of_digits 0 (pad4 z) = Some z /\ starts_with_digit (pad4 z) = true.
Proof.
  intros Hz.
  pose proof (all_below_Z 10000
                (fun z => digits_read_back (pad4 z) z
                          && starts_with_digit (pad4 z)) z pad4_checked Hz) as H.
  cbv beta in H. apply andb_true_iff in H. destruct H as [H1 H2].
  split; [apply digits_read_back_spec; exact H1|exact H2].
Qed.

Lemma number_of_digits_app acc x y :
  number_of_digits acc (x ++ y)
  = number_of_digits acc x ≫= fun v => number_of_digits v y.
Proof.
  revert acc. induction x as [|c x IH]; intros acc; [reflexivity|].
  rewrite <- app_comm_cons. cbn [number_of_digits].
  destruct (digit_value c); [apply IH|reflexivity].
Qed.

Lemma number_of_digits_three acc a b c lo :
  number_of_digits 0 [a; b; c] = Some lo ->
  number_of_digits acc [a; b; c] = Some (1000 * acc + lo).
Proof.
  cbn [number_of_digits].
  destruct (digit_value a), (digit_value b), (digit_value c);
    try discriminate.
  intros [= <-]. f_equal. lia.
Qed.

Lemma pad6_reads z :
  0 <= z < 1000000 -> number_of_digits 0 (pad6 z) = Some z.
Proof.
  intros Hz. unfold pad6. rewrite number_of_digits_app.
  assert (Hhi : 0 <= z / 1000 < 1000).
  { split; [apply Z.div_pos; lia|apply Z.div_lt_upper_bound; lia]. }
  rewrite (pad3_reads (z / 1000) Hhi). cbn [mbind option_bind].
  pose proof (pad3_reads (z mod 1000) ltac:(apply Z.mod_pos_bound; lia)) as Hlo.
  unfold pad3 in Hlo |- *.
  rewrite (number_of_digits_three _ _ _ _ _ Hlo). f_equal.
  pose proof (Z.div_mod z 1000 ltac:(lia)). lia.
Qed.

Lemma is_leap_cycle y k : is_leap (y + k * 400) = is_leap y.
Proof.
  unfold is_leap.
  replace (y + k * 400) with (y + (k * 100) * 4) at 1 by lia.
  replace (y + k * 400) with (y + (k * 4) * 100) at 1 by lia.
  rewrite !Z_mod_plus_full. reflexivity.
Qed.

Lemma days_in_month_cycle y k m :
  days_in_month (y + k * 400) m = days_in_month y m.
Proof. unfold days_in_month. rewrite is_leap_cycle. reflexivity. Qed.

Lemma days_in_month_common y m : days_in_month 1 m <= days_in_month y m.
Proof.
  unfold days_in_month. change (is_leap 1) with false.
  destruct (m =? 2); [destruct (is_leap y); lia|].
  destruct ((m =? 4) || (m =? 6) || (m =? 9) || (m =? 11)); lia.
Qed.

Lemma cycle_parts doe :
  0 <= doe < 146097 ->
  let c := Z.min (doe / 36524) 3 in
  let r := doe - c * 36524 in
  let q := Z.min (r / 1461) 24 in
  let r2 := r - q * 1461 in
  let y1 := Z.min (r2 / 365) 3 in
  let doy := r2 - y1 * 365 in
  0 <= c <= 3 /\ 0 <= q <= 24 /\ 0 <= y1 <= 3 /\ 0 <= doy <= 365
  /\ (doy = 365 -> y1 = 3 /\ (q <= 23 \/ c = 3))
  /\ doe = c * 36524 + q * 1461 + y1 * 365 + doy.
Proof. intros H. cbv zeta. Z.div_mod_to_equations. lia. Qed.

Lemma year_of_era_parts c q y1 :
  0 <= c <= 3 -> 0 <= q <= 24 -> 0 <= y1 <= 3 ->
  let yoe := c * 100 + q * 4 + y1 in
  0 <= yoe <= 399 /\ yoe / 4 = c * 25 + q /\ yoe / 100 = c.
Proof. intros. cbv zeta. Z.div_mod_to_equations. lia. Qed.

Lemma leap_day_year c q :
  0 <= c <= 3 -> 0 <= q <= 24 -> q <= 23 \/ c = 3 ->
  is_leap (c * 100 + q * 4 + 3 + 1) = true.
Proof.
  intros Hc Hq Hl. unfold is_leap.
  replace ((c * 100 + q * 4 + 3 + 1) mod 4) with 0
    by (Z.div_mod_to_equations; lia).
  cbn [Z.eqb andb].
  destruct Hl as [Hl| ->].
  - replace ((c * 100 + q * 4 + 3 + 1) mod 100 =? 0) with false;
      [reflexivity|].
    symmetry. apply Z.eqb_neq. Z.div_mod_to_equations. lia.
  - assert (q = 24 \/ q <= 23) as [->|Hl] by lia; [reflexivity|].
    replace ((3 * 100 + q * 4 + 3 + 1) mod 100 =? 0) with false;
      [reflexivity|].
    symmetry. apply Z.eqb_neq. Z.div_mod_to_equations. lia.
Qed.

(** Every day of the cycle converts to a legal date of the cycle and
    back. *)
Lemma civil_of_cycle_day_back doe :
  0 <= doe < 146097 ->
  let '(yoe, m, d) := civil_of_cycle_day doe in
  0 <= yoe <= 399 /\ 1 <= m <= 12
  /\ 1 <= d <= days_in_month (yoe + (if m <=? 2 then 1 else 0)) m
  /\ cycle_day_of_civil yoe m d = doe.
Proof.
  intros Hdoe. unfold civil_of_cycle_day.
  pose proof (cycle_parts doe Hdoe) as Hp. cbv zeta in Hp.
  set (c := Z.min (doe / 36524) 3) in *.
  set (q := Z.min ((doe - c * 36524) / 1461) 24) in *.
  set (y1 := Z.min ((doe - c * 36524 - q * 1461) / 365) 3) in *.
  set (doy := doe - c * 36524 - q * 1461 - y1 * 365) in *.
  destruct Hp as (Hc & Hq & Hy1 & Hdoy & Hleap & Hsum).
  pose proof (year_of_era_parts c q y1 Hc Hq Hy1) as Hy. cbv zeta in Hy.
  destruct Hy as (Hyoe & Hy4 & Hy100).
  pose proof (all_below_Z 366 year_day_ok doy year_days_checked
                ltac:(change (Z.of_N 366) with 366; lia)) as Hok.
  unfold year_day_ok in Hok.
  destruct (month_day_of_year_day doy) as [m d].
  rewrite !andb_true_iff in Hok.
  destruct Hok as [[[[H1 H2] H3] H4] H5].
  apply Z.leb_le in H1, H2, H3. apply Z.eqb_eq in H5.
  split; [exact Hyoe|]. split; [lia|]. split.
  - split; [lia|].
    destruct (doy =? 365) eqn:E.
    + apply Z.eqb_eq in E. apply andb_true_iff in H4. destruct H4 as [Hm Hd].
      apply Z.eqb_eq in Hm, Hd. subst m d. cbn [Z.leb Z.compare Pos.compare].
      change (2 <=? 2) with true. cbv iota.
      destruct (Hleap E) as [-> Hl].
      unfold days_in_month. change (2 =? 2) with true. cbv iota.
      rewrite (leap_day_year c q Hc Hq Hl). lia.
    + apply Z.leb_le in H4.
      pose proof (days_in_month_common
                    (c * 100 + q * 4 + y1 + (if m <=? 2 then 1 else 0)) m).
      lia.
  - unfold cycle_day_of_civil. rewrite Hy4, Hy100, H5. lia.
Qed.

(** Every day number converts to a legal calendar date and back. *)
Lemma civil_of_day_back day :
  let c := civil_of_day day in
  1 <= c_month c <= 12
  /\ 1 <= c_day c <= days_in_month (c_year c) (c_month c)
  /\ day_of_civil (c_year c) (c_month c) (c_day c) = day
  /\ (day + 719468) / 146097 * 400 <= c_year c
      <= (day + 719468) / 146097 * 400 + 400.
Proof.
  unfold civil_of_day.
  set (z := day + 719468).
  assert (Hdoe : 0 <= z mod 146097 < 146097)
    by (apply Z.mod_pos_bound; lia).
  pose proof (civil_of_cycle_day_back _ Hdoe) as Hok.
  destruct (civil_of_cycle_day (z mod 146097)) as [[yoe m] d].
  destruct Hok as (Hyoe & Hm & Hd & Hback).
  cbn [c_year c_month c_day].
  set (adj := if m <=? 2 then 1 else 0) in *.
  assert (Hadj : 0 <= adj <= 1) by (subst adj; destruct (m <=? 2); lia).
  split; [lia|]. split.
  - replace (yoe + z / 146097 * 400 + adj)
      with (yoe + adj + z / 146097 * 400) by lia.
    rewrite days_in_month_cycle. lia.
  - split; [|lia].
    unfold day_of_civil. fold adj.
    replace (yoe + z / 146097 * 400 + adj - adj)
      with (yoe + z / 146097 * 400) by lia.
    rewrite Z.div_add by lia. rewrite Z_mod_plus_full.
    rewrite (Z.div_small yoe 400) by lia.
    rewrite (Z.mod_small yoe 400) by lia.
    rewrite Hback. pose proof (Z.div_mod z 146097 ltac:(lia)). subst z. lia.
Qed.

Lemma pad6_six z :
  exists d1 d2 d3 d4 d5 d6, pad6 z = [d1; d2; d3; d4; d5; d6].
Proof. do 6 eexists. reflexivity. Qed.

Lemma digit_not_sign c :
  ((48 <=? c) && (c <=? 57))%N = true -> (c =? 43)%N = false /\ (c =? 45)%N = false.
Proof.
  rewrite andb_true_iff, !N.leb_le. intros [H1 H2].
  split; apply N.eqb_neq; lia.
Qed.

Lemma year_text_reads y a b c rest :
  -276000 <= y <= 276000 ->
  year_of_text (year_text y ++ a :: b :: c :: rest)
  = Some (y, a :: b :: c :: rest).
Proof.
  intros Hy. unfold year_text.
  destruct ((0 <=? y) && (y <=? 9999)) eqn:H4.
  - apply andb_true_iff in H4. destruct H4 as [H0 H9].
    apply Z.leb_le in H0, H9.
    destruct (pad4_reads y ltac:(lia)) as [Hr Hd].
    unfold pad4 in *. cbn [starts_with_digit] in Hd.
    destruct (digit_not_sign _ Hd) as [Hp Hm].
    rewrite <- ?app_comm_cons, ?app_nil_l. cbn [year_of_text].
    rewrite Hp, Hm, Hr. reflexivity.
  - destruct (y <? 0) eqn:Hneg.
    + apply Z.ltb_lt in Hneg.
      pose proof (pad6_reads (- y) ltac:(lia)) as Hr.
      destruct (pad6_six (- y)) as (d1 & d2 & d3 & d4 & d5 & d6 & E).
      rewrite E in Hr |- *. rewrite <- ?app_comm_cons, ?app_nil_l.
      cbn [year_of_text].
      change (45 =? 43)%N with false. change (45 =? 45)%N with true.
      cbv iota. rewrite Hr. cbn [mbind option_bind].
      replace (- y =? 0) with false by (symmetry; apply Z.eqb_neq; lia).
      rewrite Z.opp_involutive. reflexivity.
    + pose proof (pad6_reads y ltac:(lia)) as Hr.
      destruct (pad6_six y) as (d1 & d2 & d3 & d4 & d5 & d6 & E).
      rewrite E in Hr |- *. rewrite <- ?app_comm_cons, ?app_nil_l.
      cbn [year_of_text].
      change (43 =? 43)%N with true. cbv iota. rewrite Hr. reflexivity.
Qed.

Lemma in_range_bounds t :
  in_range t = true -> - maxTime <= t <= maxTime.
Proof.
  unfold in_range. rewrite andb_true_iff, !Z.leb_le. tauto.
Qed.

(** The string [toISOString] writes for an instant reads back as that
    instant. *)
Theorem parse_iso_toISOString t :
  in_range t = true -> parse_iso (toISOString t) = Some t.
Proof.
  intros Hin. pose proof (in_range_bounds t Hin) as Ht. unfold maxTime in Ht.
  unfold toISOString, parse_iso, msPerDay.
  set (day := t / 86400000). set (ms := t mod 86400000).
  set (seconds := ms / 1000). set (minutes := seconds / 60).
  set (hours := minutes / 60).
  destruct (civil_of_day_back day) as (Hm & Hd & Hback & Hy).
  set (c := civil_of_day day) in *. cbv zeta in Hm, Hd, Hback, Hy.
  assert (Hday : -100000000 <= day <= 100000000).
  { subst day. split.
    - apply Z.div_le_lower_bound; lia.
    - apply Z.div_le_upper_bound; lia. }
  assert (Hera : -680 <= (day + 719468) / 146097 <= 689).
  { split.
    - apply Z.div_le_lower_bound; lia.
    - apply Z.lt_succ_r. apply Z.div_lt_upper_bound; lia. }
  assert (Hms : 0 <= ms < 86400000) by (apply Z.mod_pos_bound; lia).
  assert (Hparts : 0 <= hours < 24 /\ 0 <= minutes mod 60 < 60
                   /\ 0 <= seconds mod 60 < 60 /\ 0 <= ms mod 1000 < 1000
                   /\ hours * 3600000 + minutes mod 60 * 60000
                      + seconds mod 60 * 1000 + ms mod 1000 = ms).
  { subst hours minutes seconds. clearbody ms. clear -Hms.
    Z.div_mod_to_equations. lia. }
  destruct Hparts as (Hh & Hmi & Hs & Hf & Hsum).
  assert (Hdim : days_in_month (c_year c) (c_month c) <= 31).
  { unfold days_in_month.
    repeat match goal with |- context [if ?b then _ else _] => destruct b end;
      lia. }
  unfold pad2 at 1 2 3 4 5, pad3.
  rewrite <- ?app_comm_cons, ?app_nil_l.
  rewrite (year_text_reads (c_year c)) by lia.
  cbn [mbind option_bind].
  change (45 =? 45)%N with true. change (84 =? 84)%N with true.
  change (58 =? 58)%N with true. change (46 =? 46)%N with true.
  change (90 =? 90)%N with true. cbn [andb].
  repeat match goal with
  | |- context [number_of_digits 0 [digit_unit (?x / 10); digit_unit ?x]] =>
      change [digit_unit (x / 10); digit_unit x] with (pad2 x);
      rewrite (pad2_reads x) by lia; cbn [mbind option_bind]
  end.
  change [digit_unit (ms mod 1000 / 100); digit_unit (ms mod 1000 / 10);
          digit_unit (ms mod 1000)] with (pad3 (ms mod 1000)).
  rewrite pad3_reads by lia. cbn [mbind option_bind].
  replace ((1 <=? c_month c) && (c_month c <=? 12) && (1 <=? c_day c)
           && (c_day c <=? days_in_month (c_year c) (c_month c))
           && (hours <=? 23) && (minutes mod 60 <=? 59)
           && (seconds mod 60 <=? 59)) with true.
  2:{ symmetry. rewrite !andb_true_iff, !Z.leb_le. lia. }
  rewrite Hback.
  assert (Hrec : day * 86400000 + hours * 3600000 + minutes mod 60 * 60000
                 + seconds mod 60 * 1000 + ms mod 1000 = t).
  { pose proof (Z.div_mod t 86400000 ltac:(lia)). subst day ms. lia. }
  rewrite Hrec, Hin. reflexivity.
Qed.

End DateTimeFacts.

(** ** Saving and reloading the patients *)

Lemma plain_storable v : plain v = true -> storable v = true.
Proof.
  induction v as [|b|x|s|l IH|ps IH|d|fl] using jsval_nested_ind;
    try reflexivity; try discriminate.
  - cbn [plain storable]. rewrite !forallb_forall.
    rewrite List.Forall_forall in IH. intros H x Hx. apply IH; auto.
  - cbn [plain storable]. rewrite !andb_true_iff, !forallb_forall.
    rewrite List.Forall_forall in IH. intros [Hd H]. split; [exact Hd|].
    intros kv Hx. apply IH; auto.
Qed.

Lemma plain_toJSON_pass v : plain v = true -> toJSON_pass v = v.
Proof.
  induction v as [|b|x|s|l IH|ps IH|d|fl] using jsval_nested_ind;
    try reflexivity; try discriminate.
  - cbn [plain toJSON_pass]. rewrite forallb_forall.
    rewrite List.Forall_forall in IH. intros H. f_equal.
    rewrite <- (List.map_id l) at 2. apply List.map_ext_in.
    intros x Hx. apply IH; auto.
  - cbn [plain toJSON_pass]. rewrite andb_true_iff, forallb_forall.
    rewrite List.Forall_forall in IH. intros [_ H]. f_equal.
    rewrite <- (List.map_id ps) at 2. apply List.map_ext_in.
    intros [k v] Hx. cbn [fst snd]. f_equal.
    apply (IH (k, v) Hx). apply (H (k, v) Hx).
Qed.

Lemma forEach_map {A} (f : jsval -> option jsval) (g h : A -> jsval)
  (l : list A) :
  Forall (fun x => f (g x) = Some (h x)) l ->
  forEach f (List.map g l) = Some (List.map h l).
Proof.
  induction 1 as [|x l Hx _ IH]; [reflexivity|].
  cbn [List.map forEach]. rewrite Hx, IH. reflexivity.
Qed.

Lemma val_of_image_storable img :
  plain (img_analysisResult img) = true ->
  storable (val_of_image (without_file img)) = true.
Proof.
  intros Hp. apply plain_storable in Hp.
  destruct img as [i url f payload ts]. cbn [img_analysisResult] in Hp.
  change (storable (val_of_image (without_file (mkLesionImage i url f payload ts))))
    with (true && (true && (true && (true && (storable payload && true))))).
  rewrite Hp. reflexivity.
Qed.

Lemma get_prop_last k v (front : list (jsstring * jsval)) :
  get_prop k front = None -> get_prop k (front ++ [(k, v)]) = Some v.
Proof.
  induction front as [|[k' v'] front IH]; cbn [get_prop].
  - intros _. change ([] ++ [(k, v)]) with [(k, v)]. cbn [get_prop].
    replace (jseqb k k) with true; [reflexivity|].
    clear. induction k as [|a k IH]; [reflexivity|].
    cbn [jseqb]. rewrite N.eqb_refl. exact IH.
  - rewrite <- app_comm_cons. cbn [get_prop].
    destruct (jseqb k' k); [discriminate|]. exact IH.
Qed.

Lemma set_prop_last k v v' (front : list (jsstring * jsval)) :
  get_prop k front = None ->
  set_prop k v' (front ++ [(k, v)]) = front ++ [(k, v')].
Proof.
  induction front as [|[k0 v0] front IH]; cbn [get_prop].
  - intros _. change ([] ++ [(k, v)]) with [(k, v)]. cbn [set_prop].
    replace (jseqb k k) with true; [reflexivity|].
    clear. induction k as [|a k IH]; [reflexivity|].
    cbn [jseqb]. rewrite N.eqb_refl. exact IH.
  - rewrite <- !app_comm_cons. cbn [set_prop].
    destruct (jseqb k0 k); [discriminate|]. intros H. rewrite (IH H).
    reflexivity.
Qed.

Lemma val_of_patient_split p :
  val_of_patient p
  = VObj (patient_front p
          ++ [(js "lesionImages",
               VArr (List.map val_of_image (p_lesionImages p)))]).
Proof.
  unfold val_of_patient, patient_front. rewrite <- !app_assoc. reflexivity.
Qed.

Lemma patient_front_with_lesionImages p imgs :
  patient_front (with_lesionImages p imgs) = patient_front p.
Proof. reflexivity. Qed.

Lemma patient_front_facts p :
  get_prop (js "lesionImages") (patient_front p) = None
  /\ List.map (fun kv => (fst kv, toJSON_pass (snd kv))) (patient_front p)
     = patient_front p
  /\ distinct_keys (List.map fst (patient_front p) ++ [js "lesionImages"])
     = true
  /\ forallb (fun kv => storable (snd kv)) (patient_front p) = true.
Proof.
  destruct p as [i pid n d g bt ec imgs]. unfold patient_front.
  cbn [p_id p_patientId p_name p_dob p_gender p_bloodType
       p_existingConditions].
  destruct pid, g, bt, ec; repeat split; reflexivity.
Qed.

Lemma toJSON_pass_image img t :
  img_timestamp img = Instant t ->
  plain (img_analysisResult img) = true ->
  toJSON_pass (val_of_image (without_file img))
  = VObj [(js "id", VStr (img_id img));
          (js "imageDataUrl", VStr (img_imageDataUrl img));
          (js "timestamp", VStr (DateTime.toISOString t));
          (js "analysisResult", img_analysisResult img)].
Proof.
  destruct img as [i url f payload ts].
  cbn [img_timestamp img_analysisResult img_id img_imageDataUrl].
  intros -> Hp.
  change (toJSON_pass (val_of_image (without_file
            (mkLesionImage i url f payload (Instant t)))))
    with (VObj [(js "id", VStr i); (js "imageDataUrl", VStr url);
                (js "timestamp", VStr (DateTime.toISOString t));
                (js "analysisResult", toJSON_pass payload)]).
  rewrite (plain_toJSON_pass payload Hp). reflexivity.
Qed.

Lemma rehydrate_stored_image Date_other img :
  image_storable img ->
  rehydrate_image Date_other (toJSON_pass (val_of_image (without_file img)))
  = Some (val_of_image (without_file img)).
Proof.
  intros [Hv Hp]. destruct (img_timestamp img) as [t|] eqn:Hts; [|destruct Hv].
  cbn [valid_Date] in Hv.
  rewrite (toJSON_pass_image img t Hts Hp).
  destruct img as [i url f payload ts]. cbn [img_timestamp] in Hts. subst ts.
  cbn [img_id img_imageDataUrl img_analysisResult].
  change (rehydrate_image Date_other
            (VObj [(js "id", VStr i); (js "imageDataUrl", VStr url);
                   (js "timestamp", VStr (DateTime.toISOString t));
                   (js "analysisResult", payload)]))
    with (Some (VObj [(js "id", VStr i); (js "imageDataUrl", VStr url);
                      (js "timestamp",
                       VDate (new_Date Date_other
                                (Some (VStr (DateTime.toISOString t)))));
                      (js "analysisResult", payload)])).
  cbn [new_Date]. rewrite (DateTimeFacts.parse_iso_toISOString t Hv).
  reflexivity.
Qed.

Lemma distinct_keys_snoc_fst (front : list (jsstring * jsval)) k v :
  List.map fst (front ++ [(k, v)]) = List.map fst front ++ [k].
Proof. rewrite List.map_app. reflexivity. Qed.

Lemma stored_patient_storable p :
  patient_storable p -> storable (val_of_patient (stored_patient p)) = true.
Proof.
  intros Hp. rewrite val_of_patient_split.
  unfold stored_patient. rewrite patient_front_with_lesionImages.
  destruct (patient_front_facts p) as (_ & _ & Hd & Hs).
  cbn [storable]. rewrite distinct_keys_snoc_fst, Hd.
  rewrite forallb_app, Hs. cbn [andb forallb snd storable p_lesionImages
                                with_lesionImages].
  rewrite andb_true_r. apply forallb_forall. intros v Hv.
  apply in_map_iff in Hv. destruct Hv as (img' & <- & Hv).
  apply in_map_iff in Hv. destruct Hv as (img & <- & Hv).
  apply val_of_image_storable.
  unfold patient_storable in Hp. rewrite List.Forall_forall in Hp.
  apply (Hp img Hv).
Qed.

Lemma toJSON_pass_patient p :
  toJSON_pass (val_of_patient (stored_patient p))
  = VObj (patient_front p
          ++ [(js "lesionImages",
               VArr (List.map (fun img => toJSON_pass (val_of_image (without_file img)))
                       (p_lesionImages p)))]).
Proof.
  rewrite val_of_patient_split.
  unfold stored_patient. rewrite patient_front_with_lesionImages.
  destruct (patient_front_facts p) as (_ & Hf & _ & _).
  cbn [toJSON_pass]. rewrite List.map_app, Hf.
  cbn [List.map fst snd toJSON_pass p_lesionImages with_lesionImages].
  rewrite !List.map_map. reflexivity.
Qed.

Lemma rehydrate_stored_patient Date_other p :
  patient_storable p ->
  rehydrate_patient Date_other (toJSON_pass (val_of_patient (stored_patient p)))
  = Some (val_of_patient (stored_patient p)).
Proof.
  intros Hp. rewrite toJSON_pass_patient.
  destruct (patient_front_facts p) as (Hg & _ & _ & _).
  cbn [rehydrate_patient]. rewrite (get_prop_last _ _ _ Hg).
  rewrite (forEach_map (rehydrate_image Date_other)
             (fun img => toJSON_pass (val_of_image (without_file img)))
             (fun img => val_of_image (without_file img))).
  - cbn [mbind option_bind]. rewrite (set_prop_last _ _ _ _ Hg).
    rewrite val_of_patient_split. unfold stored_patient.
    rewrite patient_front_with_lesionImages.
    cbn [p_lesionImages with_lesionImages]. rewrite List.map_map.
    reflexivity.
  - unfold patient_storable in Hp. eapply Forall_impl; [exact Hp|].
    intros img Hi. apply rehydrate_stored_image. exact Hi.
Qed.

Lemma getItem_saveState key state st :
  setItem key (JSON_stringify state) st <> None ->
  getItem key (saveState key state st) = Some (JSON_stringify state).
Proof.
  unfold saveState. destruct (setItem key (JSON_stringify state) st) as [st'|] eqn:E;
    [|congruence].
  intros _. unfold setItem in E.
  destruct (_ <=? _); [|discriminate]. injection E as <-.
  unfold getItem. cbn [items]. apply lookup_insert_eq.
Qed.

(** What [loadState] makes of the stored text of a collection of patients
    fit to be stored. *)
Lemma loadState_of_stored_patients Date_other defaultState patients st :
  Forall patient_storable patients ->
  getItem (js "patients") st
  = Some (JSON_stringify (val_of_patients (serializablePatients patients))) ->
  loadState Date_other (js "patients") defaultState st
  = val_of_patients (serializablePatients patients).
Proof.
  intros Hps Hg. unfold loadState. rewrite Hg.
  assert (Hst : storable (val_of_patients (serializablePatients patients)) = true).
  { unfold val_of_patients, serializablePatients. cbn [storable].
    apply forallb_forall. intros v Hv.
    apply in_map_iff in Hv. destruct Hv as (p' & <- & Hv).
    apply in_map_iff in Hv. destruct Hv as (p & <- & Hv).
    apply (stored_patient_storable p).
    rewrite List.Forall_forall in Hps. apply (Hps p Hv). }
  rewrite (JSON_parse_stringify _ Hst).
  change (jseqb (js "patients") (js "patients")) with true.
  unfold val_of_patients, serializablePatients.
  cbn [toJSON_pass isArray andb]. rewrite !List.map_map.
  rewrite (forEach_map (rehydrate_patient Date_other)
             (fun p => toJSON_pass (val_of_patient (stored_patient p)))
             (fun p => val_of_patient (stored_patient p))).
  - reflexivity.
  - eapply Forall_impl; [exact Hps|].
    intros p Hp. apply rehydrate_stored_patient. exact Hp.
Qed.

(** The program's own list of what it stores is the expected one. *)
Lemma serializablePatients_as_reloaded patients :
  serializablePatients patients = patients_as_reloaded patients.
Proof. reflexivity. Qed.

(** The runtime objects of the expected collection read, property by
    property, as the patients they come from. *)
Lemma reloaded_images_read imgs :
  Forall2 reads_as_image
    (List.map val_of_image (List.map image_as_reloaded imgs)) imgs.
Proof.
  induction imgs as [|img imgs IH]; [constructor|].
  cbn [List.map]. constructor; [|exact IH].
  destruct img as [i url f payload ts]. eexists. split; [reflexivity|].
  repeat split; reflexivity.
Qed.

Lemma reloaded_patient_reads p :
  reads_as_patient
    (val_of_patient
       (patient_holding p (List.map image_as_reloaded (p_lesionImages p)))) p.
Proof.
  destruct p as [i pid n d g bt ec imgs].
  cbn [p_lesionImages].
  destruct pid, g as [[]|], bt, ec;
    (eexists; eexists; split; [reflexivity|];
     do 8 (split; [reflexivity|]); apply reloaded_images_read).
Qed.

Lemma reloaded_patients_read patients :
  Forall2 reads_as_patient
    (List.map val_of_patient (patients_as_reloaded patients)) patients.
Proof.
  induction patients as [|p patients IH]; [constructor|].
  cbn [patients_as_reloaded List.map]. constructor; [|exact IH].
  apply reloaded_patient_reads.
Qed.




(** * Properties of the rest of the application *)

(** ** Logging in, signing up and the default user *)

Lemma find_ext {A} (f g : A -> bool) (l : list A) :
  (forall x, f x = g x) -> List.find f l = List.find g l.
Proof.
  intros H. induction l as [|x l IH]; [reflexivity|].
  cbn. rewrite H, IH. reflexivity.
Qed.

Lemma find_pred_Some {A} (f : A -> bool) (l : list A) x :
  List.find f l = Some x -> f x = true.
Proof. intros H. apply List.find_some in H. tauto. Qed.

Lemma handleLogin_found email password w :
  Exists (fun u => u_email u = email /\ u_password u = password)
    (users (app w)) ->
  handleLogin email password w = (Returned None, logged_in w).
Proof.
  unfold handleLogin, setIsLoggedIn. unfold_monad. intros Hex.
  destruct (find_some_Exists
              (fun u => bool_decide (u_email u = email)
                        && bool_decide (u_password u = password))
              (users (app w))) as (u & ->); [|reflexivity].
  eapply Exists_impl; [exact Hex|].
  intros u [He Hp]. cbn. rewrite !bool_decide_eq_true_2 by assumption.
  reflexivity.
Qed.

Lemma handleLogin_refused email password w :
  Forall (fun u => ~ (u_email u = email /\ u_password u = password))
    (users (app w)) ->
  handleLogin email password w
  = (Returned (Some (js "Invalid credentials. Please try again.")), w).
Proof.
  unfold handleLogin, setIsLoggedIn. unfold_monad. intros Hall.
  rewrite find_none_Forall; [reflexivity|].
  eapply Forall_impl; [exact Hall|].
  intros u Hu. cbn. apply andb_false_iff.
  destruct (decide (u_email u = email)) as [He|He].
  - right. apply bool_decide_eq_false_2. intros Hp. apply Hu. split; assumption.
  - left. apply bool_decide_eq_false_2. exact He.
Qed.

(** X1. [handleLogin] lets in exactly the holders of a stored pair of email
    and password: with such a user it raises the login flag and touches
    nothing else; with none it returns the error text and changes
    nothing. *)
Theorem handleLogin_accepts_stored_credentials_only email password w :
  (Exists (fun u => u_email u = email /\ u_password u = password)
     (users (app w)) ->
   handleLogin email password w = (Returned None, logged_in w))
  /\ (Forall (fun u => ~ (u_email u = email /\ u_password u = password))
        (users (app w)) ->
      handleLogin email password w
      = (Returned (Some (js "Invalid credentials. Please try again.")), w)).
Proof.
  split; [apply handleLogin_found | apply handleLogin_refused].
Qed.

Lemma handleSignUp_fresh env name email password w :
  Forall (fun u => u_email u <> email) (users (app w)) ->
  handleSignUp env name email password w
  = (Returned None,
     mkWorld
       (mkApp true
          (users (app w)
           ++ [mkUser (js "u" ++ Number_toString (clock env (ticks w)))
                 name email password])
          (view (app w)) (patients (app w)) (selectedPatientId (app w))
          (viewingImage (app w)))
       (detail w) (calls w) (S (ticks w))).
Proof.
  intros H. unfold handleSignUp.
  unfold mbind at 1, M_bind at 1, get_world at 1.
  rewrite find_none_Forall; [reflexivity|].
  eapply Forall_impl; [exact H|]. cbn. intros u Hu.
  apply bool_decide_eq_false_2. exact Hu.
Qed.

Lemma handleSignUp_taken env name email password w :
  Exists (fun u => u_email u = email) (users (app w)) ->
  handleSignUp env name email password w
  = (Returned (Some (js "An account with this email already exists.")), w).
Proof.
  intros H. unfold handleSignUp.
  unfold mbind at 1, M_bind at 1, get_world at 1.
  destruct (find_some_Exists
              (fun u => bool_decide (u_email u = email)) (users (app w)))
    as [u Hu]; [|rewrite Hu; reflexivity].
  eapply Exists_impl; [exact H|]. cbn. intros u Hu.
  apply bool_decide_eq_true_2. exact Hu.
Qed.

Lemma Forall_or_Exists_email email (us : list User) :
  Forall (fun u => u_email u <> email) us
  \/ Exists (fun u => u_email u = email) us.
Proof.
  induction us as [|u us [IH|IH]].
  - left. constructor.
  - destruct (decide (u_email u = email)) as [E|E].
    + right. left. exact E.
    + left. constructor; assumption.
  - right. right. exact IH.
Qed.

(** X2. Whoever signs up with an email nobody has can log out and log in
    again with the same email and password, and with that email and any
    other password is turned away. *)
Theorem signed_up_user_can_log_in_again env name email password w :
  Forall (fun u => u_email u <> email) (users (app w)) ->
  exists w1 w2 w3,
    handleSignUp env name email password w = (Returned None, w1)
    /\ handleLogout w1 = (Returned tt, w2)
    /\ isLoggedIn (app w2) = false
    /\ handleLogin email password w2 = (Returned None, w3)
    /\ isLoggedIn (app w3) = true
    /\ forall password',
         password' <> password ->
         handleLogin email password' w2
         = (Returned (Some (js "Invalid credentials. Please try again.")), w2).
Proof.
  intros Hnew. rewrite (handleSignUp_fresh env name email password w Hnew).
  eexists. exists (snd (handleLogout
                     (mkWorld
                        (mkApp true
                           (users (app w)
                            ++ [mkUser (js "u" ++ Number_toString (clock env (ticks w)))
                                  name email password])
                           (view (app w)) (patients (app w))
                           (selectedPatientId (app w)) (viewingImage (app w)))
                        (detail w) (calls w) (S (ticks w))))).
  eexists. split; [reflexivity|].
  split; [reflexivity|]. split; [reflexivity|].
  split; [|split].
  - apply handleLogin_found. cbn. apply Exists_app. right. left. cbn. auto.
  - reflexivity.
  - intros password' Hp. apply handleLogin_refused. cbn.
    apply Forall_app. split.
    + eapply Forall_impl; [exact Hnew|]. cbn. intros u Hu [He _]. auto.
    + constructor; [|constructor]. cbn. intros [_ Hq]. auto.
Qed.

Lemma signed_up_user_can_log_in_again_witness :
  exists w1 w2 w3,
    handleSignUp (env_answering (js "{}")) (js "Ann") (js "ann@clinic.com")
      (js "s3cret") (world_with_users [defaultUser]) = (Returned None, w1)
    /\ handleLogout w1 = (Returned tt, w2)
    /\ isLoggedIn (app w2) = false
    /\ handleLogin (js "ann@clinic.com") (js "s3cret") w2 = (Returned None, w3)
    /\ isLoggedIn (app w3) = true
    /\ forall password',
         password' <> js "s3cret" ->
         handleLogin (js "ann@clinic.com") password' w2
         = (Returned (Some (js "Invalid credentials. Please try again.")), w2).
Proof.
  refine (signed_up_user_can_log_in_again (env_answering (js "{}")) (js "Ann")
            (js "ann@clinic.com") (js "s3cret") (world_with_users [defaultUser]) _).
  repeat constructor. vm_compute. discriminate.
Defined.

(** X3. Signing up keeps the emails of the users pairwise distinct. *)
Theorem handleSignUp_keeps_emails_distinct env name email password w :
  NoDup (List.map u_email (users (app w))) ->
  NoDup (List.map u_email
           (users (app (snd (handleSignUp env name email password w))))).
Proof.
  intros Hnd.
  destruct (Forall_or_Exists_email email (users (app w))) as [Hnew|Htaken].
  - rewrite (handleSignUp_fresh env name email password w Hnew). cbn.
    rewrite List.map_app. cbn. apply NoDup_app. split; [exact Hnd|].
    split; [|apply NoDup_singleton].
    intros e He Hin. apply list_elem_of_singleton in Hin. subst e.
    apply list_elem_of_fmap in He. destruct He as (u & Hu & Hin).
    rewrite List.Forall_forall in Hnew.
    apply (Hnew u); [apply list_elem_of_In; exact Hin | auto].
  - rewrite (handleSignUp_taken env name email password w Htaken). exact Hnd.
Qed.

Lemma handleSignUp_keeps_emails_distinct_witness :
  NoDup (List.map u_email
           (users (app (snd (handleSignUp (env_answering (js "{}")) (js "Ann")
                               (js "ann@clinic.com") (js "s3cret")
                               (world_with_users [defaultUser; user_ann])))))).
Proof.
  refine (handleSignUp_keeps_emails_distinct (env_answering (js "{}"))
            (js "Ann") (js "ann@clinic.com") (js "s3cret")
            (world_with_users [defaultUser; user_ann]) _).
  cbn. repeat constructor; rewrite ?list_elem_of_In; vm_compute; intuition discriminate.
Defined.

Lemma existsb_email_false email (us : list User) :
  existsb (fun user => bool_decide (u_email user = email)) us = false
  <-> Forall (fun u => u_email u <> email) us.
Proof.
  induction us as [|u us IH]; cbn.
  - split; [constructor | reflexivity].
  - rewrite orb_false_iff, IH, bool_decide_eq_false. split.
    + intros [? ?]. constructor; assumption.
    + intros H. inversion H; subst. split; assumption.
Qed.

(** X4. The effect that seeds the default user keeps every user already
    there, in order, and adds at most the default user, last; afterwards
    some user has the default email; run again it changes nothing; and
    distinct emails stay distinct. *)
Theorem seed_default_user_adds_at_most_once prevUsers :
  (seed_default_user prevUsers = prevUsers
   \/ seed_default_user prevUsers = prevUsers ++ [defaultUser])
  /\ Exists (fun u => u_email u = defaultUserEmail) (seed_default_user prevUsers)
  /\ seed_default_user (seed_default_user prevUsers) = seed_default_user prevUsers
  /\ (NoDup (List.map u_email prevUsers) ->
      NoDup (List.map u_email (seed_default_user prevUsers))).
Proof.
  assert (Hex : forall us,
             existsb (fun user => bool_decide (u_email user = defaultUserEmail)) us
             = true ->
             Exists (fun u => u_email u = defaultUserEmail) us).
  { intros us H. apply existsb_exists in H. destruct H as (u & Hin & Hu).
    apply List.Exists_exists. exists u. split; [exact Hin|].
    apply bool_decide_eq_true in Hu. exact Hu. }
  assert (Hseeded : existsb
                      (fun user => bool_decide (u_email user = defaultUserEmail))
                      (prevUsers ++ [defaultUser]) = true).
  { rewrite existsb_app. cbn.
    rewrite bool_decide_eq_true_2 by reflexivity.
    rewrite orb_true_r. reflexivity. }
  destruct (existsb (fun user => bool_decide (u_email user = defaultUserEmail))
              prevUsers) eqn:E.
  - assert (Hs : seed_default_user prevUsers = prevUsers).
    { unfold seed_default_user. rewrite E. reflexivity. }
    rewrite !Hs. split; [left; reflexivity|].
    split; [apply Hex; exact E|]. split; [reflexivity|auto].
  - assert (Hs : seed_default_user prevUsers = prevUsers ++ [defaultUser]).
    { unfold seed_default_user. rewrite E. reflexivity. }
    rewrite !Hs. split; [right; reflexivity|].
    split; [apply Hex; exact Hseeded|].
    split.
    + rewrite <- Hs at 2. unfold seed_default_user at 1. rewrite Hs, Hseeded. reflexivity.
    + intros Hnd. rewrite List.map_app. cbn. apply NoDup_app.
      split; [exact Hnd|]. split; [|apply NoDup_singleton].
      intros e He Hin. apply list_elem_of_singleton in Hin. subst e.
      apply list_elem_of_fmap in He. destruct He as (u & Hu & Hin).
      apply existsb_email_false in E. rewrite List.Forall_forall in E.
      apply (E u); [apply list_elem_of_In; exact Hin | auto].
Qed.

(** X5. Once the default user has been seeded into a list that had no user
    with the default email, the default email and password log in. *)
Theorem default_user_can_log_in w :
  Forall (fun u => u_email u <> defaultUserEmail) (users (app w)) ->
  exists w1,
    ensure_default_user w = (Returned tt, w1)
    /\ users (app w1) = users (app w) ++ [defaultUser]
    /\ handleLogin (js "doctor@clinic.com") (js "12345") w1
       = (Returned None, logged_in w1).
Proof.
  intros H. apply existsb_email_false in H.
  assert (Hs : seed_default_user (users (app w))
               = users (app w) ++ [defaultUser]).
  { unfold seed_default_user. rewrite H. reflexivity. }
  exists (snd (ensure_default_user w)).
  split; [reflexivity|].
  assert (Hu : users (app (snd (ensure_default_user w)))
               = users (app w) ++ [defaultUser]) by exact Hs.
  split; [exact Hu|].
  apply handleLogin_found. rewrite Hu.
  apply Exists_app. right. left. split; reflexivity.
Qed.

Lemma default_user_can_log_in_witness :
  exists w1,
    ensure_default_user (world_with_users [user_ann]) = (Returned tt, w1)
    /\ users (app w1) = users (app (world_with_users [user_ann])) ++ [defaultUser]
    /\ handleLogin (js "doctor@clinic.com") (js "12345") w1
       = (Returned None, logged_in w1).
Proof.
  refine (default_user_can_log_in (world_with_users [user_ann]) _).
  repeat constructor. vm_compute. discriminate.
Defined.

(** A stored user who holds the default email under another password
    keeps it: nothing is seeded, and the default password is refused. *)
Example default_email_taken_blocks_default_password :
  let taken := mkUser (js "u1") (js "Eve") defaultUserEmail (js "other") in
  let w1 := snd (ensure_default_user (world_with_users [taken])) in
  users (app w1) = [taken]
  /\ fst (handleLogin defaultUserEmail (js "12345") w1)
     = Returned (Some (js "Invalid credentials. Please try again.")).
Proof. vm_compute. split; reflexivity. Qed.

Lemma selectedPatient_find a i :
  selectedPatientId a = Some i ->
  selectedPatient a
  = List.find (fun p => bool_decide (p_id p = i)) (patients a).
Proof.
  intros H. unfold selectedPatient. rewrite H. apply find_ext.
  intros p. apply bool_decide_ext. split; [intros [= ->]|intros ->]; reflexivity.
Qed.

(** X6. Selecting a patient and rendering: when some patient has the
    selected id, the detail view of the first such patient is rendered and
    rendering changes nothing; when none has, nothing is rendered, the
    selection is dropped and the next rendering shows the dashboard over
    the same patients. *)
Theorem select_then_render i w :
  isLoggedIn (app w) = true ->
  exists w1,
    handleSelectPatient i w = (Returned tt, w1)
    /\ match List.find (fun p => bool_decide (p_id p = i)) (patients (app w)) with
       | Some p =>
           p_id p = i
           /\ renderContent w1 = (Returned (DetailScreen p), w1)
           /\ mounted_patient (app w1) = Some p
       | None =>
           exists w2,
             renderContent w1 = (Returned NoScreen, w2)
             /\ view (app w2) = dashboard
             /\ selectedPatientId (app w2) = None
             /\ patients (app w2) = patients (app w)
             /\ mounted_patient (app w2) = None
             /\ renderContent w2
                = (Returned (DashboardScreen (patients (app w))), w2)
       end.
Proof.
  intros Hin.
  set (w1 := mkWorld (mkApp (isLoggedIn (app w)) (users (app w)) patientDetail
                        (patients (app w)) (Some i) (viewingImage (app w)))
               (detail w) (calls w) (ticks w)).
  exists w1. split; [reflexivity|].
  assert (Hsel : selectedPatient (app w1)
                 = List.find (fun p => bool_decide (p_id p = i))
                     (patients (app w))).
  { apply (selectedPatient_find (app w1) i). reflexivity. }
  unfold renderContent, mounted_patient, handleBackToDashboard,
    setSelectedPatientId, setView.
  unfold_monad. rewrite Hsel.
  destruct (List.find _ (patients (app w))) as [p|] eqn:E.
  - split.
    { apply find_pred_Some in E. apply bool_decide_eq_true in E. exact E. }
    subst w1. cbn. rewrite Hin. cbn. split; reflexivity.
  - eexists. subst w1. cbn. rewrite Hin. cbn.
    split; [reflexivity|]. cbn. rewrite ?Hin. cbn. repeat split.
Qed.

Lemma select_then_render_witness :
  exists w1,
    handleSelectPatient (js "p2") (world_viewing initialPatients idle_detail)
    = (Returned tt, w1)
    /\ match List.find (fun p => bool_decide (p_id p = js "p2"))
               (patients (app (world_viewing initialPatients idle_detail))) with
       | Some p =>
           p_id p = js "p2"
           /\ renderContent w1 = (Returned (DetailScreen p), w1)
           /\ mounted_patient (app w1) = Some p
       | None =>
           exists w2,
             renderContent w1 = (Returned NoScreen, w2)
             /\ view (app w2) = dashboard
             /\ selectedPatientId (app w2) = None
             /\ patients (app w2)
                = patients (app (world_viewing initialPatients idle_detail))
             /\ mounted_patient (app w2) = None
             /\ renderContent w2
                = (Returned (DashboardScreen
                               (patients (app (world_viewing initialPatients
                                                 idle_detail)))), w2)
       end.
Proof.
  refine (select_then_render (js "p2")
            (world_viewing initialPatients idle_detail) _).
  reflexivity.
Defined.

(** X7. Logging out and in again lands on the dashboard over the same
    patients and users, whatever was on the screen before.  The state of
    the patient detail view does not survive: the rendering after the
    logout takes the view off the screen, and from then on that state is
    the one the view starts from. *)
Theorem logout_then_login_shows_dashboard email password w :
  Exists (fun u => u_email u = email /\ u_password u = password)
    (users (app w)) ->
  exists w1 w2 w3 w4,
    handleLogout w = (Returned tt, w1)
    /\ App_render w1 = (Returned AuthScreen, w2)
    /\ mounted_patient (app w2) = None
    /\ detail w2 = mkDetail false None None None false None
    /\ handleLogin email password w2 = (Returned None, w3)
    /\ App_render w3 = (Returned (DashboardScreen (patients (app w))), w4)
    /\ (isLoggedIn (app w4), users (app w4), patients (app w4))
       = (true, users (app w), patients (app w))
    /\ mounted_patient (app w4) = None
    /\ detail w4 = mkDetail false None None None false None.
Proof.
  intros H.
  exists (mkWorld (mkApp false (users (app w)) dashboard (patients (app w))
                     None (viewingImage (app w)))
            (detail w) (calls w) (ticks w)).
  exists (mkWorld (mkApp false (users (app w)) dashboard (patients (app w))
                     None (viewingImage (app w)))
            (mkDetail false None None None false None) (calls w) (ticks w)).
  exists (mkWorld (mkApp true (users (app w)) dashboard (patients (app w))
                     None (viewingImage (app w)))
            (mkDetail false None None None false None) (calls w) (ticks w)).
  exists (mkWorld (mkApp true (users (app w)) dashboard (patients (app w))
                     None (viewingImage (app w)))
            (mkDetail false None None None false None) (calls w) (ticks w)).
  split; [reflexivity|]. split; [reflexivity|]. split; [reflexivity|].
  split; [reflexivity|].
  split; [apply handleLogin_found; exact H|].
  repeat split.
Qed.

Lemma logout_then_login_shows_dashboard_witness :
  exists w1 w2 w3 w4,
    handleLogout world_of_doctor = (Returned tt, w1)
    /\ App_render w1 = (Returned AuthScreen, w2)
    /\ mounted_patient (app w2) = None
    /\ detail w2 = mkDetail false None None None false None
    /\ handleLogin (js "doctor@clinic.com") (js "12345") w2
       = (Returned None, w3)
    /\ App_render w3
       = (Returned (DashboardScreen (patients (app world_of_doctor))), w4)
    /\ (isLoggedIn (app w4), users (app w4), patients (app w4))
       = (true, users (app world_of_doctor), patients (app world_of_doctor))
    /\ mounted_patient (app w4) = None
    /\ detail w4 = mkDetail false None None None false None.
Proof.
  refine (logout_then_login_shows_dashboard (js "doctor@clinic.com") (js "12345")
            world_of_doctor _).
  vm_compute. left. split; reflexivity.
Defined.

(** A selection made in the detail view is gone once the view has been
    left: the detail view mounted next starts with nothing selected. *)
Example selection_is_lost_with_the_view :
  let w0 := world_viewing [patient_P] (selecting "img_100" "img_200") in
  let w1 := snd (handleBackToDashboard w0) in
  let w2 := snd (App_render w1) in
  let w3 := snd (handleSelectPatient (js "p1") w2) in
  App_render w3 = (Returned (DetailScreen patient_P), w3)
  /\ detail w3 = PatientDetailView_initial
  /\ detail w0 <> detail w3.
Proof. vm_compute. repeat split. discriminate. Qed.

(** ** The sign-in form *)

(** X8. A sign-up form whose confirmation differs from the password, or
    whose name is empty, is turned down by the form itself: the world is
    left as it was whatever the callbacks are, so no account is created
    and nobody is logged in; the mismatch is reported first. *)
Theorem handleSubmit_turns_down_bad_sign_up onLogin onSignUp form s w :
  AuthView.authMode s = AuthView.signup ->
  AuthView.isLoading s = false ->
  AuthView.password form <> AuthView.confirm_password form
  \/ AuthView.name form = [] ->
  AuthView.handleSubmit onLogin onSignUp form s w
  = (Returned tt,
     (AuthView.mkState AuthView.signup
        (Some (if bool_decide (AuthView.password form
                               = AuthView.confirm_password form)
               then js "Full name is required."
               else js "Passwords do not match."))
        false, w)).
Proof.
  intros Hm Hl Hbad. unfold AuthView.handleSubmit. rewrite Hm, Hl.
  destruct (bool_decide_reflect
              (AuthView.password form = AuthView.confirm_password form))
    as [Heq|Hne]; cbn [negb].
  - destruct Hbad as [Hbad|Hname]; [contradiction|].
    rewrite Hname. reflexivity.
  - reflexivity.
Qed.

Lemma handleSubmit_turns_down_bad_sign_up_witness :
  AuthView.handleSubmit handleLogin (handleSignUp (env_answering (js "{}")))
    (AuthView.mkForm (js "Ann") (js "ann@clinic.com") (js "s3cret") (js "secret"))
    (auth_idle AuthView.signup) (world_viewing initialPatients idle_detail)
  = (Returned tt,
     (AuthView.mkState AuthView.signup (Some (js "Passwords do not match."))
        false, world_viewing initialPatients idle_detail)).
Proof.
  refine (handleSubmit_turns_down_bad_sign_up handleLogin
            (handleSignUp (env_answering (js "{}")))
            (AuthView.mkForm (js "Ann") (js "ann@clinic.com") (js "s3cret")
               (js "secret"))
            (auth_idle AuthView.signup)
            (world_viewing initialPatients idle_detail) _ _ _).
  - reflexivity.
  - reflexivity.
  - left. vm_compute. discriminate.
Defined.

(** X9. A complete sign-up form with an email nobody has creates the
    account and logs in, and the form shows no error. *)
Theorem handleSubmit_signs_up env form s w :
  AuthView.authMode s = AuthView.signup ->
  AuthView.isLoading s = false ->
  AuthView.password form = AuthView.confirm_password form ->
  AuthView.name form <> [] ->
  Forall (fun u => u_email u <> AuthView.email form) (users (app w)) ->
  exists w',
    AuthView.handleSubmit handleLogin (handleSignUp env) form s w
    = (Returned tt, (AuthView.mkState AuthView.signup None false, w'))
    /\ isLoggedIn (app w') = true
    /\ users (app w')
       = users (app w)
         ++ [mkUser (js "u" ++ Number_toString (clock env (ticks w)))
               (AuthView.name form) (AuthView.email form)
               (AuthView.password form)]
    /\ patients (app w') = patients (app w).
Proof.
  intros Hm Hl Hpw Hname Hnew. unfold AuthView.handleSubmit.
  rewrite Hm, Hl. rewrite bool_decide_eq_true_2 by exact Hpw. cbn [negb].
  destruct (AuthView.name form) as [|c name] eqn:En; [contradiction|].
  cbn [falsy]. rewrite (handleSignUp_fresh env _ _ _ w Hnew).
  eexists. split; [reflexivity|]. repeat split.
Qed.

Lemma handleSubmit_signs_up_witness :
  exists w',
    AuthView.handleSubmit handleLogin (handleSignUp (env_answering (js "{}")))
      (AuthView.mkForm (js "Ann") (js "ann@clinic.com") (js "s3cret")
         (js "s3cret"))
      (auth_idle AuthView.signup) (world_with_users [defaultUser])
    = (Returned tt, (AuthView.mkState AuthView.signup None false, w'))
    /\ isLoggedIn (app w') = true
    /\ users (app w')
       = users (app (world_with_users [defaultUser]))
         ++ [mkUser (js "u" ++ Number_toString
                                 (clock (env_answering (js "{}"))
                                    (ticks (world_with_users [defaultUser]))))
               (js "Ann") (js "ann@clinic.com") (js "s3cret")]
    /\ patients (app w') = patients (app (world_with_users [defaultUser])).
Proof.
  refine (handleSubmit_signs_up (env_answering (js "{}"))
            (AuthView.mkForm (js "Ann") (js "ann@clinic.com") (js "s3cret")
               (js "s3cret"))
            (auth_idle AuthView.signup) (world_with_users [defaultUser])
            _ _ _ _ _).
  - reflexivity.
  - reflexivity.
  - reflexivity.
  - vm_compute. discriminate.
  - repeat constructor. vm_compute. discriminate.
Defined.

(** X10. In login mode the form shows what [handleLogin] answers: with a
    stored pair of email and password the user is logged in and no error
    is shown; with any other pair the error text is shown and the world is
    left as it was.  Either way the loading flag is lowered again, and
    while it is raised a submit does nothing. *)
Theorem handleSubmit_logs_in onSignUp form s w :
  AuthView.authMode s = AuthView.login ->
  (AuthView.isLoading s = true ->
   AuthView.handleSubmit handleLogin onSignUp form s w
   = (Returned tt, (s, w)))
  /\ (AuthView.isLoading s = false ->
      Exists (fun u => u_email u = AuthView.email form
                       /\ u_password u = AuthView.password form)
        (users (app w)) ->
      AuthView.handleSubmit handleLogin onSignUp form s w
      = (Returned tt,
         (AuthView.mkState AuthView.login None false, logged_in w)))
  /\ (AuthView.isLoading s = false ->
      Forall (fun u => ~ (u_email u = AuthView.email form
                          /\ u_password u = AuthView.password form))
        (users (app w)) ->
      AuthView.handleSubmit handleLogin onSignUp form s w
      = (Returned tt,
         (AuthView.mkState AuthView.login
            (Some (js "Invalid credentials. Please try again.")) false, w))).
Proof.
  intros Hm. unfold AuthView.handleSubmit. rewrite Hm. split; [|split].
  - intros ->. reflexivity.
  - intros -> Hex. rewrite (handleLogin_found _ _ w Hex). reflexivity.
  - intros -> Hall. rewrite (handleLogin_refused _ _ w Hall). reflexivity.
Qed.

Lemma handleSubmit_logs_in_witness :
  (AuthView.isLoading (auth_idle AuthView.login) = true ->
   AuthView.handleSubmit handleLogin (handleSignUp (env_answering (js "{}")))
     (AuthView.mkForm [] (js "doctor@clinic.com") (js "12345") [])
     (auth_idle AuthView.login) (world_with_users [defaultUser])
   = (Returned tt, (auth_idle AuthView.login, world_with_users [defaultUser])))
  /\ (AuthView.isLoading (auth_idle AuthView.login) = false ->
      Exists (fun u => u_email u = js "doctor@clinic.com"
                       /\ u_password u = js "12345")
        (users (app (world_with_users [defaultUser]))) ->
      AuthView.handleSubmit handleLogin (handleSignUp (env_answering (js "{}")))
        (AuthView.mkForm [] (js "doctor@clinic.com") (js "12345") [])
        (auth_idle AuthView.login) (world_with_users [defaultUser])
      = (Returned tt,
         (AuthView.mkState AuthView.login None false,
          logged_in (world_with_users [defaultUser]))))
  /\ (AuthView.isLoading (auth_idle AuthView.login) = false ->
      Forall (fun u => ~ (u_email u = js "doctor@clinic.com"
                          /\ u_password u = js "12345"))
        (users (app (world_with_users [defaultUser]))) ->
      AuthView.handleSubmit handleLogin (handleSignUp (env_answering (js "{}")))
        (AuthView.mkForm [] (js "doctor@clinic.com") (js "12345") [])
        (auth_idle AuthView.login) (world_with_users [defaultUser])
      = (Returned tt,
         (AuthView.mkState AuthView.login
            (Some (js "Invalid credentials. Please try again.")) false,
          world_with_users [defaultUser]))).
Proof.
  refine (handleSubmit_logs_in (handleSignUp (env_answering (js "{}")))
            (AuthView.mkForm [] (js "doctor@clinic.com") (js "12345") [])
            (auth_idle AuthView.login) (world_with_users [defaultUser]) _).
  reflexivity.
Defined.

(** ** The form for a new patient *)

(** X11. The Save Patient button: with a name and a date of birth, one
    patient is put in front of the others, carrying the fields of the form
    as they are (the empty ones as empty strings) and no image, and the
    modal is closed; without one of them nothing at all changes. *)
Theorem click_Save_adds_the_patient_of_the_form env formData showModal w :
  DashboardView.click_Save (handleAddPatient env) formData showModal w
  = if bool_decide (AddPatientModal.name formData = [])
       || bool_decide (AddPatientModal.dob formData = [])
    then (Returned tt, (showModal, w))
    else
      (Returned tt,
       (false,
        mkWorld
          (mkApp (isLoggedIn (app w)) (users (app w)) (view (app w))
             (mkPatient (js "p" ++ Number_toString (clock env (ticks w)))
                (Some (AddPatientModal.patientId formData))
                (AddPatientModal.name formData)
                (AddPatientModal.dob formData)
                (Some (AddPatientModal.gender formData))
                (Some (AddPatientModal.bloodType formData))
                (Some (AddPatientModal.existingConditions formData)) []
              :: patients (app w))
             (selectedPatientId (app w)) (viewingImage (app w)))
          (detail w) (calls w) (S (ticks w)))).
Proof.
  unfold DashboardView.click_Save.
  destruct (AddPatientModal.name formData) as [|c n] eqn:En; [reflexivity|].
  destruct (AddPatientModal.dob formData) as [|c' d] eqn:Ed; [reflexivity|].
  cbn [falsy negb andb]. unfold DashboardView.handleSavePatient, handleAddPatient,
    AddPatientModal.as_patient_data, Date_now, setPatients.
  unfold_monad. cbn. rewrite En, Ed. reflexivity.
Qed.

(** The button and the modal's own [handleSave] act alike on the world. *)
Lemma click_Save_handleSave onAddPatient formData showModal w :
  let '(r, (_, w')) :=
    DashboardView.click_Save onAddPatient formData showModal w in
  AddPatientModal.save onAddPatient formData w = (r, w').
Proof.
  unfold DashboardView.click_Save, AddPatientModal.save, handleSave,
    DashboardView.handleSavePatient.
  cbn [d_name d_dob AddPatientModal.as_patient_data].
  destruct (negb _ && negb _); [|reflexivity].
  destruct (onAddPatient _ w) as [[[]|e|] w']; reflexivity.
Qed.

(** From any state of the form, entering a name and a date of birth
    and pressing Save Patient adds a patient with that name and date of
    birth in front, the other fields being those the form held; the form
    as it opens saves nothing. *)
Theorem entered_name_and_dob_are_saved env formData name dob showModal w :
  name <> [] -> dob <> [] ->
  let formData' :=
    AddPatientModal.handleChange (AddPatientModal.change_dob dob)
      (AddPatientModal.handleChange (AddPatientModal.change_name name)
         formData) in
  (exists newPatient w',
     DashboardView.click_Save (handleAddPatient env) formData' showModal w
     = (Returned tt, (false, w'))
     /\ patients (app w') = newPatient :: patients (app w)
     /\ p_name newPatient = name
     /\ p_dob newPatient = dob
     /\ p_patientId newPatient = Some (AddPatientModal.patientId formData)
     /\ p_gender newPatient = Some (AddPatientModal.gender formData)
     /\ p_lesionImages newPatient = [])
  /\ DashboardView.click_Save (handleAddPatient env) AddPatientModal.initial
       showModal w
     = (Returned tt, (showModal, w)).
Proof.
  intros Hn Hd. cbv zeta. split; [|reflexivity].
  destruct name as [|c name]; [contradiction|].
  destruct dob as [|c' dob]; [contradiction|].
  do 2 eexists. split; [reflexivity|]. repeat split.
Qed.

Lemma entered_name_and_dob_are_saved_witness :
  let formData' :=
    AddPatientModal.handleChange (AddPatientModal.change_dob (js "1990-01-01"))
      (AddPatientModal.handleChange (AddPatientModal.change_name (js "Ada"))
         AddPatientModal.initial) in
  (exists newPatient w',
     DashboardView.click_Save (handleAddPatient (env_answering (js "{}")))
       formData' true (world_viewing initialPatients idle_detail)
     = (Returned tt, (false, w'))
     /\ patients (app w')
        = newPatient :: patients (app (world_viewing initialPatients idle_detail))
     /\ p_name newPatient = js "Ada"
     /\ p_dob newPatient = js "1990-01-01"
     /\ p_patientId newPatient
        = Some (AddPatientModal.patientId AddPatientModal.initial)
     /\ p_gender newPatient
        = Some (AddPatientModal.gender AddPatientModal.initial)
     /\ p_lesionImages newPatient = [])
  /\ DashboardView.click_Save (handleAddPatient (env_answering (js "{}")))
       AddPatientModal.initial true (world_viewing initialPatients idle_detail)
     = (Returned tt, (true, world_viewing initialPatients idle_detail)).
Proof.
  refine (entered_name_and_dob_are_saved (env_answering (js "{}"))
            AddPatientModal.initial (js "Ada") (js "1990-01-01") true
            (world_viewing initialPatients idle_detail) _ _);
    vm_compute; discriminate.
Defined.

(** ** Patients added in a row *)

(** X12. Two patients added one after the other get the same id exactly
    when the clock reads the same millisecond both times. *)
Theorem patients_added_in_a_row_share_an_id_iff_same_reading env d1 d2 w :
  exists p1 p2 w',
    (handleAddPatient env d1;; handleAddPatient env d2) w = (Returned tt, w')
    /\ patients (app w') = p2 :: p1 :: patients (app w)
    /\ (p_id p1 = p_id p2
        <-> clock env (ticks w) = clock env (S (ticks w))).
Proof.
  exists (mkPatient (js "p" ++ Number_toString (clock env (ticks w)))
            (d_patientId d1) (d_name d1) (d_dob d1) (d_gender d1)
            (d_bloodType d1) (d_existingConditions d1) []).
  exists (mkPatient (js "p" ++ Number_toString (clock env (S (ticks w))))
            (d_patientId d2) (d_name d2) (d_dob d2) (d_gender d2)
            (d_bloodType d2) (d_existingConditions d2) []).
  exists (snd ((handleAddPatient env d1;; handleAddPatient env d2) w)).
  split; [reflexivity|]. split; [reflexivity|].
  cbn [p_id]. split.
  - intros H. apply app_inv_head in H. apply Number_toString_inj in H. exact H.
  - intros ->. reflexivity.
Qed.

(** ** The session across a reload *)

Lemma jseqb_eq a b : jseqb a b = true <-> a = b.
Proof.
  revert b. induction a as [|x a IH]; intros [|y b]; cbn;
    try (split; [discriminate|discriminate]); [tauto|].
  rewrite andb_true_iff, N.eqb_eq, IH. split.
  - intros [-> ->]. reflexivity.
  - intros [= -> ->]. auto.
Qed.

Lemma jseqb_neq a b : a <> b -> jseqb a b = false.
Proof.
  intros H. destruct (jseqb a b) eqn:E; [|reflexivity].
  apply jseqb_eq in E. contradiction.
Qed.

Lemma getItem_setItem_ne key key' value st st' :
  setItem key value st = Some st' -> key' <> key ->
  getItem key' st' = getItem key' st.
Proof.
  unfold setItem, getItem. destruct (_ <=? _); [|discriminate].
  intros [= <-] Hne. cbn [items]. apply lookup_insert_ne. auto.
Qed.

Lemma getItem_setItem_eq key value st st' :
  setItem key value st = Some st' -> getItem key st' = Some value.
Proof.
  unfold setItem, getItem. destruct (_ <=? _); [|discriminate].
  intros [= <-]. cbn [items]. apply lookup_insert_eq.
Qed.

Lemma getItem_saveState_ne key key' state st :
  key' <> key -> getItem key' (saveState key state st) = getItem key' st.
Proof.
  intros Hne. unfold saveState.
  destruct (setItem key (JSON_stringify state) st) as [st'|] eqn:E;
    [|reflexivity].
  apply (getItem_setItem_ne _ _ _ _ _ E Hne).
Qed.

Lemma getItem_persist_isLoggedIn_ne b key st st' :
  persist_isLoggedIn b st = Some st' -> key <> js "isLoggedIn" ->
  getItem key st' = getItem key st.
Proof.
  unfold persist_isLoggedIn. destruct b.
  - intros E Hne. apply (getItem_setItem_ne _ _ _ _ _ E Hne).
  - intros [= <-] Hne. unfold getItem, removeItem. cbn [items].
    apply lookup_delete_ne. auto.
Qed.

(** X13. [saveState] under one key never changes what [loadState] returns
    under another, whether the write was accepted or not. *)
Theorem saveState_leaves_other_keys Date_other key key' state defaultState st :
  key' <> key ->
  loadState Date_other key' defaultState (saveState key state st)
  = loadState Date_other key' defaultState st.
Proof.
  intros Hne. unfold loadState. rewrite (getItem_saveState_ne _ _ _ _ Hne).
  reflexivity.
Qed.

Lemma saveState_leaves_other_keys_witness :
  loadState (fun _ => InvalidDate) (js "patients")
    (val_of_patients initialPatients)
    (saveState (js "users") (VArr [val_of_user defaultUser])
       (persist_patients [patient_Q] roomy_store))
  = loadState (fun _ => InvalidDate) (js "patients")
      (val_of_patients initialPatients)
      (persist_patients [patient_Q] roomy_store).
Proof.
  refine (saveState_leaves_other_keys (fun _ => InvalidDate) (js "users")
            (js "patients") (VArr [val_of_user defaultUser])
            (val_of_patients initialPatients)
            (persist_patients [patient_Q] roomy_store) _).
  vm_compute. discriminate.
Defined.

Lemma loadState_of_stored Date_other key defaultState state st :
  key <> js "patients" ->
  storable state = true ->
  getItem key st = Some (JSON_stringify state) ->
  loadState Date_other key defaultState st = toJSON_pass state.
Proof.
  intros Hk Hs Hg. unfold loadState. rewrite Hg.
  rewrite (JSON_parse_stringify _ Hs). rewrite (jseqb_neq _ _ Hk).
  reflexivity.
Qed.

(** X14. Under any key other than the patients' one, a state without
    numbers and repeated keys that the store accepted is loaded back as it
    was saved, its [Date]s as their ISO strings and its [File]s as empty
    objects. *)
Theorem saveState_then_loadState Date_other key defaultState state st :
  key <> js "patients" ->
  storable state = true ->
  setItem key (JSON_stringify state) st <> None ->
  loadState Date_other key defaultState (saveState key state st)
  = toJSON_pass state.
Proof.
  intros Hk Hs Hset. apply loadState_of_stored; [exact Hk|exact Hs|].
  apply getItem_saveState. exact Hset.
Qed.

Lemma saveState_then_loadState_witness :
  loadState (fun _ => InvalidDate) (js "users") (VArr [])
    (saveState (js "users") (VArr [val_of_user defaultUser; val_of_user user_ann])
       roomy_store)
  = toJSON_pass (VArr [val_of_user defaultUser; val_of_user user_ann]).
Proof.
  refine (saveState_then_loadState (fun _ => InvalidDate) (js "users") (VArr [])
            (VArr [val_of_user defaultUser; val_of_user user_ann])
            roomy_store _ _ _).
  - vm_compute. discriminate.
  - reflexivity.
  - vm_compute. discriminate.
Defined.

Lemma val_of_users_plain (us : list User) :
  plain (VArr (List.map val_of_user us)) = true.
Proof.
  cbn [plain]. apply forallb_forall. intros v Hv.
  apply in_map_iff in Hv. destruct Hv as (u & <- & _). reflexivity.
Qed.

Lemma initial_isLoggedIn_persisted b st st' :
  persist_isLoggedIn b st = Some st' -> initial_isLoggedIn st' = b.
Proof.
  intros H. unfold persist_isLoggedIn in H. unfold initial_isLoggedIn.
  destruct b.
  - rewrite (getItem_setItem_eq _ _ _ _ H). reflexivity.
  - injection H as <-. unfold getItem, removeItem. cbn [items].
    rewrite lookup_delete_eq. reflexivity.
Qed.

(** X15. The login flag across a reload: when its effect went through, the
    flag read at start-up is the flag persisted, and no other key of the
    store was touched; persisting a lowered flag always goes through. *)
Theorem login_flag_survives_reload b st st' :
  persist_isLoggedIn b st = Some st' ->
  initial_isLoggedIn st' = b
  /\ (forall key, key <> js "isLoggedIn" -> getItem key st' = getItem key st)
  /\ persist_isLoggedIn false st' <> None.
Proof.
  intros H. split; [|split].
  - apply (initial_isLoggedIn_persisted _ _ _ H).
  - intros key Hk. apply (getItem_persist_isLoggedIn_ne _ _ _ _ H Hk).
  - discriminate.
Qed.

Lemma login_flag_survives_reload_witness :
  initial_isLoggedIn
    (mkStorage (<[js "isLoggedIn" := js "true"]> (items roomy_store))
       (quota roomy_store)) = true
  /\ (forall key, key <> js "isLoggedIn" ->
      getItem key
        (mkStorage (<[js "isLoggedIn" := js "true"]> (items roomy_store))
           (quota roomy_store))
      = getItem key roomy_store)
  /\ persist_isLoggedIn false
       (mkStorage (<[js "isLoggedIn" := js "true"]> (items roomy_store))
          (quota roomy_store)) <> None.
Proof.
  refine (login_flag_survives_reload true roomy_store
            (mkStorage (<[js "isLoggedIn" := js "true"]> (items roomy_store))
               (quota roomy_store)) _).
  vm_compute. reflexivity.
Defined.

(** X16. A reload after the three persistence effects went through starts
    from the same login flag, the same users and the same patients, each
    image without its file: what is loaded for the patients is the array
    of those patients, and it reads, property by property, as the patients
    of the session. *)
Theorem reload_restores_the_session Date_other a st st' :
  setItem (js "users") (JSON_stringify (VArr (List.map val_of_user (users a))))
    st <> None ->
  setItem (js "patients")
    (JSON_stringify (val_of_patients (patients_as_reloaded (patients a))))
    (persist_users (users a) st) <> None ->
  persist a st = Some st' ->
  Forall patient_storable (patients a) ->
  initial_isLoggedIn st' = isLoggedIn a
  /\ initial_users Date_other st' = VArr (List.map val_of_user (users a))
  /\ initial_patients Date_other st'
     = val_of_patients (patients_as_reloaded (patients a))
  /\ exists records,
       initial_patients Date_other st' = VArr records
       /\ Forall2 reads_as_patient records (patients a).
Proof.
  intros Hu Hp Hl Hst. unfold persist in Hl.
  assert (H : initial_patients Date_other st'
              = val_of_patients (patients_as_reloaded (patients a))).
  { rewrite <- serializablePatients_as_reloaded.
    unfold initial_patients. apply loadState_of_stored_patients; [exact Hst|].
    rewrite (getItem_persist_isLoggedIn_ne _ _ _ _ Hl)
      by (vm_compute; discriminate).
    apply getItem_saveState.
    rewrite serializablePatients_as_reloaded. exact Hp. }
  split; [|split; [|split]].
  - apply (initial_isLoggedIn_persisted _ _ _ Hl).
  - unfold initial_users.
    rewrite <- (plain_toJSON_pass _ (val_of_users_plain (users a))).
    apply loadState_of_stored.
    + vm_compute. discriminate.
    + apply plain_storable, val_of_users_plain.
    + rewrite (getItem_persist_isLoggedIn_ne _ _ _ _ Hl)
        by (vm_compute; discriminate).
      unfold persist_patients.
      rewrite getItem_saveState_ne by (vm_compute; discriminate).
      apply getItem_saveState. exact Hu.
  - exact H.
  - exists (List.map val_of_patient (patients_as_reloaded (patients a))).
    split; [exact H|]. apply reloaded_patients_read.
Qed.

Lemma reload_restores_the_session_witness :
  exists st',
    persist session_of_doctor roomy_store = Some st'
    /\ initial_isLoggedIn st' = isLoggedIn session_of_doctor
    /\ initial_users (fun _ => InvalidDate) st'
       = VArr (List.map val_of_user (users session_of_doctor))
    /\ initial_patients (fun _ => InvalidDate) st'
       = val_of_patients (patients_as_reloaded (patients session_of_doctor))
    /\ exists records,
         initial_patients (fun _ => InvalidDate) st' = VArr records
         /\ Forall2 reads_as_patient records (patients session_of_doctor).
Proof.
  destruct (persist session_of_doctor roomy_store) as [st'|] eqn:E;
    [|vm_compute in E; discriminate].
  exists st'. split; [reflexivity|].
  refine (reload_restores_the_session (fun _ => InvalidDate) session_of_doctor
            roomy_store st' _ _ E _).
  - vm_compute. discriminate.
  - vm_compute. discriminate.
  - repeat constructor.
Defined.

Lemma forEach_None (f : jsval -> option jsval) (l : list jsval) x :
  In x l -> f x = None -> forEach f l = None.
Proof.
  intros Hin Hx. induction l as [|y l IH]; [destruct Hin|].
  cbn [forEach]. destruct Hin as [->|Hin].
  - rewrite Hx. reflexivity.
  - rewrite (IH Hin). destruct (f y); reflexivity.
Qed.

(** X17. One [null] where a patient or one of a patient's images is
    expected makes [loadState] give up the whole stored collection and
    return the default. *)
Theorem loadState_drops_all_patients_on_a_null Date_other defaultState st text
  records :
  getItem (js "patients") st = Some text ->
  JSON_parse text = Some (VArr records) ->
  In VNull records
  \/ (exists props images,
        In (VObj props) records
        /\ get_prop (js "lesionImages") props = Some (VArr images)
        /\ In VNull images) ->
  loadState Date_other (js "patients") defaultState st = defaultState.
Proof.
  intros Hg Hp Hbad. unfold loadState. rewrite Hg, Hp.
  change (jseqb (js "patients") (js "patients")) with true.
  cbn [isArray andb].
  destruct Hbad as [H|(props & images & H & Hl & Hi)].
  - rewrite (forEach_None (rehydrate_patient Date_other) records VNull H);
      reflexivity.
  - rewrite (forEach_None (rehydrate_patient Date_other) records (VObj props) H);
      [reflexivity|].
    cbn [rehydrate_patient]. rewrite Hl.
    rewrite (forEach_None (rehydrate_image Date_other) images VNull Hi);
      reflexivity.
Qed.

Lemma loadState_drops_all_patients_on_a_null_witness :
  loadState (fun _ => InvalidDate) (js "patients")
    (val_of_patients initialPatients)
    (store_of (js "patients")
       (jsq "[{'id':'p7','lesionImages':[]},null]"))
  = val_of_patients initialPatients.
Proof.
  refine (loadState_drops_all_patients_on_a_null (fun _ => InvalidDate)
            (val_of_patients initialPatients)
            (store_of (js "patients")
               (jsq "[{'id':'p7','lesionImages':[]},null]"))
            (jsq "[{'id':'p7','lesionImages':[]},null]")
            [VObj [(js "id", VStr (js "p7")); (js "lesionImages", VArr [])];
             VNull] _ _ _).
  - vm_compute. reflexivity.
  - vm_compute. reflexivity.
  - left. right. left. reflexivity.
Defined.

Lemma get_prop_set_prop k v (ps : list (jsstring * jsval)) :
  get_prop k (set_prop k v ps) = Some v.
Proof.
  induction ps as [|[k' v'] ps IH]; cbn [set_prop get_prop].
  - rewrite (proj2 (jseqb_eq k k) eq_refl). reflexivity.
  - destruct (jseqb k' k) eqn:E; cbn [get_prop]; rewrite E; [reflexivity|].
    exact IH.
Qed.

Lemma forEach_Forall (f : jsval -> option jsval) (P : jsval -> Prop) l l' :
  (forall x y, In x l -> f x = Some y -> P y) ->
  forEach f l = Some l' -> Forall P l'.
Proof.
  revert l'. induction l as [|x l IH]; intros l' HP.
  - intros [= <-]. constructor.
  - cbn [forEach]. destruct (f x) as [y|] eqn:Ey; [|discriminate].
    cbn. destruct (forEach f l) as [r|] eqn:Er; [|discriminate].
    cbn. intros [= <-]. constructor.
    + apply (HP x y); [left; reflexivity|exact Ey].
    + apply IH; [|reflexivity]. intros x' y' Hin. apply HP. right. exact Hin.
Qed.

Lemma rehydrate_image_has_Date Date_other img img' :
  rehydrate_image Date_other img = Some img' -> image_has_Date img' = true.
Proof.
  destruct img as [| | | |l|ps|d|f]; cbn [rehydrate_image];
    try discriminate; intros [= <-]; try reflexivity.
  cbn [image_has_Date]. rewrite get_prop_set_prop. reflexivity.
Qed.

Lemma rehydrate_patient_has_Dates Date_other p p' :
  rehydrate_patient Date_other p = Some p' -> patient_has_Dates p' = true.
Proof.
  destruct p as [| | | |l|ps|d|f]; cbn [rehydrate_patient];
    try discriminate; try (intros [= <-]; reflexivity).
  destruct (get_prop (js "lesionImages") ps) as [[| | | |imgs|ps'|d|f]|] eqn:E;
    try (intros [= <-]; cbn [patient_has_Dates]; rewrite E; reflexivity).
  destruct (forEach (rehydrate_image Date_other) imgs) as [imgs'|] eqn:Ei;
    [|discriminate].
  cbn. intros [= <-]. cbn [patient_has_Dates]. rewrite get_prop_set_prop.
  apply forallb_forall. apply List.Forall_forall.
  apply (forEach_Forall (rehydrate_image Date_other)
           (fun img => image_has_Date img = true) imgs imgs'); [|exact Ei].
  intros x y _ Hx. apply (rehydrate_image_has_Date _ _ _ Hx).
Qed.

(** X18. Whatever array was stored under the patients' key, [loadState]
    either falls back to the default or returns an array in which the
    timestamp of every image object of every patient object is a [Date]
    (an invalid one where the stored timestamp was missing or could not be
    read). *)
Theorem loaded_patients_carry_Dates Date_other defaultState st text records :
  getItem (js "patients") st = Some text ->
  JSON_parse text = Some (VArr records) ->
  loadState Date_other (js "patients") defaultState st = defaultState
  \/ exists records',
       loadState Date_other (js "patients") defaultState st = VArr records'
       /\ Forall (fun p => patient_has_Dates p = true) records'.
Proof.
  intros Hg Hp. unfold loadState. rewrite Hg, Hp.
  change (jseqb (js "patients") (js "patients")) with true.
  cbn [isArray andb].
  destruct (forEach (rehydrate_patient Date_other) records) as [records'|] eqn:E;
    [right|left; reflexivity].
  exists records'. split; [reflexivity|].
  apply (forEach_Forall (rehydrate_patient Date_other)
           (fun p => patient_has_Dates p = true) records records'); [|exact E].
  intros x y _ Hx. apply (rehydrate_patient_has_Dates _ _ _ Hx).
Qed.

Lemma loaded_patients_carry_Dates_witness :
  loadState (fun _ => InvalidDate) (js "patients")
    (val_of_patients initialPatients)
    (store_of (js "patients")
       (jsq "[{'id':'p7','lesionImages':[{'id':'img_1'}]}]"))
  = val_of_patients initialPatients
  \/ exists records',
       loadState (fun _ => InvalidDate) (js "patients")
         (val_of_patients initialPatients)
         (store_of (js "patients")
            (jsq "[{'id':'p7','lesionImages':[{'id':'img_1'}]}]"))
       = VArr records'
       /\ Forall (fun p => patient_has_Dates p = true) records'.
Proof.
  refine (loaded_patients_carry_Dates (fun _ => InvalidDate)
            (val_of_patients initialPatients)
            (store_of (js "patients")
               (jsq "[{'id':'p7','lesionImages':[{'id':'img_1'}]}]"))
            (jsq "[{'id':'p7','lesionImages':[{'id':'img_1'}]}]")
            [VObj [(js "id", VStr (js "p7"));
                   (js "lesionImages",
                    VArr [VObj [(js "id", VStr (js "img_1"))]])]] _ _).
  - vm_compute. reflexivity.
  - vm_compute. reflexivity.
Defined.

(** A stored image without a timestamp comes back with an invalid
    [Date]. *)
Example reload_of_missing_timestamp :
  loadState (fun _ => InvalidDate) (js "patients")
    (val_of_patients initialPatients)
    (store_of (js "patients")
       (jsq "[{'id':'p7','lesionImages':[{'id':'img_1'}]}]"))
  = VArr [VObj [(js "id", VStr (js "p7"));
                (js "lesionImages",
                 VArr [VObj [(js "id", VStr (js "img_1"));
                             (js "timestamp", VDate InvalidDate)]])]].
Proof. vm_compute. reflexivity. Qed.

(** ** The inference client at its edges *)

(** X19. Without a credential both operations of the client throw before
    anything is read or sent: the interaction counter stands still. *)
Theorem missing_key_stops_before_any_request env file f1 f2 w :
  falsy (API_KEY env) = true ->
  analyzeSkinCondition env file w
  = (Threw key_error,
     mkWorld (app w) (detail w) (calls w ++ [CallAnalyze file]) (ticks w))
  /\ compareLesions env f1 f2 w
     = (Threw key_error,
        mkWorld (app w) (detail w) (calls w ++ [CallCompare f1 f2]) (ticks w)).
Proof.
  intros Hk. unfold analyzeSkinCondition, compareLesions. rewrite Hk.
  split; reflexivity.
Qed.

Lemma missing_key_stops_before_any_request_witness :
  analyzeSkinCondition env_without_key sample_file
    (world_viewing initialPatients idle_detail)
  = (Threw key_error,
     mkWorld (app (world_viewing initialPatients idle_detail))
       (detail (world_viewing initialPatients idle_detail))
       (calls (world_viewing initialPatients idle_detail)
        ++ [CallAnalyze sample_file])
       (ticks (world_viewing initialPatients idle_detail)))
  /\ compareLesions env_without_key sample_file decoded_100
       (world_viewing initialPatients idle_detail)
     = (Threw key_error,
        mkWorld (app (world_viewing initialPatients idle_detail))
          (detail (world_viewing initialPatients idle_detail))
          (calls (world_viewing initialPatients idle_detail)
           ++ [CallCompare sample_file decoded_100])
          (ticks (world_viewing initialPatients idle_detail))).
Proof.
  refine (missing_key_stops_before_any_request env_without_key sample_file
            sample_file decoded_100
            (world_viewing initialPatients idle_detail) _).
  reflexivity.
Defined.

(** X20. When the file cannot be read for the request, the promise of the
    image part never settles, and neither does the upload: nothing is
    sent, no image is added, no error is shown, and the uploading flag
    stays raised. *)
Theorem unreadable_file_hangs_the_upload env file w patient :
  falsy (API_KEY env) = false ->
  readAsDataURL env (ticks w) file = None ->
  mounted_patient (app w) = Some patient ->
  exists w',
    upload env file w = (Pending, w')
    /\ isUploading (detail w') = true
    /\ error (detail w') = None
    /\ app w' = app w
    /\ calls w' = calls w ++ [CallAnalyze file]
    /\ ticks w' = S (ticks w).
Proof.
  intros Hk Hr Hm.
  assert (Ha : analyzeSkinCondition env file (start_upload w)
               = (Pending,
                  mkWorld (app w) (detail (start_upload w))
                    (calls w ++ [CallAnalyze file]) (S (ticks w)))).
  { unfold analyzeSkinCondition, fileToGenerativePart. rewrite Hk.
    unfold_monad. cbn. rewrite Hr. reflexivity. }
  unfold upload, handleImageUpload.
  unfold mbind at 1, M_bind at 1, get_world at 1. rewrite Hm.
  unfold mbind at 1, M_bind at 1, setIsUploading at 1, update_detail at 1.
  unfold mbind at 1, M_bind at 1, setError at 1, update_detail at 1.
  cbn [app detail calls ticks isUploading error compareId1 compareId2
       isComparing comparisonResult].
  unfold finally, try_catch.
  unfold mbind at 1, M_bind at 1.
  change (mkWorld (app w) _ (calls w) (ticks w)) with (start_upload w).
  rewrite Ha.
  eexists. split; [reflexivity|]. repeat split.
Qed.

Lemma unreadable_file_hangs_the_upload_witness :
  exists w',
    upload (env_reading_until 0) sample_file
      (world_viewing initialPatients idle_detail) = (Pending, w')
    /\ isUploading (detail w') = true
    /\ error (detail w') = None
    /\ app w' = app (world_viewing initialPatients idle_detail)
    /\ calls w'
       = calls (world_viewing initialPatients idle_detail)
         ++ [CallAnalyze sample_file]
    /\ ticks w' = S (ticks (world_viewing initialPatients idle_detail)).
Proof.
  refine (unreadable_file_hangs_the_upload (env_reading_until 0) sample_file
            (world_viewing initialPatients idle_detail)
            (mkPatient (js "p1") (Some (js "JD-001")) (js "John Doe")
               (js "1985-05-23") (Some Male) (Some (js "O+"))
               (Some (js "None reported")) []) _ _ _); reflexivity.
Defined.

(** X21. When the analysis came back but the file cannot be read for its
    data URL, the upload ends with the fallback message (what the reader
    rejects with is no [Error]) and adds no image. *)
Theorem unreadable_file_after_analysis_adds_no_image env file w patient result
  w1 :
  mounted_patient (app w) = Some patient ->
  analyzeSkinCondition env file (start_upload w) = (Returned result, w1) ->
  readAsDataURL env (ticks w1) file = None ->
  exists w',
    upload env file w = (Returned tt, w')
    /\ isUploading (detail w') = false
    /\ error (detail w') = Some (js "An unknown error occurred.")
    /\ app w' = app w
    /\ calls w' = calls w ++ [CallAnalyze file].
Proof.
  intros Hm Ha Hr.
  destruct (analyzeSkinCondition_frame _ _ _ _ _ Ha) as (Happ & Hdet & Hcalls).
  unfold upload, handleImageUpload.
  unfold mbind at 1, M_bind at 1, get_world at 1. rewrite Hm.
  unfold mbind at 1, M_bind at 1, setIsUploading at 1, update_detail at 1.
  unfold mbind at 1, M_bind at 1, setError at 1, update_detail at 1.
  cbn [app detail calls ticks isUploading error compareId1 compareId2
       isComparing comparisonResult].
  unfold finally, try_catch.
  unfold mbind at 1, M_bind at 1.
  change (mkWorld (app w) _ (calls w) (ticks w)) with (start_upload w).
  rewrite Ha.
  unfold mbind at 1, M_bind at 1.
  unfold fileToDataUrl. unfold_monad. cbn. rewrite Hr. cbn.
  eexists. split; [reflexivity|]. cbn. rewrite Happ, Hcalls. repeat split.
Qed.

Lemma unreadable_file_after_analysis_adds_no_image_witness :
  exists w',
    upload (env_reading_until 1) sample_file
      (world_viewing initialPatients idle_detail) = (Returned tt, w')
    /\ isUploading (detail w') = false
    /\ error (detail w') = Some (js "An unknown error occurred.")
    /\ app w' = app (world_viewing initialPatients idle_detail)
    /\ calls w'
       = calls (world_viewing initialPatients idle_detail)
         ++ [CallAnalyze sample_file].
Proof.
  refine (unreadable_file_after_analysis_adds_no_image (env_reading_until 1)
            sample_file (world_viewing initialPatients idle_detail)
            (mkPatient (js "p1") (Some (js "JD-001")) (js "John Doe")
               (js "1985-05-23") (Some Male) (Some (js "O+"))
               (Some (js "None reported")) [])
            (VObj [])
            (snd (analyzeSkinCondition (env_reading_until 1) sample_file
                    (start_upload (world_viewing initialPatients idle_detail))))
            _ _ _).
  - reflexivity.
  - vm_compute. reflexivity.
  - vm_compute. reflexivity.
Defined.

Lemma split_comma_no_comma s :
  Forall (fun c => c <> 44) s -> split_comma s = [s].
Proof.
  induction 1 as [|c s Hc _ IH]; [reflexivity|].
  cbn [split_comma]. rewrite (proj2 (N.eqb_neq c 44) Hc), IH. reflexivity.
Qed.

Lemma split_comma_app header rest :
  Forall (fun c => c <> 44) header ->
  split_comma (header ++ 44 :: rest) = header :: split_comma rest.
Proof.
  induction 1 as [|c s Hc _ IH]; [reflexivity|].
  rewrite <- app_comm_cons. cbn [split_comma].
  rewrite (proj2 (N.eqb_neq c 44) Hc), IH. reflexivity.
Qed.

(** X22. The image part of a request carries the file's MIME type and what
    follows the first comma of the data URL the reader produced: the
    whole base64 payload, when neither the header nor the payload holds
    a comma. *)
Theorem image_part_carries_the_payload env file w header payload :
  Forall (fun c => c <> 44) header ->
  Forall (fun c => c <> 44) payload ->
  readAsDataURL env (ticks w) file = Some (header ++ 44 :: payload) ->
  fileToGenerativePart env file w
  = (Returned (InlineData (Some payload) (file_type file)),
     mkWorld (app w) (detail w) (calls w) (S (ticks w))).
Proof.
  intros Hh Hp Hr. unfold fileToGenerativePart. unfold_monad. cbn.
  rewrite Hr. rewrite (split_comma_app _ _ Hh), (split_comma_no_comma _ Hp).
  reflexivity.
Qed.

Lemma image_part_carries_the_payload_witness :
  fileToGenerativePart (env_answering (js "{}")) sample_file
    (world_viewing initialPatients idle_detail)
  = (Returned (InlineData (Some (js "iVBORw==")) (file_type sample_file)),
     mkWorld (app (world_viewing initialPatients idle_detail))
       (detail (world_viewing initialPatients idle_detail))
       (calls (world_viewing initialPatients idle_detail))
       (S (ticks (world_viewing initialPatients idle_detail)))).
Proof.
  refine (image_part_carries_the_payload (env_answering (js "{}")) sample_file
            (world_viewing initialPatients idle_detail)
            (js "data:image/png;base64") (js "iVBORw==") _ _ _).
  - repeat constructor; vm_compute; discriminate.
  - repeat constructor; vm_compute; discriminate.
  - reflexivity.
Defined.

Lemma trimStart_spaces ws s :
  Forall (fun c => is_js_space c = true) ws -> trimStart (ws ++ s) = trimStart s.
Proof.
  induction 1 as [|c ws Hc _ IH]; [reflexivity|].
  rewrite <- app_comm_cons. cbn [trimStart]. rewrite Hc. exact IH.
Qed.

Lemma trimStart_all_spaces ws :
  Forall (fun c => is_js_space c = true) ws -> trimStart ws = [].
Proof.
  intros H. rewrite <- (app_nil_r ws). rewrite (trimStart_spaces _ _ H).
  reflexivity.
Qed.

Lemma trimStart_cases s :
  (trimStart s = [] /\ Forall (fun c => is_js_space c = true) s)
  \/ (exists c r, trimStart s = c :: r /\ is_js_space c = false
                  /\ forall t, trimStart (s ++ t) = c :: r ++ t).
Proof.
  induction s as [|c s IH].
  - left. split; [reflexivity|constructor].
  - cbn [trimStart]. destruct (is_js_space c) eqn:E.
    + destruct IH as [[H1 H2]|(c' & r & H1 & H2 & H3)].
      * left. split; [exact H1|constructor; assumption].
      * right. exists c', r. split; [exact H1|]. split; [exact H2|].
        intros t. rewrite <- app_comm_cons. cbn [trimStart]. rewrite E.
        apply H3.
    + right. exists c, s. split; [reflexivity|]. split; [exact E|].
      intros t. rewrite <- app_comm_cons. cbn [trimStart]. rewrite E.
      reflexivity.
Qed.

Lemma trim_spaces before text after :
  Forall (fun c => is_js_space c = true) before ->
  Forall (fun c => is_js_space c = true) after ->
  trim (before ++ text ++ after) = trim text.
Proof.
  intros Hb Ha. unfold trim. rewrite (trimStart_spaces _ _ Hb).
  destruct (trimStart_cases text) as [[H1 H2]|(c & r & H1 & _ & H3)].
  - rewrite H1. rewrite (trimStart_all_spaces (text ++ after)); [reflexivity|].
    apply Forall_app. split; assumption.
  - rewrite H3, H1. rewrite app_comm_cons, rev_app_distr.
    rewrite trimStart_spaces; [reflexivity|].
    apply Forall_rev. exact Ha.
Qed.

(** X23. White space and line breaks around the text of a response make no
    difference to what either operation of the client makes of it. *)
Theorem surrounding_space_is_ignored message before text after w :
  Forall (fun c => is_js_space c = true) before ->
  Forall (fun c => is_js_space c = true) after ->
  parse_response message (mkResponse (Some (before ++ text ++ after))) w
  = parse_response message (mkResponse (Some text)) w.
Proof.
  intros Hb Ha. unfold parse_response. cbn [response_text].
  rewrite (trim_spaces _ _ _ Hb Ha). reflexivity.
Qed.

Lemma surrounding_space_is_ignored_witness :
  parse_response (js "The AI returned an unexpected response format. Please try again.")
    (mkResponse (Some ([10; 32] ++ jsq "{'confidence':'High'}" ++ [13; 10; 65279])))
    (world_viewing initialPatients idle_detail)
  = parse_response (js "The AI returned an unexpected response format. Please try again.")
      (mkResponse (Some (jsq "{'confidence':'High'}")))
      (world_viewing initialPatients idle_detail).
Proof.
  refine (surrounding_space_is_ignored
            (js "The AI returned an unexpected response format. Please try again.")
            [10; 32] (jsq "{'confidence':'High'}") [13; 10; 65279]
            (world_viewing initialPatients idle_detail) _ _).
  - repeat constructor.
  - repeat constructor.
Defined.

(** ** How an upload can end *)

(** X24. With no detail view mounted an upload does nothing.  With a
    patient mounted, however the environment behaves, it lets no error
    escape, it calls the client for the file, and it touches nothing of
    the application state but the patients and nothing of the comparison.
    When it never settles the uploading flag stays raised, no error is
    shown and the patients are as they were.  When it returns the flag
    is lowered and either an error is shown, the patients are as they were
    and nothing was called after the client; or no error is shown, the
    update callback was called once after the client, and every patient
    with the id of the mounted one has been replaced by the mounted patient
    with one image more, in front, carrying the file. *)
Theorem upload_settles_consistently env file w :
  let r := fst (upload env file w) in
  let w' := snd (upload env file w) in
  (mounted_patient (app w) = None -> r = Returned tt /\ w' = w)
  /\ (forall patient,
        mounted_patient (app w) = Some patient ->
        (forall e, r <> Threw e)
        /\ (isLoggedIn (app w'), users (app w'), view (app w'),
            selectedPatientId (app w'), viewingImage (app w'))
           = (isLoggedIn (app w), users (app w), view (app w),
              selectedPatientId (app w), viewingImage (app w))
        /\ (compareId1 (detail w'), compareId2 (detail w'),
            isComparing (detail w'), comparisonResult (detail w'))
           = (compareId1 (detail w), compareId2 (detail w),
              isComparing (detail w), comparisonResult (detail w))
        /\ (r = Pending ->
            isUploading (detail w') = true /\ error (detail w') = None
            /\ app w' = app w
            /\ calls w' = calls w ++ [CallAnalyze file])
        /\ (r = Returned tt ->
            isUploading (detail w') = false
            /\ ((exists m,
                   error (detail w') = Some m /\ app w' = app w
                   /\ calls w' = calls w ++ [CallAnalyze file])
                \/ (error (detail w') = None
                    /\ exists image,
                         img_file image = Some file
                         /\ patients (app w')
                            = List.map
                                (fun p =>
                                   if bool_decide (p_id p = p_id patient)
                                   then patient_holding patient
                                          (image :: p_lesionImages patient)
                                   else p)
                                (patients (app w))
                         /\ calls w'
                            = calls w
                              ++ [CallAnalyze file;
                                  CallUpdatePatient
                                    (patient_holding patient
                                       (image :: p_lesionImages patient))])))).
Proof.
  cbv zeta. destruct (upload env file w) as [r w'] eqn:H.
  cbn [fst snd]. revert H. unfold upload, handleImageUpload.
  unfold mbind at 1, M_bind at 1, get_world at 1.
  destruct (mounted_patient (app w)) as [patient|] eqn:Hm.
  2:{ intros [= <- <-]. split; [intros _; split; reflexivity|].
      intros ? ?; discriminate. }
  intros H. split; [intros ?; discriminate|]. intros ? [= <-]. revert H.
  unfold mbind at 1, M_bind at 1, setIsUploading at 1, update_detail at 1.
  unfold mbind at 1, M_bind at 1, setError at 1, update_detail at 1.
  cbn [app detail calls ticks isUploading error compareId1 compareId2
       isComparing comparisonResult].
  unfold finally, try_catch.
  unfold mbind at 1, M_bind at 1.
  change (mkWorld (app w) _ (calls w) (ticks w)) with (start_upload w).
  destruct (analyzeSkinCondition env file (start_upload w)) as [o w1] eqn:Ha.
  destruct (analyzeSkinCondition_frame _ _ _ _ _ Ha) as (Happ & Hdet & Hcalls).
  cbn [start_upload app detail calls] in Happ, Hdet, Hcalls.
  destruct o as [result|e|].
  - unfold mbind at 1, M_bind at 1.
    unfold fileToDataUrl at 1. unfold mbind at 1, M_bind at 1, tick at 1.
    cbn [app detail calls ticks].
    destruct (readAsDataURL env (ticks w1) file) as [url|].
    + unfold Date_now, appendImage, handleUpdatePatient, setPatients,
        setIsUploading, setError.
      unfold_monad. cbn. intros [= <- <-]. cbn.
      rewrite Happ, Hdet, Hcalls. cbn.
      split; [intros ? ?; discriminate|]. split; [reflexivity|].
      split; [reflexivity|]. split; [intros ?; discriminate|].
      intros _. split; [reflexivity|]. right. split; [reflexivity|].
      exists (mkLesionImage
                (js "img_" ++ Number_toString (clock env (S (ticks w1))))
                url (Some file) result
                (Instant (clock env (S (S (ticks w1)))))).
      split; [reflexivity|]. split; [reflexivity|].
      rewrite <- app_assoc. reflexivity.
    + unfold setIsUploading, setError. unfold_monad. cbn.
      intros [= <- <-]. cbn. rewrite Happ, Hdet, Hcalls. cbn.
      split; [intros ? ?; discriminate|]. split; [reflexivity|].
      split; [reflexivity|]. split; [intros ?; discriminate|].
      intros _. split; [reflexivity|]. left. eexists. repeat split.
  - unfold setIsUploading, setError. unfold_monad. cbn.
    intros [= <- <-]. cbn. rewrite Happ, Hdet, Hcalls. cbn.
    split; [intros ? ?; discriminate|]. split; [reflexivity|].
    split; [reflexivity|]. split; [intros ?; discriminate|].
    intros _. split; [reflexivity|]. left. eexists. repeat split.
  - intros [= <- <-]. rewrite Happ, Hdet, Hcalls. cbn.
    split; [intros ? ?; discriminate|]. split; [reflexivity|].
    split; [reflexivity|]. split; [intros _; repeat split|].
    intros ?; discriminate.
Qed.

Lemma analyzeSkinCondition_ticks env file w url response :
  falsy (API_KEY env) = false ->
  readAsDataURL env (ticks w) file = Some url ->
  generateContent env (S (ticks w))
    (analysis_request (InlineData (nth_error (split_comma url) 1)
                         (file_type file))) = Returned response ->
  ticks (snd (analyzeSkinCondition env file w)) = S (S (ticks w)).
Proof.
  intros Hk Hr Hg. unfold analyzeSkinCondition, fileToGenerativePart,
    ai_generateContent.
  rewrite Hk. unfold_monad. destruct w as [a d c t].
  cbn in Hr, Hg |- *. rewrite Hr. cbn in Hg |- *. rewrite Hg.
  rewrite parse_response_outcome. reflexivity.
Qed.

(** X25. An upload with a credential, a readable file and a response whose
    text parses puts one image in front of the mounted patient's images:
    it carries the file, the data URL of the second read, whatever the
    response parsed to as its analysis result, an id made of the third
    clock reading and the fourth as its timestamp. *)
Theorem upload_adds_the_analysed_image env file w patient url1 response result
  url2 :
  falsy (API_KEY env) = false ->
  mounted_patient (app w) = Some patient ->
  readAsDataURL env (ticks w) file = Some url1 ->
  generateContent env (S (ticks w))
    (analysis_request (InlineData (nth_error (split_comma url1) 1)
                         (file_type file))) = Returned response ->
  payload_of response = Some result ->
  readAsDataURL env (S (S (ticks w))) file = Some url2 ->
  exists w',
    upload env file w = (Returned tt, w')
    /\ mounted_patient (app w')
       = Some (patient_holding patient
                 (mkLesionImage
                    (js "img_"
                     ++ Number_toString (clock env (S (S (S (ticks w))))))
                    url2 (Some file) result
                    (Instant (clock env (S (S (S (S (ticks w)))))))
                  :: p_lesionImages patient))
    /\ isUploading (detail w') = false
    /\ error (detail w') = None
    /\ ticks w' = S (S (S (S (S (ticks w))))).
Proof.
  intros Hk Hm Hr1 Hg Hp Hr2.
  destruct (analyzeSkinCondition env file (start_upload w)) as [o w1] eqn:Ha.
  pose proof (analyzeSkinCondition_outcome env file (start_upload w) url1
                response Hk Hr1 Hg) as Ho.
  rewrite Ha, Hp in Ho. cbn [fst] in Ho. subst o.
  assert (Ht : ticks w1 = S (S (ticks w))).
  { pose proof (analyzeSkinCondition_ticks env file (start_upload w) url1
                  response Hk Hr1 Hg) as Ht.
    rewrite Ha in Ht. exact Ht. }
  assert (Hf : fileToDataUrl env file w1
               = (Returned url2,
                  mkWorld (app w1) (detail w1) (calls w1) (S (ticks w1)))).
  { unfold fileToDataUrl. unfold_monad. cbn. rewrite Ht, Hr2. reflexivity. }
  destruct (upload_success env file w patient result w1 url2 _ Hm Ha Hf)
    as (w2 & Hup & Happ & Hu & He & _).
  cbn [ticks] in Hup, Happ. rewrite Ht in Happ.
  exists w2. split; [exact Hup|].
  set (image := mkLesionImage _ url2 (Some file) result _) in *.
  destruct (append_step image w patient Hm) as (w3 & Hap & Hm3).
  rewrite Hap in Happ. cbn [snd] in Happ. rewrite Happ.
  split; [exact Hm3|]. split; [exact Hu|]. split; [exact He|].
  revert Hup. clear - Hm Ha Hf Ht.
  unfold upload, handleImageUpload.
  unfold mbind at 1, M_bind at 1, get_world at 1. rewrite Hm.
  unfold mbind at 1, M_bind at 1, setIsUploading at 1, update_detail at 1.
  unfold mbind at 1, M_bind at 1, setError at 1, update_detail at 1.
  cbn [app detail calls ticks isUploading error compareId1 compareId2
       isComparing comparisonResult].
  unfold finally, try_catch.
  unfold mbind at 1, M_bind at 1.
  change (mkWorld (app w) _ (calls w) (ticks w)) with (start_upload w).
  rewrite Ha.
  unfold mbind at 1, M_bind at 1. rewrite Hf.
  unfold Date_now, appendImage, handleUpdatePatient, setPatients,
    setIsUploading.
  unfold_monad. cbn. rewrite Ht. intros [= <-]. reflexivity.
Qed.

Lemma upload_adds_the_analysed_image_witness :
  exists w',
    upload (env_ticking (jsq "{'conditionName':'Eczema','confidence':'High'}"))
      sample_file (world_viewing initialPatients idle_detail)
    = (Returned tt, w')
    /\ mounted_patient (app w')
       = Some (mkPatient (js "p1") (Some (js "JD-001")) (js "John Doe")
                 (js "1985-05-23") (Some Male) (Some (js "O+"))
                 (Some (js "None reported"))
                 [mkLesionImage (js "img_1700000000003") sample_dataUrl
                    (Some sample_file)
                    (VObj [(js "conditionName", VStr (js "Eczema"));
                           (js "confidence", VStr (js "High"))])
                    (Instant 1700000000004)])
    /\ isUploading (detail w') = false
    /\ error (detail w') = None
    /\ ticks w' = 5%nat.
Proof.
  refine (upload_adds_the_analysed_image
            (env_ticking (jsq "{'conditionName':'Eczema','confidence':'High'}"))
            sample_file (world_viewing initialPatients idle_detail)
            (mkPatient (js "p1") (Some (js "JD-001")) (js "John Doe")
               (js "1985-05-23") (Some Male) (Some (js "O+"))
               (Some (js "None reported")) [])
            sample_dataUrl
            (mkResponse (Some (jsq "{'conditionName':'Eczema','confidence':'High'}")))
            (VObj [(js "conditionName", VStr (js "Eczema"));
                   (js "confidence", VStr (js "High"))])
            sample_dataUrl _ _ _ _ _ _).
  - reflexivity.
  - reflexivity.
  - reflexivity.
  - reflexivity.
  - vm_compute. reflexivity.
  - reflexivity.
Defined.

(** The run of uploads of [upload_all_reverse_insertion_order], on two
    files. *)
Lemma upload_all_reverse_insertion_order_witness :
  exists images w',
    upload_all (env_ticking (js "{}")) [sample_file; decoded_100]
      (world_viewing initialPatients idle_detail) = (Returned tt, w')
    /\ List.map img_file images = [Some sample_file; Some decoded_100]
    /\ mounted_patient (app w')
       = Some (mkPatient (js "p1") (Some (js "JD-001")) (js "John Doe")
                 (js "1985-05-23") (Some Male) (Some (js "O+"))
                 (Some (js "None reported")) (rev images ++ [])).
Proof.
  refine (upload_all_reverse_insertion_order (env_ticking (js "{}"))
            [sample_file; decoded_100] _ _ _
            (world_viewing initialPatients idle_detail)
            (mkPatient (js "p1") (Some (js "JD-001")) (js "John Doe")
               (js "1985-05-23") (Some Male) (Some (js "O+"))
               (Some (js "None reported")) []) _).
  - reflexivity.
  - intros i f. discriminate.
  - intros i req. exists (mkResponse (Some (js "{}"))).
    split; [reflexivity|]. vm_compute. discriminate.
  - reflexivity.
Defined.

(** ** How a comparison can end *)





(** X28. What [handleCompare] leaves on the screen is what the client
    answered: the parsed result and no error when it returned a result,
    neither a result nor an error when the response parsed to [null], the
    message of the error (or the fallback text) and no result when it
    threw; any earlier result or error is gone, and the comparing flag is
    lowered. *)
Theorem handleCompare_shows_what_the_client_answered
  env patient w id1 id2 image1 image2 file1 file2 answer w2 :
  compareId1 (detail w) = Some id1 ->
  compareId2 (detail w) = Some id2 ->
  id1 <> [] -> id2 <> [] ->
  find_image patient (Some id1) = Some image1 ->
  find_image patient (Some id2) = Some image2 ->
  binary_handle env (ticks w) "img1_" image1 = Returned file1 ->
  binary_handle env (decode_steps image1 + ticks w) "img2_" image2
    = Returned file2 ->
  compareLesions env file1 file2
    (mkWorld (app w) (detail (start_compare w)) (calls w)
       (decode_steps image2 + (decode_steps image1 + ticks w)))
  = (answer, w2) ->
  answer <> Pending ->
  exists w',
    handleCompare env patient w = (Returned tt, w')
    /\ isComparing (detail w') = false
    /\ comparisonResult (detail w')
       = match answer with
         | Returned VNull => None
         | Returned result => Some result
         | _ => None
         end
    /\ error (detail w')
       = match answer with
         | Threw e =>
             Some (message_or
                     (js "An unknown error occurred during comparison.") e)
         | _ => None
         end
    /\ app w' = app w.
Proof.
  intros H1 H2 Hn1 Hn2 Hf1 Hf2 Hb1 Hb2 Hc Hp.
  unfold handleCompare.
  unfold mbind at 1, M_bind at 1, get_world at 1.
  rewrite H1, H2, Hf1, Hf2.
  replace (falsy (Some id1)) with false by (destruct id1; cbn; congruence).
  replace (falsy (Some id2)) with false by (destruct id2; cbn; congruence).
  cbn [orb].
  unfold setIsComparing, setComparisonResult, setError, update_detail.
  unfold mbind at 1, M_bind at 1. unfold mbind at 1, M_bind at 1.
  unfold mbind at 1, M_bind at 1.
  cbn [app detail calls ticks isUploading error compareId1 compareId2
       isComparing comparisonResult].
  unfold finally, try_catch.
  unfold mbind at 1, M_bind at 1.
  rewrite file_of_image_handle.
  cbn [app detail calls ticks]. rewrite Hb1.
  unfold mbind at 1, M_bind at 1.
  rewrite file_of_image_handle.
  cbn [app detail calls ticks]. rewrite Hb2.
  unfold mbind at 1, M_bind at 1.
  unfold start_compare in Hc. cbn [detail] in Hc. rewrite Hc.
  apply compareLesions_frame in Hc. destruct Hc as (Ha & Hd & _).
  cbn [app detail] in Ha, Hd.
  destruct answer as [result|e|]; [| |congruence];
    eexists; (split; [reflexivity|]);
    cbn [app detail calls ticks isComparing comparisonResult error];
    rewrite ?Ha, ?Hd; [destruct result|]; repeat split.
Qed.

Lemma handleCompare_shows_what_the_client_answered_witness :
  exists w',
    handleCompare (env_answering (jsq "{'changeSummary':'Stable'}")) patient_P
      (world_viewing [patient_P] (selecting "img_100" "img_200"))
    = (Returned tt, w')
    /\ isComparing (detail w') = false
    /\ comparisonResult (detail w')
       = Some (VObj [(js "changeSummary", VStr (js "Stable"))])
    /\ error (detail w') = None
    /\ app w' = app (world_viewing [patient_P] (selecting "img_100" "img_200")).
Proof.
  refine (handleCompare_shows_what_the_client_answered
            (env_answering (jsq "{'changeSummary':'Stable'}")) patient_P
            (world_viewing [patient_P] (selecting "img_100" "img_200"))
            (js "img_100") (js "img_200") image_100 image_200
            decoded_100 sample_file
            (Returned (VObj [(js "changeSummary", VStr (js "Stable"))]))
            (snd (compareLesions (env_answering (jsq "{'changeSummary':'Stable'}"))
                    decoded_100 sample_file
                    (mkWorld
                       (app (world_viewing [patient_P]
                               (selecting "img_100" "img_200")))
                       (detail (start_compare
                                  (world_viewing [patient_P]
                                     (selecting "img_100" "img_200"))))
                       (calls (world_viewing [patient_P]
                                 (selecting "img_100" "img_200")))
                       (decode_steps image_200
                        + (decode_steps image_100
                           + ticks (world_viewing [patient_P]
                                      (selecting "img_100" "img_200")))))))
            _ _ _ _ _ _ _ _ _ _);
    solve [reflexivity | discriminate | vm_compute; reflexivity].
Defined.

(** A response whose text is [null] is a comparison that shows nothing:
    no result, no error, the flag lowered, the client called once. *)
Example handleCompare_null_answer_shows_nothing :
  let w' :=
    snd (handleCompare (env_answering (js "null")) patient_P
           (world_viewing [patient_P] (selecting "img_100" "img_200"))) in
  (isComparing (detail w'), comparisonResult (detail w'), error (detail w'))
  = (false, None, None)
  /\ calls w' = [CallCompare decoded_100 sample_file].
Proof. vm_compute. split; reflexivity. Qed.

(** ** The confidence badge *)

(** The two copies of [getConfidenceClasses] return the same classes
    for every string, and for a string of ASCII letters the classes do
    not depend on the case of the letters; for [undefined] and [null] the
    copy of [App.tsx] returns the neutral classes and the copy of
    [ResultCard.tsx] throws; for anything else both throw. *)
Theorem getConfidenceClasses_copies lower_other (confidence : option jsval) :
  match confidence with
  | Some (VStr s) =>
      getConfidenceClasses lower_other confidence
      = ResultCard_getConfidenceClasses lower_other confidence
      /\ getConfidenceClasses lower_other confidence <> None
      /\ (forallb (fun c => c <? 128) s = true ->
          getConfidenceClasses lower_other (Some (VStr (List.map lower_unit s)))
          = getConfidenceClasses lower_other confidence)
  | None | Some VNull =>
      getConfidenceClasses lower_other confidence
      = Some (mkClasses (js "bg-slate-100") (js "text-slate-800")
                (js "border-slate-200"))
      /\ ResultCard_getConfidenceClasses lower_other confidence = None
  | Some _ =>
      getConfidenceClasses lower_other confidence = None
      /\ ResultCard_getConfidenceClasses lower_other confidence = None
  end.
Proof.
  destruct confidence as [[| | |s| | | |]|]; try (split; reflexivity).
  split; [reflexivity|]. split; [discriminate|].
  intros Hs. cbn [getConfidenceClasses]. do 2 f_equal. f_equal.
  unfold toLowerCase. rewrite Hs.
  assert (Hl : forallb (fun c => c <? 128) (List.map lower_unit s) = true).
  { rewrite forallb_forall in Hs. apply forallb_forall. intros c Hc.
    apply in_map_iff in Hc. destruct Hc as (c0 & <- & Hc0).
    specialize (Hs c0 Hc0). unfold lower_unit.
    apply N.ltb_lt in Hs. apply N.ltb_lt.
    destruct ((65 <=? c0) && (c0 <=? 90)) eqn:E; [|exact Hs].
    apply andb_true_iff in E. destruct E as [_ E]. apply N.leb_le in E. lia. }
  rewrite Hl. rewrite List.map_map. apply List.map_ext. intros c.
  unfold lower_unit.
  destruct ((65 <=? c) && (c <=? 90)) eqn:E; [|rewrite E; reflexivity].
  replace ((65 <=? c + 32) && (c + 32 <=? 90)) with false; [reflexivity|].
  symmetry. apply andb_false_iff. right. apply N.leb_gt.
  apply andb_true_iff in E. destruct E as [E _]. apply N.leb_le in E. lia.
Qed.

(** X29. An item of the image history gets its classes unless the analysis
    result is an object whose [confidence] is truthy and not a string: then
    computing them throws.  A missing, [null] or otherwise falsy
    confidence, and an analysis result that is [null] or no object, give
    the neutral classes. *)
Theorem history_classes_throw_iff_truthy_non_string lower_other number_truthy
  img :
  (history_classes lower_other number_truthy img = None
   <-> exists ps c,
         img_analysisResult img = VObj ps
         /\ get_prop (js "confidence") ps = Some c
         /\ truthy number_truthy c = true
         /\ forall s, c <> VStr s)
  /\ ((forall ps, img_analysisResult img <> VObj ps) ->
      history_classes lower_other number_truthy img
      = Some (mkClasses (js "bg-slate-100") (js "text-slate-800")
                (js "border-slate-200"))).
Proof.
  unfold history_classes, confidence_of. split.
  - split.
    + destruct (img_analysisResult img) as [| | | | |ps| |];
        try (cbn [getConfidenceClasses]; discriminate).
      destruct (get_prop (js "confidence") ps) as [c|] eqn:Ec;
        [|cbn [getConfidenceClasses]; discriminate].
      destruct (truthy number_truthy c) eqn:Et;
        [|cbn [getConfidenceClasses]; discriminate].
      intros H. exists ps, c. split; [reflexivity|]. split; [exact Ec|].
      split; [exact Et|]. intros s ->. discriminate H.
    + intros (ps & c & -> & Ec & Et & Hs). rewrite Ec, Et.
      destruct c; try reflexivity; try discriminate.
      destruct (Hs s). reflexivity.
  - intros Hno. destruct (img_analysisResult img) as [| | | | |ps| |];
      try reflexivity.
    destruct (Hno ps). reflexivity.
Qed.

(** X30. The detail modal of an image renders nothing when the analysis
    result is falsy; otherwise its result card throws unless the analysis
    result is an object whose [confidence] is a string.  The empty object,
    which the client accepts as an analysis result, makes it throw. *)
Theorem AnalysisDetailModal_throws_without_string_confidence lower_other
  number_truthy image :
  (truthy number_truthy (img_analysisResult image) = false ->
   AnalysisDetailModal_classes lower_other number_truthy image = Some None)
  /\ (truthy number_truthy (img_analysisResult image) = true ->
      (AnalysisDetailModal_classes lower_other number_truthy image = None
       <-> ~ exists ps s,
             img_analysisResult image = VObj ps
             /\ get_prop (js "confidence") ps = Some (VStr s)))
  /\ (img_analysisResult image = VObj [] ->
      AnalysisDetailModal_classes lower_other number_truthy image = None).
Proof.
  unfold AnalysisDetailModal_classes, confidence_of. split; [|split].
  - intros ->. reflexivity.
  - intros ->. cbn [negb]. split.
    + intros H (ps & s & Hr & Hc). rewrite Hr, Hc in H. discriminate H.
    + intros Hno.
      destruct (img_analysisResult image) as [| | | | |ps| |];
        try reflexivity.
      destruct (get_prop (js "confidence") ps) as [[| | |s| | | |]|] eqn:Ec;
        try reflexivity.
      destruct Hno. exists ps, s. split; [reflexivity|exact Ec].
  - intros ->. reflexivity.
Qed.
